(** * AKS Desktop: kubeconfig merge, credential rewrite and project import

    A shallow embedding of the kubeconfig handling of the Electron
    backend ([addAzKubeloginToKubeconfig], [mergeKubeconfig],
    [registerAKSCluster]), of the plugin-side copy of the credential
    rewrite, and of the import page of the AKS plugin ([loadNamespaces],
    [discoverNamespaces], [handleImport]).

    Conventions.
    - A JavaScript object is an association list in insertion order.
    - A function that may raise returns a [result]; [try]/[catch] is
      written out with [catch].
    - Library and operating-system functions the code calls ([yaml.parse],
      [yaml.stringify], [path.join], the [az] process, the registration
      IPC call) are parameters of the sections that use them. *)

From stdpp Require Import base option list strings gmap pretty.
From Stdlib Require Import ZArith Ascii.

Set Warnings "-register-all".
Local Open Scope string_scope.
Local Open Scope list_scope.
Local Open Scope nat_scope.

(** ** JavaScript values and exceptions *)

Inductive value : Type :=
  | VNull
  | VBool (b : bool)
  | VNum (z : Z)
  | VStr (s : string)
  | VSeq (l : list value)
  | VMap (m : list (string * value)).

(** A plain object: keys in insertion order. *)
Abbreviation obj := (list (string * value)).

(** [if (v)]: [null], [false], [0] and [''] are falsy; arrays and objects
    are truthy. *)
Definition truthy (v : value) : bool :=
  match v with
  | VNull => false
  | VBool b => b
  | VNum z => negb (Z.eqb z 0)
  | VStr s => negb (String.eqb s "")
  | VSeq _ => true
  | VMap _ => true
  end.

(** [o[k]]; [None] is [undefined]. *)
Fixpoint js_get {V : Type} (k : string) (o : list (string * V)) : option V :=
  match o with
  | [] => None
  | (k', v) :: o' => if String.eqb k k' then Some v else js_get k o'
  end.

(** [delete o[k]]. *)
Fixpoint js_delete {V : Type} (k : string) (o : list (string * V))
  : list (string * V) :=
  match o with
  | [] => []
  | (k', v) :: o' =>
      if String.eqb k k' then js_delete k o' else (k', v) :: js_delete k o'
  end.

(** [o[k] = v]: an existing key keeps its place, a new key goes last. *)
Fixpoint js_set {V : Type} (k : string) (v : V) (o : list (string * V))
  : list (string * V) :=
  match o with
  | [] => [(k, v)]
  | (k', v') :: o' =>
      if String.eqb k k' then (k, v) :: o' else (k', v') :: js_set k v o'
  end.

(** [if (o[k])]. *)
Definition js_truthy (k : string) (o : obj) : bool :=
  match js_get k o with
  | Some v => truthy v
  | None => false
  end.

(** [s || d] on strings. *)
Definition or_else (s d : string) : string :=
  if String.eqb s "" then d else s.

(** [hay.includes(needle)]. *)
Fixpoint includes (needle hay : string) : bool :=
  String.prefix needle hay ||
  match hay with
  | EmptyString => false
  | String _ hay' => includes needle hay'
  end.

(** [str.split(sep)] for a one-character separator. *)
Fixpoint split_on (sep : ascii) (s : string) : list string :=
  match s with
  | EmptyString => [EmptyString]
  | String c s' =>
      if Ascii.eqb c sep then EmptyString :: split_on sep s'
      else
        match split_on sep s' with
        | [] => [String c EmptyString]
        | p :: ps => String c p :: ps
        end
  end.

Inductive exn : Type :=
  | TypeError (msg : string)
  | SyntaxError (msg : string)
  | Error (msg : string)
  | NonError.

(** [err.message], as the handlers read it. *)
Definition exn_message (e : exn) : string :=
  match e with
  | TypeError m | SyntaxError m | Error m => m
  | NonError => ""
  end.

Inductive result (A : Type) : Type :=
  | Ok (a : A)
  | Throw (e : exn).
Arguments Ok {A} a.
Arguments Throw {A} e.

#[global] Instance result_ret : MRet result := λ A a, Ok a.

#[global] Instance result_bind : MBind result := λ A B f r,
  match r with
  | Ok a => f a
  | Throw e => Throw e
  end.

(** [try { body } catch (e) { handler e }]. *)
Definition catch {A} (body : result A) (handler : exn → A) : A :=
  match body with
  | Ok a => a
  | Throw e => handler e
  end.

(** ** The kubeconfig document (interface [KubeConfig]) *)

(** An element of [clusters] or [contexts]: [{ name, [key]: any }]. *)
Record named : Type := Named {
  name : string;
  props : obj;
}.

(** An element of [users]: [{ name: string; user?: any }]. [None] is a
    missing [user]; any value can stand there, the kubeconfig format
    makes it a mapping. *)
Record user_entry : Type := UserEntry {
  uname : string;
  user : option value;
}.

Record KubeConfig : Type := MkKubeConfig {
  clusters : option (list named);
  contexts : option (list named);
  users : option (list user_entry);
  current_context : option string;
  extra : obj;
}.

(** What a YAML parser hands back for a kubeconfig text: [null] for a text
    without content, a mapping otherwise. The mapping has the shape the
    interface declares: [clusters], [contexts] and [users], when present,
    are arrays of records with a [name]. *)
Inductive yamldoc : Type :=
  | DNull
  | DMap (k : KubeConfig).

(** [{}] *)
Definition empty_config : KubeConfig :=
  MkKubeConfig None None None None [].

Definition with_users (k : KubeConfig) (us : list user_entry) : KubeConfig :=
  MkKubeConfig (clusters k) (contexts k) (Some us) (current_context k) (extra k).

(** The six legacy credential fields of a [user] mapping. *)
Definition legacy_fields : list string :=
  ["auth-provider"; "token"; "client-certificate"; "client-certificate-data";
   "client-key"; "client-key-data"].

(** [typeof v] for a primitive, and [String(v)]. *)
Definition type_of (v : value) : string :=
  match v with
  | VNull => "object"
  | VBool _ => "boolean"
  | VNum _ => "number"
  | VStr _ => "string"
  | VSeq _ | VMap _ => "object"
  end.

Definition show_primitive (v : value) : string :=
  match v with
  | VNull => "null"
  | VBool b => if b then "true" else "false"
  | VNum z => pretty z
  | VStr s => s
  | VSeq _ | VMap _ => "[object Object]"
  end.

(** [v.exec = ...] on a primitive: the modules are strict code, where
    the assignment raises. *)
Definition cannot_create_exec (v : value) : exn :=
  TypeError ("Cannot create property 'exec' on " +:+ type_of v +:+ " '" +:+
             show_primitive v +:+ "'").

(** The [exec] mapping both copies of the rewrite build; they differ in
    the paths, the server id and the [env] list. *)
Definition exec_descriptor (command helper serverId : string)
  (env : list (string * string)) : value :=
  VMap [("apiVersion", VStr "client.authentication.k8s.io/v1beta1");
        ("command", VStr command);
        ("args", VSeq [VStr helper; VStr "--server-id"; VStr serverId]);
        ("env", VSeq (map (λ nv, VMap [("name", VStr nv.1);
                                       ("value", VStr nv.2)]) env));
        ("provideClusterInfo", VBool false)].

(** ** Electron backend (src/app/scripts/after-pack.js, second part) *)

Module Backend.

Record exec_paths : Type := ExecPaths {
  pythonCmd : string;
  azKubeloginPath : string;
  azCliBinPath : string;
  azCliCmd : string;
}.

Section Rewrite.
(** [yaml.parse], [yaml.stringify], [path.join], [process.platform],
    [process.env.PATH]. *)
Variable yaml_parse : string → result yamldoc.
Variable yaml_stringify : yamldoc → string.
Variable path_join : list string → string.
Variable platform : string.
Variable env_PATH : option string.

Definition getExecutablePaths (isDev : bool) (resourcesPath : string)
  : exec_paths :=
  let externalToolsBinPath :=
    path_join [resourcesPath; "external-tools"; "bin"] in
  if String.eqb platform "win32" then
    let azCliWindowsPath :=
      path_join [resourcesPath; "external-tools"; "az-cli"; "win32"] in
    let bin := path_join [azCliWindowsPath; "bin"] in
    {| pythonCmd := path_join [azCliWindowsPath; "python.exe"];
       azKubeloginPath := path_join [externalToolsBinPath; "az-kubelogin.py"];
       azCliBinPath := bin;
       azCliCmd := path_join [bin; "az.cmd"] |}
  else
    let bin :=
      path_join [resourcesPath; "external-tools"; "az-cli"; platform; "bin"] in
    {| pythonCmd := path_join [bin; "python3"];
       azKubeloginPath := path_join [externalToolsBinPath; "az-kubelogin.py"];
       azCliBinPath := bin;
       azCliCmd := path_join [bin; "az"] |}.

Definition serverId : string := "6dae42f8-4368-4678-94ff-3960e28e3630".

(** The [exec] value of one call. *)
Definition exec_block (p : exec_paths) : value :=
  let pathSeparator := if String.eqb platform "win32" then ";" else ":" in
  let currentPath := or_else (default "" env_PATH) "" in
  let newPath := azCliBinPath p +:+ pathSeparator +:+ currentPath in
  exec_descriptor (pythonCmd p) (azKubeloginPath p) serverId
    [("PATH", newPath); ("AZ_CLI_PATH", azCliCmd p)].

(** The body of [if (user.user) { ... }] on the [user] mapping. *)
Definition configure (p : exec_paths) (u : obj) : obj :=
  let u := if js_truthy "auth-provider" u
           then js_delete "auth-provider" u else u in
  let u := js_delete "token" u in
  let u := js_delete "client-certificate" u in
  let u := js_delete "client-certificate-data" u in
  let u := js_delete "client-key" u in
  let u := js_delete "client-key-data" u in
  js_set "exec" (exec_block p) u.

(** What a turn of the loop that does not raise leaves of the element:
    a [user] mapping is configured; nothing else shows a change. *)
Definition configure_user (p : exec_paths) (e : user_entry) : user_entry :=
  match user e with
  | Some (VMap u) => UserEntry (uname e) (Some (VMap (configure p u)))
  | _ => e
  end.

(** One turn of [for (const user of kubeconfig.users)]. [if (user.user)]
    skips a missing or falsy [user]. On a truthy primitive the reads and
    the [delete]s find nothing and the assignment of [exec] raises. On
    an array they find nothing either and [exec] becomes a property of
    the array object, which is not one of its elements: the document
    printed is as before. *)
Definition configure_turn (p : exec_paths) (e : user_entry)
  : result user_entry :=
  match user e with
  | None => Ok e
  | Some v =>
      if negb (truthy v) then Ok e
      else
        match v with
        | VMap _ | VSeq _ => Ok (configure_user p e)
        | _ => Throw (cannot_create_exec v)
        end
  end.

(** The loop over the users is outside the [try]: what it raises
    reaches the caller. *)
Definition addAzKubeloginToKubeconfig (kubeconfigYaml : string)
  (isDev : bool) (resourcesPath : string) : result string :=
  match yaml_parse kubeconfigYaml with
  | Throw _ => Ok kubeconfigYaml
  | Ok DNull => Ok kubeconfigYaml
  | Ok (DMap kubeconfig) =>
      match users kubeconfig with
      | None => Ok kubeconfigYaml
      | Some us =>
          let p := getExecutablePaths isDev resourcesPath in
          us' ← mapM (configure_turn p) us;
          Ok (yaml_stringify (DMap (with_users kubeconfig us')))
      end
  end.
End Rewrite.

(** *** [mergeKubeconfig] *)

Section Upsert.
Context {A : Type} (key : A → string).

(** [arr.findIndex(c => c.name === x.name)] *)
Definition findIndex (x : A) (arr : list A) : option nat :=
  fst <$> list_find (λ c, key c = key x) arr.

(** One turn of a merge loop: [idx >= 0 ? arr[idx] = x : arr.push(x)]. *)
Definition upsert (arr : list A) (x : A) : list A :=
  match findIndex x arr with
  | Some idx => <[idx := x]> arr
  | None => arr ++ [x]
  end.

(** [for (const x of incoming) { ... }] over the target array. *)
Definition merge_array (existing incoming : list A) : list A :=
  foldl upsert existing incoming.
End Upsert.

(** [Object.keys(k).length === 0] *)
Definition no_keys (k : KubeConfig) : bool :=
  match clusters k, contexts k, users k, current_context k, extra k with
  | None, None, None, None, [] => true
  | _, _, _, _, _ => false
  end.

(** [!existing || Object.keys(existing).length === 0] *)
Definition is_blank (d : yamldoc) : bool :=
  match d with
  | DNull => true
  | DMap k => no_keys k
  end.

(** [if (newCfg['current-context']) existing['current-context'] = ...] *)
Definition merge_current_context (existing incoming : option string)
  : option string :=
  match incoming with
  | Some s => if String.eqb s "" then existing else Some s
  | None => existing
  end.

(** The three loops and the context assignment, on a target that has
    keys. *)
Definition merge_into (e n : KubeConfig) : KubeConfig :=
  {| clusters :=
       Some (merge_array name (default [] (clusters e))
                              (default [] (clusters n)));
     contexts :=
       Some (merge_array name (default [] (contexts e))
                              (default [] (contexts n)));
     users :=
       Some (merge_array uname (default [] (users e))
                               (default [] (users n)));
     current_context :=
       merge_current_context (current_context e) (current_context n);
     extra := extra e |}.

(** The body of [mergeKubeconfig] once both texts were read. Reading
    [newCfg.clusters] on [null] raises. *)
Definition merge_parsed (existing newCfg : yamldoc) : result yamldoc :=
  if is_blank existing then Ok newCfg
  else
    match existing, newCfg with
    | DNull, _ => Ok newCfg
    | DMap e, DNull =>
        Throw (TypeError "Cannot read properties of null (reading 'clusters')")
    | DMap e, DMap n => Ok (DMap (merge_into e n))
    end.

Section Merge.
Variable yaml_parse : string → result yamldoc.

(** [existingConfig ? yaml.parse(existingConfig) : {}], and [{}] when the
    parser raises. *)
Definition read_existing (existingConfig : string) : yamldoc :=
  if String.eqb existingConfig "" then DMap empty_config
  else catch (yaml_parse existingConfig) (λ _, DMap empty_config).

Definition mergeKubeconfig (existingConfig newConfig : string)
  : result yamldoc :=
  let existing := read_existing existingConfig in
  match yaml_parse newConfig with
  | Throw _ => Ok existing
  | Ok newCfg => merge_parsed existing newCfg
  end.
End Merge.

(** *** [registerAKSCluster] *)

(** The file system as the function sees it: regular files with their
    text, directories, the paths the system refuses to remove ([EPERM],
    [EBUSY]), and whether the disk has run out of space. *)
Record fs : Type := Fs {
  files : gmap string string;
  dirs : gset string;
  undeletable : gset string;
  disk_full : bool;
}.

(** A step that reads or changes the file system and may raise; the
    file system it leaves is kept when it raises. *)
Definition io (A : Type) : Type := fs → result A * fs.

Definition io_ret {A} (a : A) : io A := λ w, (Ok a, w).

Definition io_bind {A B} (m : io A) (f : A → io B) : io B := λ w,
  match m w with
  | (Ok a, w') => f a w'
  | (Throw e, w') => (Throw e, w')
  end.

Definition io_lift {A} (r : result A) : io A := λ w, (r, w).

Notation "x <~ m ;; k" := (io_bind m (λ x, k))
  (at level 100, m at next level, right associativity).

Definition existsSync (p : string) (w : fs) : bool :=
  bool_decide (is_Some (files w !! p)) || bool_decide (p ∈ dirs w).

Definition readFileSync (p : string) : io string := λ w,
  match files w !! p with
  | Some text => (Ok text, w)
  | None =>
      if bool_decide (p ∈ dirs w)
      then (Throw (Error "EISDIR: illegal operation on a directory"), w)
      else (Throw (Error "ENOENT: no such file or directory"), w)
  end.

(** The directories above [p], nearest first: [dirname p], its own
    [dirname], and so on; a path has no more of them than characters. *)
Fixpoint parents_from (dirname : string → string) (fuel : nat) (p : string)
  : list string :=
  match fuel with
  | 0 => []
  | S fuel' => dirname p :: parents_from dirname fuel' (dirname p)
  end.

Definition parents (dirname : string → string) (p : string) : list string :=
  parents_from dirname (String.length p) p.

(** [fs.mkdirSync(p, { recursive: true })]: the directory and the
    missing ones above it are made, unless a regular file is in the
    way. *)
Definition mkdirSync (dirname : string → string) (p : string) : io unit := λ w,
  match files w !! p with
  | Some _ => (Throw (Error "EEXIST: file already exists"), w)
  | None =>
      if existsb (λ d, bool_decide (is_Some (files w !! d))) (parents dirname p)
      then (Throw (Error "ENOTDIR: not a directory"), w)
      else (Ok (),
            Fs (files w) ({[p]} ∪ list_to_set (parents dirname p) ∪ dirs w)
              (undeletable w) (disk_full w))
  end.

(** Writing needs the directory [dir] of [p] to be there. The file is
    opened, which empties it, and then written: on a full disk the write
    raises and leaves the file empty. *)
Definition writeFileSync (dir p text : string) : io unit := λ w,
  if bool_decide (p ∈ dirs w)
  then (Throw (Error "EISDIR: illegal operation on a directory"), w)
  else if bool_decide (dir ∈ dirs w)
  then
    if disk_full w
    then (Throw (Error "ENOSPC: no space left on device"),
          Fs (<[p := ""]> (files w)) (dirs w) (undeletable w) (disk_full w))
    else (Ok (),
          Fs (<[p := text]> (files w)) (dirs w) (undeletable w) (disk_full w))
  else if bool_decide (is_Some (files w !! dir))
  then (Throw (Error "ENOTDIR: not a directory"), w)
  else (Throw (Error "ENOENT: no such file or directory"), w).

(** Removing a file can be refused although the file is there. *)
Definition unlinkSync (p : string) : io unit := λ w,
  match files w !! p with
  | Some _ =>
      if bool_decide (p ∈ undeletable w)
      then (Throw (Error "EPERM: operation not permitted"), w)
      else (Ok (),
            Fs (delete p (files w)) (dirs w) (undeletable w) (disk_full w))
  | None => (Throw (Error "ENOENT: no such file or directory"), w)
  end.

Record cmd_result : Type := CmdResult {
  code : Z;
  stdout : string;
  stderr : string;
}.

Record RegisterAKSClusterResult : Type := RegisterResult {
  success : bool;
  message : string;
}.

Section Register.
Variable yaml_parse : string → result yamldoc.
Variable yaml_stringify : yamldoc → string.
Variable path_join : list string → string.
Variable path_dirname : string → string.
Variable platform : string.
Variable env_PATH : option string.
(** [os.tmpdir()], [os.homedir()], [Date.now()] printed. *)
Variable tmpdir : string.
Variable homedir : string.
Variable now : string.
(** [executeCommandWithShellEnv] of runCmd.ts: the [az] process may do
    anything to the file system, returns or raises. *)
Variable executeCommandWithShellEnv : string → list string → io cmd_result.

Definition tempKubeconfigPath : string :=
  path_join [tmpdir; "kubeconfig-" +:+ now +:+ ".yaml"].

Definition kubeconfigPath : string := path_join [homedir; ".kube"; "config"].

(** [if (managedNamespace)] *)
Definition az_args (subscriptionId resourceGroup clusterName : string)
  (managedNamespace : option string) : list string :=
  match managedNamespace with
  | Some ns =>
      if String.eqb ns "" then
        ["aks"; "get-credentials"; "--subscription"; subscriptionId;
         "--resource-group"; resourceGroup; "--name"; clusterName;
         "--format"; "azure"; "--file"; tempKubeconfigPath]
      else
        ["aks"; "namespace"; "get-credentials"; "--cluster-name"; clusterName;
         "--resource-group"; resourceGroup; "--name"; ns;
         "--subscription"; subscriptionId; "--file"; tempKubeconfigPath]
  | None =>
      ["aks"; "get-credentials"; "--subscription"; subscriptionId;
       "--resource-group"; resourceGroup; "--name"; clusterName;
       "--format"; "azure"; "--file"; tempKubeconfigPath]
  end.

(** Steps 2 and 3 and the removal of the temporary file: what follows
    the [existsSync] test inside the outer [try]. *)
Definition write_merged (clusterName : string) (isDev : bool)
  (resourcesPath : string) : io RegisterAKSClusterResult :=
  tempKubeconfig <~ readFileSync tempKubeconfigPath ;;
  modifiedKubeconfig <~
    (if includes "command: kubelogin" tempKubeconfig
     then io_lift (addAzKubeloginToKubeconfig yaml_parse yaml_stringify
                     path_join platform env_PATH
                     tempKubeconfig isDev resourcesPath)
     else io_ret tempKubeconfig) ;;
  let kubeconfigDir := path_dirname kubeconfigPath in
  _ <~ (λ w, if existsSync kubeconfigDir w then io_ret () w
             else mkdirSync path_dirname kubeconfigDir w) ;;
  existingKubeconfig <~
    (λ w, if existsSync kubeconfigPath w then readFileSync kubeconfigPath w
          else io_ret "" w) ;;
  mergedConfig <~
    io_lift (mergeKubeconfig yaml_parse existingKubeconfig modifiedKubeconfig) ;;
  let finalKubeconfig := yaml_stringify mergedConfig in
  _ <~ writeFileSync kubeconfigDir kubeconfigPath finalKubeconfig ;;
  _ <~ unlinkSync tempKubeconfigPath ;;
  io_ret (RegisterResult true
            ("Cluster '" +:+ clusterName +:+
             "' registered successfully. Kubeconfig written to " +:+
             kubeconfigPath)).

(** The outer [try] block; [Ok] is a [return] from inside it. *)
Definition try_register (subscriptionId resourceGroup clusterName : string)
  (isDev : bool) (resourcesPath : string) (managedNamespace : option string)
  : io RegisterAKSClusterResult := λ w,
  let args :=
    az_args subscriptionId resourceGroup clusterName managedNamespace in
  match executeCommandWithShellEnv "az" args w with
  | (Throw error, w1) =>
      (Ok (RegisterResult false
             ("Failed to get credentials: " +:+
              or_else (exn_message error) "Unknown error")), w1)
  | (Ok r, w1) =>
      if negb (Z.eqb (code r) 0) then
        (Ok (RegisterResult false
               ("Failed to get credentials: " +:+
                or_else (stderr r) "Unknown error")), w1)
      else if negb (existsSync tempKubeconfigPath w1) then
        (Ok (RegisterResult false
               "Failed to create temporary kubeconfig file"), w1)
      else write_merged clusterName isDev resourcesPath w1
  end.

(** The [catch] of the outer [try]: remove the temporary file if it is
    there, ignoring a failure to do so. *)
Definition cleanup (w : fs) : fs :=
  if existsSync tempKubeconfigPath w
  then snd (unlinkSync tempKubeconfigPath w)
  else w.

Definition registerAKSCluster
  (subscriptionId resourceGroup clusterName : string)
  (isAzureRBACEnabled isDev : bool) (resourcesPath : string)
  (managedNamespace : option string) (w : fs)
  : RegisterAKSClusterResult * fs :=
  match try_register subscriptionId resourceGroup clusterName
          isDev resourcesPath managedNamespace w with
  | (Ok r, w') => (r, w')
  | (Throw error, w') =>
      (RegisterResult false
         (or_else (exn_message error) "Unknown error occurred"),
       cleanup w')
  end.
End Register.

End Backend.

(** ** Plugin-side copy of the rewrite (src/unnamed/part_000) *)

Module Plugin.

Section Rewrite.
(** [yaml.load] and [yaml.dump] of js-yaml; [process.env.NODE_ENV ===
    'development']; [process.platform]; [__dirname];
    [process.resourcesPath] ([None] when [process] or the field is
    missing); [process.env.PATH]. *)
Variable yaml_load : string → result yamldoc.
Variable yaml_dump : yamldoc → string.
Variable isDev : bool.
Variable platform : string.
Variable dirname : string.
Variable process_resourcesPath : option string.
Variable env_PATH : option string.

Definition getResourcesPath : option string :=
  match process_resourcesPath with
  | Some p => if String.eqb p "" then None else Some p
  | None => None
  end.

(** [const resourcesPath = getResourcesPath();
     if (!resourcesPath) throw new Error(...)] *)
Definition require_resourcesPath : result string :=
  match getResourcesPath with
  | Some p => Ok p
  | None => Throw (Error "Resources path not available")
  end.

Definition getAzKubeloginPath : result string :=
  if isDev then Ok (dirname +:+ "/../../../../build/az-kubelogin.py")
  else
    resourcesPath ← require_resourcesPath;
    Ok (resourcesPath +:+ "/external-tools/bin/az-kubelogin.py").

Definition getBundledPythonPath : result string :=
  let pythonName :=
    if String.eqb platform "win32" then "python.exe" else "python3" in
  if isDev then
    Ok (dirname +:+
        "/../../../../headlamp/app/resources/external-tools/az-cli/" +:+
        platform +:+ "/bin/" +:+ pythonName)
  else
    resourcesPath ← require_resourcesPath;
    Ok (resourcesPath +:+ "/external-tools/az-cli/" +:+ platform +:+
        "/bin/" +:+ pythonName).

Definition serverId : string := "6dae42f8-4368-4678-94ff-3960e28e3960".

(** [azCliBinPath] and [externalToolsBinPath]. *)
Definition bin_paths : result (string * string) :=
  if isDev then
    Ok (dirname +:+
        "/../../../../headlamp/app/resources/external-tools/az-cli/" +:+
        platform +:+ "/bin",
        dirname +:+ "/../../../../headlamp/app/resources/external-tools/bin")
  else
    resourcesPath ← require_resourcesPath;
    Ok (resourcesPath +:+ "/external-tools/az-cli/" +:+ platform +:+ "/bin",
        resourcesPath +:+ "/external-tools/bin").

Definition exec_block (kubeloginPath pythonPath azCliBinPath
  externalToolsBinPath : string) : value :=
  let pathSeparator := if String.eqb platform "win32" then ";" else ":" in
  let combinedPath :=
    externalToolsBinPath +:+ pathSeparator +:+ azCliBinPath +:+
    pathSeparator +:+ or_else (default "" env_PATH) "" in
  exec_descriptor pythonPath kubeloginPath serverId [("PATH", combinedPath)].

(** What a turn of the loop that does not raise leaves of the element:
    only [user.user.exec] is assigned. *)
Definition configure_user (exec : value) (e : user_entry) : user_entry :=
  match user e with
  | Some (VMap u) => UserEntry (uname e) (Some (VMap (js_set "exec" exec u)))
  | _ => e
  end.

(** One turn of [for (const user of kubeconfig.users)], as in the
    backend: a falsy [user] is skipped, the assignment raises on a
    truthy primitive and does not show on an array. *)
Definition configure_turn (exec : value) (e : user_entry)
  : result user_entry :=
  match user e with
  | None => Ok e
  | Some v =>
      if negb (truthy v) then Ok e
      else
        match v with
        | VMap _ | VSeq _ => Ok (configure_user exec e)
        | _ => Throw (cannot_create_exec v)
        end
  end.

(** The [try] block. *)
Definition try_rewrite (kubeconfigYaml : string) : result string :=
  kubeconfig ← yaml_load kubeconfigYaml;
  match kubeconfig with
  | DNull => Ok kubeconfigYaml
  | DMap k =>
      match users k with
      | None => Ok kubeconfigYaml
      | Some us =>
          kubeloginPath ← getAzKubeloginPath;
          pythonPath ← getBundledPythonPath;
          bins ← bin_paths;
          let exec := exec_block kubeloginPath pythonPath bins.1 bins.2 in
          us' ← mapM (configure_turn exec) us;
          Ok (yaml_dump (DMap (with_users k us')))
      end
  end.

Definition addAzKubeloginToKubeconfig (kubeconfigYaml : string) : string :=
  catch (try_rewrite kubeconfigYaml) (λ _, kubeconfigYaml).
End Rewrite.

End Plugin.

(** ** The import page *)

Module ImportPage.

Definition PROJECT_ID_LABEL : string := "headlamp.dev/project-id".
Definition PROJECT_MANAGED_BY_LABEL : string := "headlamp.dev/project-managed-by".
Definition PROJECT_MANAGED_BY_AKS_DESKTOP : string := "aks-desktop".

Record ManagedNamespace : Type := MkNamespace {
  ns_name : string;
  clusterName : string;
  resourceGroup : string;
  subscriptionId : string;
}.

(** [projectName] is read from a label and is [undefined] ([None]) when
    the label is missing. *)
Record ImportSelection : Type := MkSelection {
  namespace : ManagedNamespace;
  projectName : option string;
  selected : bool;
  clusterMerged : bool;
}.

(** Labels of a namespace: a mapping from strings to strings. *)
Abbreviation labels := (list (string * string)).

(** *** Discovery through the resource graph: [loadNamespaces]
    (src/unnamed/part_001) *)

(** One row of [JSON.parse(stdout).data]. *)
Record GraphResource : Type := MkResource {
  g_type : string;
  g_id : string;
  g_name : string;
  g_resourceGroup : string;
  g_subscriptionId : string;
  g_labels : labels;
}.

Record cmd_output : Type := CmdOutput {
  stdout : string;
  stderr : string;
}.

Definition managed_namespace_type : string :=
  "microsoft.containerservice/managedclusters/managednamespaces".

Definition query : string :=
  "resources | where type =~ '" +:+ managed_namespace_type +:+
  "' | where properties['labels']['" +:+ PROJECT_MANAGED_BY_LABEL +:+
  "'] == '" +:+ PROJECT_MANAGED_BY_AKS_DESKTOP +:+ "'".

(** The one-character string holding a double quote. *)
Definition dquote : string := String (ascii_of_nat 34) EmptyString.

Definition strip_prefix (p s : string) : option string :=
  if String.prefix p s
  then Some (String.substring (String.length p)
               (String.length s - String.length p) s)
  else None.

(** The longest run of characters other than ['/'] at the head of [s]. *)
Fixpoint segment (s : string) : string :=
  match s with
  | EmptyString => EmptyString
  | String c s' => if Ascii.eqb c "/" then EmptyString else String c (segment s')
  end.

(** [str.match(/managedClusters\/([^/]+)/)], then [m ? m[1] : '']. *)
Fixpoint getClusterName (str : string) : string :=
  let here :=
    match strip_prefix "managedClusters/" str with
    | Some rest => segment rest
    | None => EmptyString
    end in
  if negb (String.eqb here "") then here
  else
    match str with
    | EmptyString => EmptyString
    | String _ str' => getClusterName str'
    end.

(** The callback of [namespaces.map]. *)
Definition selection_of (n : GraphResource) : ImportSelection :=
  {| projectName := js_get PROJECT_ID_LABEL (g_labels n);
     clusterMerged := false;
     namespace :=
       {| ns_name := g_name n;
          clusterName := getClusterName (g_id n);
          resourceGroup := g_resourceGroup n;
          subscriptionId := g_subscriptionId n |};
     selected := true |}.

Section LoadNamespaces.
(** [runCommandAsync], [JSON.parse(stdout).data] and
    [window.desktopApi.platform]. *)
Variable runCommandAsync : string → list string → cmd_output.
Variable parse_data : string → result (list GraphResource).
Variable platform : string.

(** The value [setNamespaces] receives, or the error the caller shows. *)
Definition loadNamespaces : result (list ImportSelection) :=
  let out :=
    runCommandAsync "az"
      ["graph"; "query"; "-q";
       if String.eqb platform "win32" then dquote +:+ query +:+ dquote
       else query;
       "--output"; "json"] in
  if negb (String.eqb (stderr out) "") then Throw (Error (stderr out))
  else
    namespaces ← parse_data (stdout out);
    Ok (map selection_of namespaces).
End LoadNamespaces.

(** *** Discovery per subscription: [discoverNamespaces]
    (src/plugins/aks-desktop/src/components/ImportAKSProjects/ImportAKSProjects.tsx) *)

Record Subscription : Type := MkSubscription {
  sub_id : string;
  sub_name : string;
  sub_state : string;
}.

(** One element of [namespacesData]. *)
Record NamespaceRow : Type := MkRow {
  row_name : string;
  row_clusterName : string;
  row_resourceGroup : string;
}.

Record DetailsQuery : Type := MkDetailsQuery {
  q_clusterName : string;
  q_resourceGroup : string;
  q_namespaceName : string;
  q_subscriptionId : string;
}.

Record Discovery : Type := MkDiscovery {
  found : list ImportSelection;
  discovery_error : string;
}.

Section DiscoverNamespaces.
(** [getManagedNamespacesForSubscription]; [getManagedNamespaceDetails],
    read through [details?.properties?.labels] ([None] when a link of
    that chain is missing). *)
Variable getManagedNamespacesForSubscription : string → result (list NamespaceRow).
Variable getManagedNamespaceDetails : DetailsQuery → result (option labels).

(** [labels[PROJECT_ID_LABEL]] as a condition. *)
Definition hasProjectId (l : labels) : bool :=
  match js_get PROJECT_ID_LABEL l with
  | Some v => negb (String.eqb v "")
  | None => false
  end.

Definition isManagedByAKSDesktop (l : labels) : bool :=
  bool_decide (js_get PROJECT_MANAGED_BY_LABEL l
               = Some PROJECT_MANAGED_BY_AKS_DESKTOP).

(** The body of the [for] loop over [namespacesData]. *)
Definition check_namespace (mergedClusterNames : list string)
  (subscription : Subscription) (allNamespaces : list ImportSelection)
  (ns : NamespaceRow) : list ImportSelection :=
  match getManagedNamespaceDetails
          (MkDetailsQuery (row_clusterName ns) (row_resourceGroup ns)
             (row_name ns) (sub_id subscription)) with
  | Throw _ => allNamespaces
  | Ok details =>
      let labels := default [] details in
      if hasProjectId labels && isManagedByAKSDesktop labels then
        let isClusterMerged :=
          bool_decide (row_clusterName ns ∈ mergedClusterNames) in
        if negb isClusterMerged then
          allNamespaces ++
          [ {| namespace :=
                 {| ns_name := row_name ns;
                    clusterName := row_clusterName ns;
                    resourceGroup := row_resourceGroup ns;
                    subscriptionId := sub_id subscription |};
               projectName := js_get PROJECT_ID_LABEL labels;
               selected := true;
               clusterMerged := false |} ]
        else allNamespaces
      else allNamespaces
  end.

(** [clustersConf] maps a key to a cluster object, of which [name] is
    read; [None] is a missing configuration. *)
Definition discoverNamespaces (clustersConf : option (list (string * string)))
  (selectedSubscription : option Subscription) : option Discovery :=
  match selectedSubscription with
  | None => None
  | Some subscription =>
      let mergedClusterNames := map snd (default [] clustersConf) in
      match getManagedNamespacesForSubscription (sub_id subscription) with
      | Throw _ => Some (MkDiscovery [] "Failed to discover managed namespaces")
      | Ok namespacesData =>
          if (length namespacesData =? 0)%nat then
            Some (MkDiscovery []
                    "No managed namespaces found in this subscription.")
          else
            let allNamespaces :=
              foldl (check_namespace mergedClusterNames subscription)
                [] namespacesData in
            Some (MkDiscovery allNamespaces
                    (if (length allNamespaces =? 0)%nat then
                       "No AKS desktop projects found in unmerged clusters. Managed namespaces must have the required project labels."
                     else ""))
      end
  end.
End DiscoverNamespaces.

(** *** [handleImport] (src/unnamed/part_001, and the older one of
    ImportAKSProjects.tsx)

    The two copies differ in two places: the later one ([scoped = true])
    passes the first namespace of the group to [registerAKSCluster] and
    removes duplicates from [allowedNamespaces]; the older one does
    neither. Progress texts and the final banner are not modelled. *)

Record ImportResult : Type := MkResult {
  r_namespace : string;
  r_success : bool;
  r_message : string;
}.

Record RegisterResult : Type := MkRegisterResult {
  success : bool;
  message : string;
}.

(** The arguments of one [registerAKSCluster] call. *)
Record Call : Type := MkCall {
  call_subscriptionId : string;
  call_resourceGroup : string;
  call_clusterName : string;
  call_managedNamespace : option string;
}.

Record ClusterSettings : Type := MkSettings {
  allowedNamespaces : option (list string);
  other_settings : obj;
}.

(** An item of [localStorage], seen through [JSON.parse]: a settings
    object, or a text [JSON.parse] rejects with the given message. *)
Inductive stored : Type :=
  | Unreadable (msg : string)
  | Stored (s : ClusterSettings).

(** An element of a destructured array; a missing one is [undefined]. *)
Definition part (i : nat) (parts : list string) : string :=
  default "undefined" (parts !! i).

Definition clusterKey (n : ManagedNamespace) : string :=
  clusterName n +:+ "|" +:+ resourceGroup n +:+ "|" +:+ subscriptionId n.

(** [if (!m.has(k)) m.set(k, []); m.get(k).push(item)] on a [Map], whose
    entries keep the order in which their keys were first set. *)
Fixpoint map_push {V : Type} (k : string) (item : V)
  (m : list (string * list V)) : list (string * list V) :=
  match m with
  | [] => [(k, [item])]
  | (k', g) :: m' =>
      if String.eqb k k' then (k', g ++ [item]) :: m'
      else (k', g) :: map_push k item m'
  end.

Definition group_by_cluster (selectedNamespaces : list ImportSelection)
  : list (string * list ImportSelection) :=
  foldl (λ m item, map_push (clusterKey (namespace item)) item m)
    [] selectedNamespaces.

(** [[...new Set(l)]] *)
Definition dedupe (l : list string) : list string :=
  foldl (λ acc x, if bool_decide (x ∈ acc) then acc else acc ++ [x]) [] l.

(** [err instanceof Error ? err.message : 'Unknown error'] *)
Definition handler_message (e : exn) : string :=
  match e with
  | NonError => "Unknown error"
  | _ => exn_message e
  end.

(** A template prints [undefined] for a missing value. *)
Definition show (o : option string) : string := default "undefined" o.

Definition label_of (clusterName : string) (item : ImportSelection) : string :=
  ns_name (namespace item) +:+ " (" +:+ clusterName +:+ ")".

Definition failed_with (clusterName msg : string)
  (namespacesInCluster : list ImportSelection) : list ImportResult :=
  map (λ item, MkResult (label_of clusterName item) false msg)
    namespacesInCluster.

Definition imported (clusterName : string)
  (namespacesInCluster : list ImportSelection) : list ImportResult :=
  map (λ item,
         MkResult (label_of clusterName item) true
           ("Project '" +:+ show (projectName item) +:+
            "' successfully imported from namespace '" +:+
            ns_name (namespace item) +:+ "'"))
    namespacesInCluster.

(** [JSON.parse(localStorage.getItem(key) || '{}')] *)
Definition load_settings (key : string) (localStorage : gmap string stored)
  : result ClusterSettings :=
  match localStorage !! key with
  | None => Ok (MkSettings None [])
  | Some (Stored s) => Ok s
  | Some (Unreadable msg) => Throw (SyntaxError msg)
  end.

Section HandleImport.
(** The outside world of the registration call, and the call itself
    ([registerAKSCluster] of utils/azure/aks). *)
Variable World : Type.
Variable registerAKSCluster :
  string → string → string → option string → World → result RegisterResult * World.
Variable scoped : bool.

Record ImportRun : Type := MkRun {
  results : list ImportResult;
  calls : list (Call * result RegisterResult);
  localStorage : gmap string stored;
  world : World;
  processedCount : nat;
}.

(** [namespacesInCluster[0].namespace.name] in the later copy. *)
Definition scope_of (namespacesInCluster : list ImportSelection)
  : result (option string) :=
  if scoped then
    match namespacesInCluster with
    | [] => Throw (TypeError "Cannot read properties of undefined (reading 'namespace')")
    | first :: _ => Ok (Some (ns_name (namespace first)))
    end
  else Ok None.

(** The settings written back after a successful registration. *)
Definition allow (settings : ClusterSettings)
  (namespacesInCluster : list ImportSelection) : ClusterSettings :=
  let pushed :=
    default [] (allowedNamespaces settings) ++
    map (λ it, ns_name (namespace it)) namespacesInCluster in
  MkSettings (Some (if scoped then dedupe pushed else pushed))
    (other_settings settings).

(** The body of [for (const [clusterKey, namespacesInCluster] of clusterMap)]. *)
Definition process_group (st : ImportRun)
  (entry : string * list ImportSelection) : ImportRun :=
  let clusterKey := entry.1 in
  let namespacesInCluster := entry.2 in
  let parts := split_on "|" clusterKey in
  let clusterName := part 0 parts in
  let resourceGroup := part 1 parts in
  let subscriptionId := part 2 parts in
  let fail st msg :=
    MkRun (results st ++ failed_with clusterName msg namespacesInCluster)
      (calls st) (localStorage st) (world st) (processedCount st) in
  match scope_of namespacesInCluster with
  | Throw err => fail st (handler_message err)
  | Ok managedNamespace =>
      let answer :=
        registerAKSCluster subscriptionId resourceGroup clusterName
          managedNamespace (world st) in
      let st1 :=
        MkRun (results st)
          (calls st ++
           [(MkCall subscriptionId resourceGroup clusterName managedNamespace,
             answer.1)])
          (localStorage st) answer.2 (processedCount st) in
      match answer.1 with
      | Throw err => fail st1 (handler_message err)
      | Ok registerResult =>
          if negb (success registerResult) then
            fail st1 ("Failed to merge cluster: " +:+ message registerResult)
          else
            let key := "cluster_settings." +:+ clusterName in
            match load_settings key (localStorage st1) with
            | Throw err => fail st1 (handler_message err)
            | Ok settings =>
                MkRun (results st1 ++ imported clusterName namespacesInCluster)
                  (calls st1)
                  (<[key := Stored (allow settings namespacesInCluster)]>
                     (localStorage st1))
                  (world st1)
                  (processedCount st1 + length namespacesInCluster)
            end
      end
  end.

(** [None]: nothing was selected, the function shows an error and
    returns before [results] exists. *)
Definition handleImport (namespaces : list ImportSelection)
  (storage : gmap string stored) (w : World) : option ImportRun :=
  let selectedNamespaces := List.filter selected namespaces in
  if (length selectedNamespaces =? 0)%nat then None
  else
    Some (foldl process_group (MkRun [] [] storage w 0)
            (group_by_cluster selectedNamespaces)).
End HandleImport.

Arguments results {World} _.
Arguments calls {World} _.
Arguments localStorage {World} _.
Arguments world {World} _.
Arguments processedCount {World} _.

Definition successCount (results : list ImportResult) : nat :=
  length (List.filter r_success results).

Definition failureCount (results : list ImportResult) : nat :=
  length (List.filter (λ r, negb (r_success r)) results).

End ImportPage.

(** * Further parts of the code *)

(** ** The bridge to the privileged process (src/app/electron/preload.ts)

    A method of [desktopApi] is modelled by the calls it makes on
    [ipcRenderer], in order. *)

Module Preload.

(** [validChannels] of [send] and of [receive]. *)
Definition send_validChannels : list string :=
  ["setMenu"; "locale"; "appConfig"; "pluginsLoaded"; "run-command";
   "plugin-manager"; "request-backend-token";
   "request-plugin-permission-secrets"; "open-plugin-folder";
   "request-backend-port"].

Definition receive_validChannels : list string :=
  ["currentMenu"; "setMenu"; "locale"; "appConfig"; "command-stdout";
   "command-stderr"; "command-exit"; "plugin-manager"; "backend-token";
   "plugin-permission-secrets"; "open-about-dialog"; "backend-port"].

(** What [ipcRenderer.invoke] is given. *)
Inductive payload : Type :=
  | RegisterPayload (subscriptionId resourceGroup clusterName : string)
      (isAzureRBACEnabled : bool) (managedNamespace : option string)
  | LicensePayload (filename : string).

Section Api.
(** The data of a message, the arguments and the event a listener is
    called with, and what a listener returns. *)
Variables (Data Arg Event R : Type).

Inductive ipc_call : Type :=
  | IpcSend (channel : string) (data : Data)
  | IpcOn (channel : string) (listener : Event → list Arg → R)
  | IpcRemoveListener (channel : string) (func : list Arg → R)
  | IpcInvoke (channel : string) (p : payload).

Definition send (channel : string) (data : Data) : list ipc_call :=
  if bool_decide (channel ∈ send_validChannels)
  then [IpcSend channel data] else [].

(** The listener registered is [(event, ...args) => func(...args)]. *)
Definition receive (channel : string) (func : list Arg → R) : list ipc_call :=
  if bool_decide (channel ∈ receive_validChannels)
  then [IpcOn channel (λ event args, func args)] else [].

Definition removeListener (channel : string) (func : list Arg → R)
  : list ipc_call :=
  [IpcRemoveListener channel func].

Definition registerAKSCluster (subscriptionId resourceGroup clusterName : string)
  (isAzureRBACEnabled : bool) (managedNamespace : option string)
  : list ipc_call :=
  [IpcInvoke "register-aks-cluster"
     (RegisterPayload subscriptionId resourceGroup clusterName
        isAzureRBACEnabled managedNamespace)].

Definition getLicenseFile (filename : string) : list ipc_call :=
  [IpcInvoke "get-license-file" (LicensePayload filename)].

(** A use of [desktopApi] by the renderer. *)
Inductive api_call : Type :=
  | Send (channel : string) (data : Data)
  | Receive (channel : string) (func : list Arg → R)
  | RemoveListener (channel : string) (func : list Arg → R)
  | RegisterAKSCluster (subscriptionId resourceGroup clusterName : string)
      (isAzureRBACEnabled : bool) (managedNamespace : option string)
  | GetLicenseFile (filename : string).

Definition perform (c : api_call) : list ipc_call :=
  match c with
  | Send channel data => send channel data
  | Receive channel func => receive channel func
  | RemoveListener channel func => removeListener channel func
  | RegisterAKSCluster s r c b m => registerAKSCluster s r c b m
  | GetLicenseFile f => getLicenseFile f
  end.

(** Everything a sequence of uses makes [ipcRenderer] do. *)
Definition trace (uses : list api_call) : list ipc_call :=
  uses ≫= perform.
End Api.

Arguments IpcSend {Data Arg Event R} _ _.
Arguments IpcOn {Data Arg Event R} _ _.
Arguments IpcRemoveListener {Data Arg Event R} _ _.
Arguments IpcInvoke {Data Arg Event R} _ _.
Arguments Send {Data Arg R} _ _.
Arguments Receive {Data Arg R} _ _.
Arguments RemoveListener {Data Arg R} _ _.
Arguments RegisterAKSCluster {Data Arg R} _ _ _ _ _.
Arguments GetLicenseFile {Data Arg R} _.

End Preload.

(** ** Cluster settings (src/frontend/src/helpers/clusterSettings.ts)

    [localStorage] is seen through [JSON.parse] as in [handleImport]: an
    item is a settings object or a text that [JSON.parse] rejects; texts
    that parse to something other than an object are left out. *)

Module ClusterSettingsStore.
Import ImportPage.

Definition settings_key (clusterName : string) : string :=
  "cluster_settings." +:+ clusterName.

Definition storeClusterSettings (clusterName : string)
  (settings : ClusterSettings) (storage : gmap string stored)
  : gmap string stored :=
  if String.eqb clusterName "" then storage
  else <[settings_key clusterName := Stored settings]> storage.

Definition loadClusterSettings (clusterName : string)
  (storage : gmap string stored) : result ClusterSettings :=
  if String.eqb clusterName "" then Ok (MkSettings None [])
  else load_settings (settings_key clusterName) storage.

(** [cluster] is the argument, or [getCluster()] when none is given;
    [None] is [null]. *)
Definition getAllowedNamespaces (cluster : option string)
  (storage : gmap string stored) : result (list string) :=
  match cluster with
  | None => Ok []
  | Some c =>
      if String.eqb c "" then Ok []
      else
        clusterSettings ← loadClusterSettings c storage;
        Ok (default [] (allowedNamespaces clusterSettings))
  end.

End ClusterSettingsStore.

(** ** The Azure helpers of the plugin (src/unnamed/part_000, second half) *)

Module PluginApi.
Import ImportPage.

(** The fields are copied from parsed JSON and may be [undefined]
    ([None]). *)
Record AKSCluster : Type := MkCluster {
  c_name : option value;
  c_resourceGroup : option value;
  c_location : option value;
  c_kubernetesVersion : option value;
  c_provisioningState : option value;
  c_fqdn : option value;
  isAzureRBACEnabled : bool;
}.

Record ClusterDetails : Type := MkDetails {
  d_success : bool;
  d_message : string;
  d_cluster : option AKSCluster;
}.

Record KubeconfigResult : Type := MkKubeconfigResult {
  k_success : bool;
  k_message : string;
  k_kubeconfig : option string;
}.

(** [v.k] on a value that is not [null]: only a mapping has the fields
    read here. *)
Definition prop (k : string) (v : value) : option value :=
  match v with
  | VMap o => js_get k o
  | _ => None
  end.

(** [x !== null] *)
Definition not_null (x : option value) : bool :=
  match x with
  | Some VNull => false
  | _ => true
  end.

(** The object literal built from [cluster]; reading a field of [null]
    raises. *)
Definition read_cluster (cluster : value) : result AKSCluster :=
  match cluster with
  | VNull => Throw (TypeError "Cannot read properties of null (reading 'name')")
  | _ =>
      Ok {| c_name := prop "name" cluster;
            c_resourceGroup := prop "resourceGroup" cluster;
            c_location := prop "location" cluster;
            c_kubernetesVersion := prop "kubernetesVersion" cluster;
            c_provisioningState := prop "provisioningState" cluster;
            c_fqdn := prop "fqdn" cluster;
            isAzureRBACEnabled := not_null (prop "aadProfile" cluster) |}
  end.

(** [stderr && (stderr.includes('ERROR') || stderr.includes('error'))] *)
Definition has_error (stderr : string) : bool :=
  negb (String.eqb stderr "") &&
  (includes "ERROR" stderr || includes "error" stderr).

Section Api.
(** The outside world of the [az] process and of the IPC call;
    [runCommandAsync] of az-cli; [JSON.parse]; [window.desktopApi
    .registerAKSCluster] ([None] when [desktopApi] or the method is
    missing); [Buffer.from(s).toString('base64')]; and what the
    plugin-side rewrite needs. *)
Variable World : Type.
Variable runCommandAsync :
  string → list string → World → result cmd_output * World.
Variable json_parse : string → result value.
Variable desktop_register :
  option (string → string → string → option bool → option string →
          World → result RegisterResult * World).
Variable base64 : string → string.
Variable yaml_load : string → result yamldoc.
Variable yaml_dump : yamldoc → string.
Variable isDev : bool.
Variable platform : string.
Variable dirname : string.
Variable process_resourcesPath : option string.
Variable env_PATH : option string.

Definition getAKSClusterDetails
  (subscriptionId resourceGroup clusterName : string) (w : World)
  : ClusterDetails * World :=
  let args :=
    ["aks"; "show"; "--subscription"; subscriptionId; "--resource-group";
     resourceGroup; "--name"; clusterName; "--output"; "json"] in
  match runCommandAsync "az" args w with
  | (Throw error, w') => (MkDetails false (handler_message error) None, w')
  | (Ok out, w') =>
      if has_error (stderr out) then
        (MkDetails false
           (or_else (stderr out) "Failed to get AKS cluster details") None, w')
      else if String.eqb (stdout out) "" then
        (MkDetails false "No cluster details returned from Azure CLI" None, w')
      else
        match (cluster ← json_parse (stdout out); read_cluster cluster) with
        | Ok c =>
            (MkDetails true "Cluster details retrieved successfully" (Some c),
             w')
        | Throw _ => (MkDetails false "Failed to parse cluster details" None, w')
        end
  end.

(** The registration the import page calls. Every exception is turned
    into a failed result. *)
Definition registerAKSCluster
  (subscriptionId resourceGroup clusterName : string)
  (managedNamespace : option string) (w : World)
  : result RegisterResult * World :=
  match desktop_register with
  | None =>
      (Ok (MkRegisterResult false
             "Desktop API not available. This feature is only available in desktop mode."),
       w)
  | Some register =>
      let info := getAKSClusterDetails subscriptionId resourceGroup clusterName w in
      if negb (d_success info.1) then
        (Ok (MkRegisterResult false (d_message info.1)), info.2)
      else
        let answer :=
          register subscriptionId resourceGroup clusterName
            (isAzureRBACEnabled <$> d_cluster info.1) managedNamespace info.2 in
        match answer.1 with
        | Ok r => (Ok r, answer.2)
        | Throw error =>
            (Ok (MkRegisterResult false (handler_message error)), answer.2)
        end
  end.

Definition getAKSKubeconfig
  (subscriptionId resourceGroup clusterName : string) (w : World)
  : KubeconfigResult * World :=
  let args :=
    ["aks"; "get-credentials"; "--subscription"; subscriptionId;
     "--resource-group"; resourceGroup; "--name"; clusterName; "--format";
     "--overwrite-existing"; "azure"; "--file"; "-"] in
  match runCommandAsync "az" args w with
  | (Throw error, w') =>
      (MkKubeconfigResult false (handler_message error) None, w')
  | (Ok out, w') =>
      if has_error (stderr out) then
        (MkKubeconfigResult false
           (or_else (stderr out) "Failed to get AKS kubeconfig") None, w')
      else if String.eqb (stdout out) "" then
        (MkKubeconfigResult false "No kubeconfig returned from Azure CLI" None,
         w')
      else if negb (includes "apiVersion" (stdout out)) ||
              negb (includes "kind: Config" (stdout out)) then
        (MkKubeconfigResult false
           "Invalid kubeconfig format received from Azure CLI" None, w')
      else
        let modifiedKubeconfig :=
          Plugin.addAzKubeloginToKubeconfig yaml_load yaml_dump isDev platform
            dirname process_resourcesPath env_PATH (stdout out) in
        (MkKubeconfigResult true "Kubeconfig retrieved successfully"
           (Some (base64 modifiedKubeconfig)), w')
  end.
End Api.

End PluginApi.

(** ** The rest of the import page (src/unnamed/part_001 and
    ImportAKSProjects.tsx): selection and the banner after an import *)

Module ImportUi.
Import ImportPage.

Definition with_selected (item : ImportSelection) (b : bool) : ImportSelection :=
  MkSelection (namespace item) (projectName item) b (clusterMerged item).

(** The updater given to [setNamespaces]; reading [selected] of a
    missing element raises. *)
Definition toggleNamespaceSelection (index : nat)
  (prev : list ImportSelection) : result (list ImportSelection) :=
  match prev !! index with
  | Some item => Ok (<[index := with_selected item (negb (selected item))]> prev)
  | None =>
      Throw (TypeError "Cannot read properties of undefined (reading 'selected')")
  end.

Definition selectAll (prev : list ImportSelection) : list ImportSelection :=
  map (λ ns, with_selected ns true) prev.

Definition deselectAll (prev : list ImportSelection) : list ImportSelection :=
  map (λ ns, with_selected ns false) prev.

(** [s.replace(c, '')] for a one-character pattern: the first
    occurrence goes. *)
Fixpoint replace_first (c : ascii) (s : string) : string :=
  match s with
  | EmptyString => EmptyString
  | String a s' => if Ascii.eqb a c then s' else String a (replace_first c s')
  end.

Inductive banner : Type :=
  | SetSuccess (text : string)
  | SetError (text : string).

(** [n > 1 ? 's' : ''] *)
Definition plural (n : nat) : string := if 1 <? n then "s" else "".

Section Banner.
(** [String.prototype.trim] *)
Variable trim : string → string.

(** [r.namespace.split('(')[1]?.replace(')', '').trim()]; [None] is
    [undefined]. *)
Definition cluster_of_label (r : ImportResult) : option string :=
  (λ s, trim (replace_first ")" s)) <$> split_on "(" (r_namespace r) !! 1.

(** The size of the [Set] of the labels of the successful entries. *)
Definition successfulClusters (results : list ImportResult) : nat :=
  length (remove_dups (map cluster_of_label (List.filter r_success results))).

(** What [handleImport] shows once [results] is complete. *)
Definition import_banner (results : list ImportResult) : banner :=
  let successCount := successCount results in
  let failureCount := failureCount results in
  let successfulClusters := successfulClusters results in
  if 0 <? successCount then
    SetSuccess
      ("Successfully merged " +:+ pretty successfulClusters +:+ " cluster" +:+
       plural successfulClusters +:+ " with " +:+ pretty successCount +:+
       " project" +:+ plural successCount +:+
       (if 0 <? failureCount then
          ". " +:+ pretty failureCount +:+ " project" +:+
          plural failureCount +:+ " failed."
        else "."))
  else SetError "Failed to import any projects. See details below.".
End Banner.

End ImportUi.

(** * Specifications *)

(** ** Merging by name, in the words of the specification *)

(** "Find an existing record with the same name; replace in place if
    found, else append": the record replaced is the first one of that
    name. *)
Inductive upsert_spec {A : Type} (key : A → string) (x : A)
  : list A → list A → Prop :=
  | upsert_replace arr i old :
      arr !! i = Some old →
      key old = key x →
      (∀ j y, arr !! j = Some y → j < i → key y ≠ key x) →
      upsert_spec key x arr (<[i := x]> arr)
  | upsert_append arr :
      (∀ y, y ∈ arr → key y ≠ key x) →
      upsert_spec key x arr (arr ++ [x]).

(** "For each incoming record", in the order of the incoming array. *)
Inductive merged_by_name {A : Type} (key : A → string)
  : list A → list A → list A → Prop :=
  | merged_done existing : merged_by_name key existing [] existing
  | merged_step existing x incoming mid merged :
      upsert_spec key x existing mid →
      merged_by_name key mid incoming merged →
      merged_by_name key existing (x :: incoming) merged.

(** What merging by name means for the records: the merge proceeds
    record by record; an existing record keeps its index and its name;
    an existing record whose name is not incoming is left as it is;
    incoming records with unique names are all in the result; and the
    result holds nothing else. *)
Definition merged_in_place {A : Type} (key : A → string)
  (existing incoming merged : list A) : Prop :=
  merged_by_name key existing incoming merged ∧
  (∀ i old, existing !! i = Some old →
     ∃ new, merged !! i = Some new ∧ key new = key old) ∧
  (∀ i old, existing !! i = Some old →
     (∀ x, x ∈ incoming → key x ≠ key old) → merged !! i = Some old) ∧
  (NoDup (key <$> incoming) → ∀ x, x ∈ incoming → x ∈ merged) ∧
  (∀ y, y ∈ merged → y ∈ existing ∨ y ∈ incoming).

(** Names are unique within each of the three arrays. *)
Definition unique_names (k : KubeConfig) : Prop :=
  NoDup (name <$> default [] (clusters k)) ∧
  NoDup (name <$> default [] (contexts k)) ∧
  NoDup (uname <$> default [] (users k)).

Definition doc_unique (d : yamldoc) : Prop :=
  match d with
  | DNull => True
  | DMap k => unique_names k
  end.

(** A property of what a parser returned, when it returned. *)
Definition when_parsed (P : yamldoc → Prop) (r : result yamldoc) : Prop :=
  match r with
  | Ok d => P d
  | Throw _ => True
  end.

(** An incoming mapping that merging into itself leaves alone: it has
    no key at all, or it has the three arrays, each with unique names. *)
Definition settled (n : KubeConfig) : Prop :=
  Backend.no_keys n = true ∨
  (is_Some (clusters n) ∧ is_Some (contexts n) ∧ is_Some (users n) ∧
   unique_names n).

Definition doc_settled (d : yamldoc) : Prop :=
  match d with
  | DNull => True
  | DMap n => settled n
  end.

(** ** Sample documents and a table-driven YAML codec

    Used to run the functions on concrete inputs. The codec knows a
    finite table of texts: [parse] looks a text up and raises on any
    other, [stringify] prints a document of the table as its text. *)

Module Sample.

Fixpoint value_eqb (a b : value) : bool :=
  match a, b with
  | VNull, VNull => true
  | VBool x, VBool y => Bool.eqb x y
  | VNum x, VNum y => Z.eqb x y
  | VStr x, VStr y => String.eqb x y
  | VSeq l, VSeq l' =>
      (fix go (l l' : list value) : bool :=
         match l, l' with
         | [], [] => true
         | x :: l, y :: l' => value_eqb x y && go l l'
         | _, _ => false
         end) l l'
  | VMap m, VMap m' =>
      (fix go (m m' : list (string * value)) : bool :=
         match m, m' with
         | [], [] => true
         | (k, x) :: m, (k', y) :: m' =>
             String.eqb k k' && value_eqb x y && go m m'
         | _, _ => false
         end) m m'
  | _, _ => false
  end.

Fixpoint list_eqb {A : Type} (eqb : A → A → bool) (l l' : list A) : bool :=
  match l, l' with
  | [], [] => true
  | x :: l, y :: l' => eqb x y && list_eqb eqb l l'
  | _, _ => false
  end.

Definition option_eqb {A : Type} (eqb : A → A → bool) (o o' : option A)
  : bool :=
  match o, o' with
  | None, None => true
  | Some x, Some y => eqb x y
  | _, _ => false
  end.

Definition obj_eqb (m m' : obj) : bool := value_eqb (VMap m) (VMap m').

Definition named_eqb (a b : named) : bool :=
  String.eqb (name a) (name b) && obj_eqb (props a) (props b).

Definition user_entry_eqb (a b : user_entry) : bool :=
  String.eqb (uname a) (uname b) && option_eqb value_eqb (user a) (user b).

Definition config_eqb (a b : KubeConfig) : bool :=
  option_eqb (list_eqb named_eqb) (clusters a) (clusters b) &&
  option_eqb (list_eqb named_eqb) (contexts a) (contexts b) &&
  option_eqb (list_eqb user_entry_eqb) (users a) (users b) &&
  option_eqb String.eqb (current_context a) (current_context b) &&
  obj_eqb (extra a) (extra b).

Definition doc_eqb (a b : yamldoc) : bool :=
  match a, b with
  | DNull, DNull => true
  | DMap x, DMap y => config_eqb x y
  | _, _ => false
  end.

Definition cluster (n server : string) : named :=
  Named n [("cluster", VMap [("server", VStr server)])].

Definition context (n : string) : named :=
  Named n [("context", VMap [("cluster", VStr n); ("user", VStr n)])].

Definition token_user (n token : string) : user_entry :=
  UserEntry n (Some (VMap [("token", VStr token)])).

(** The kubeconfig on disk: cluster A. *)
Definition existing_cfg : KubeConfig :=
  {| clusters := Some [cluster "A" "https://old.example"];
     contexts := Some [context "A"];
     users := Some [token_user "A" "old-token"];
     current_context := Some "A";
     extra := [("apiVersion", VStr "v1"); ("kind", VStr "Config")] |}.

(** The incoming kubeconfig: cluster A at another address, and B. *)
Definition incoming_cfg : KubeConfig :=
  {| clusters := Some [cluster "A" "https://new.example";
                       cluster "B" "https://b.example"];
     contexts := Some [context "A"; context "B"];
     users := Some [token_user "A" "new-token"; token_user "B" "b-token"];
     current_context := Some "B";
     extra := [("apiVersion", VStr "v1"); ("kind", VStr "Config")] |}.

(** An incoming kubeconfig with a [clusters] array and nothing else. *)
Definition clusters_only_cfg : KubeConfig :=
  {| clusters := Some [cluster "B" "https://b.example"];
     contexts := None;
     users := None;
     current_context := None;
     extra := [] |}.

(** A kubeconfig whose first user carries a bearer token and whose
    second user has no [user] mapping. *)
Definition legacy_users_cfg : KubeConfig :=
  {| clusters := None;
     contexts := None;
     users := Some [token_user "alice" "secret"; UserEntry "bob" None];
     current_context := None;
     extra := [] |}.

(** A user whose [auth-provider] is there and holds [null]. *)
Definition null_provider_cfg : KubeConfig :=
  {| clusters := None;
     contexts := None;
     users := Some [UserEntry "carol"
                      (Some (VMap [("auth-provider", VNull);
                                   ("token", VStr "t")]))];
     current_context := None;
     extra := [] |}.

(** A user whose [user] is a text, after one that has a mapping. *)
Definition scalar_user_cfg : KubeConfig :=
  {| clusters := None;
     contexts := None;
     users := Some [token_user "alice" "secret";
                    UserEntry "dave" (Some (VStr "certificate"))];
     current_context := None;
     extra := [] |}.

Definition table : list (string * yamldoc) :=
  [("{}", DMap empty_config);
   ("existing", DMap existing_cfg);
   ("incoming", DMap incoming_cfg);
   ("merged", DMap (Backend.merge_into existing_cfg incoming_cfg));
   ("clusters-only", DMap clusters_only_cfg);
   ("clusters-only-merged",
    DMap (Backend.merge_into clusters_only_cfg clusters_only_cfg));
   ("legacy-users", DMap legacy_users_cfg);
   ("null-provider", DMap null_provider_cfg);
   ("scalar-user", DMap scalar_user_cfg)].

Definition parse (text : string) : result yamldoc :=
  match js_get text table with
  | Some d => Ok d
  | None => Throw (SyntaxError "not a YAML document")
  end.

Definition stringify (d : yamldoc) : string :=
  match List.find (λ entry, doc_eqb d entry.2) table with
  | Some entry => entry.1
  | None => "?"
  end.

(** A printer that shows, for every user, its name and the keys of its
    [user] mapping. *)
Definition render_user (e : user_entry) : string :=
  uname e +:+ ":" +:+
  match user e with
  | Some (VMap u) => String.concat "," (map fst u)
  | Some _ => "?"
  | None => "-"
  end.

Definition render (d : yamldoc) : string :=
  match d with
  | DNull => "null"
  | DMap k => String.concat ";" (map render_user (default [] (users k)))
  end.

(** [path.join] without normalisation, and [path.dirname]. *)
Definition path_join (parts : list string) : string := String.concat "/" parts.

Definition path_dirname (p : string) : string :=
  String.concat "/" (removelast (split_on "/" p)).

(** The file system before a registration: the home directory exists,
    [~/.kube] does not. *)
Definition home_fs : Backend.fs :=
  Backend.Fs ∅ {["/tmp"; "/home/u"]} ∅ false.

(** [w] with other regular files. *)
Definition with_files (w : Backend.fs) (f : gmap string string) : Backend.fs :=
  Backend.Fs f (Backend.dirs w) (Backend.undeletable w) (Backend.disk_full w).

(** The value of the [--file] option. *)
Definition file_option (args : list string) : string := List.last args "".

(** An [az] that creates the file named by [--file] and then exits with
    code 1. *)
Definition az_fails_after_writing (cmd : string) (args : list string)
  : Backend.io Backend.cmd_result := λ w,
  (Ok (Backend.CmdResult 1 "" "ERROR: boom"),
   with_files w (<[file_option args := "apiVersion: v1"]> (Backend.files w))).

(** An [az] that writes the incoming kubeconfig and exits with code 0. *)
Definition az_succeeds (cmd : string) (args : list string)
  : Backend.io Backend.cmd_result := λ w,
  (Ok (Backend.CmdResult 0 "" ""),
   with_files w (<[file_option args := "incoming"]> (Backend.files w))).

End Sample.

(** ** The credential rewrite, in the words of the specification *)

(** A record the loop can work on: its [user] is missing, falsy, or an
    object (a mapping or an array); not [true], a number other than 0 or
    a text that is not empty. *)
Definition takes_exec (e : user_entry) : bool :=
  match user e with
  | Some (VBool b) => negb b
  | Some (VNum z) => Z.eqb z 0
  | Some (VStr s) => String.eqb s ""
  | _ => true
  end.

(** The descriptor the backend installs: the interpreter and the login
    helper of [getExecutablePaths], the server id, [PATH] with the bin
    directory of the Azure CLI put before the current one, and
    [AZ_CLI_PATH]. *)
Definition backend_exec (path_join : list string → string)
  (platform : string) (env_PATH : option string) (isDev : bool)
  (resourcesPath : string) : value :=
  let p :=
    Backend.getExecutablePaths path_join platform isDev resourcesPath in
  let separator := if String.eqb platform "win32" then ";" else ":" in
  VMap [("apiVersion", VStr "client.authentication.k8s.io/v1beta1");
        ("command", VStr (Backend.pythonCmd p));
        ("args", VSeq [VStr (Backend.azKubeloginPath p); VStr "--server-id";
                       VStr Backend.serverId]);
        ("env",
         VSeq [VMap [("name", VStr "PATH");
                     ("value", VStr (Backend.azCliBinPath p +:+ separator +:+
                                     default "" env_PATH))];
               VMap [("name", VStr "AZ_CLI_PATH");
                     ("value", VStr (Backend.azCliCmd p))]]);
        ("provideClusterInfo", VBool false)].

(** The descriptor the plugin-side copy installs, given the paths it
    resolved: [PATH] only, with both bin directories before the current
    one. *)
Definition plugin_exec (platform : string) (env_PATH : option string)
  (kubeloginPath pythonPath azCliBinPath externalToolsBinPath : string)
  : value :=
  let separator := if String.eqb platform "win32" then ";" else ":" in
  VMap [("apiVersion", VStr "client.authentication.k8s.io/v1beta1");
        ("command", VStr pythonPath);
        ("args", VSeq [VStr kubeloginPath; VStr "--server-id";
                       VStr Plugin.serverId]);
        ("env",
         VSeq [VMap [("name", VStr "PATH");
                     ("value", VStr (externalToolsBinPath +:+ separator +:+
                                     azCliBinPath +:+ separator +:+
                                     default "" env_PATH))]]);
        ("provideClusterInfo", VBool false)].

(** What the backend does to one element of [users]. An element whose
    [user] is not a mapping is left alone. In a [user] mapping [token]
    and the four certificate and key fields are gone, [auth-provider] is
    gone if it held a truthy value, [exec] is the descriptor, every
    other field is as before, and no key is there twice if none was. *)
Definition backend_rewritten (exec : value) (e e' : user_entry) : Prop :=
  uname e' = uname e ∧
  match user e with
  | Some (VMap u) =>
      ∃ u', user e' = Some (VMap u') ∧
        (∀ f, f ∈ legacy_fields → f ≠ "auth-provider" → js_get f u' = None) ∧
        (js_truthy "auth-provider" u = true →
         js_get "auth-provider" u' = None) ∧
        js_truthy "auth-provider" u' = false ∧
        js_get "exec" u' = Some exec ∧
        (∀ f, f ∉ legacy_fields → f ≠ "exec" → js_get f u' = js_get f u) ∧
        (NoDup u.*1 → NoDup u'.*1)
  | _ => user e' = user e
  end.

(** What the plugin-side copy does to one element of [users]: in a
    [user] mapping [exec] is the descriptor and every other field, the
    legacy ones included, is as before. *)
Definition plugin_rewritten (exec : value) (e e' : user_entry) : Prop :=
  uname e' = uname e ∧
  match user e with
  | Some (VMap u) =>
      ∃ u', user e' = Some (VMap u') ∧
        js_get "exec" u' = Some exec ∧
        (∀ f, f ≠ "exec" → js_get f u' = js_get f u) ∧
        (NoDup u.*1 → NoDup u'.*1)
  | _ => user e' = user e
  end.

(** The plugin-side copy finds its paths in development mode or when
    [process.resourcesPath] is set. *)
Definition paths_resolve (isDev : bool) (process_resourcesPath : option string)
  : Prop :=
  isDev = true ∨ is_Some (Plugin.getResourcesPath process_resourcesPath).

(** ** The import batch, in the words of the specification *)

Module ImportSpec.
Import ImportPage.

(** The triple a namespace is grouped by. *)
Definition triple_of (item : ImportSelection) : string * string * string :=
  (clusterName (namespace item), resourceGroup (namespace item),
   subscriptionId (namespace item)).

(** The triple a registration call is made for. *)
Definition call_triple (c : Call) : string * string * string :=
  (call_clusterName c, call_resourceGroup c, call_subscriptionId c).

(** The distinct elements of a list, in the order of their first
    occurrence. *)
Definition nub_first {A : Type} `{EqDecision A} (l : list A) : list A :=
  foldl (λ acc x, if decide (x ∈ acc) then acc else acc ++ [x]) [] l.

(** No ['|'] in a string. *)
Fixpoint bar_free (s : string) : bool :=
  match s with
  | EmptyString => true
  | String c s' => negb (Ascii.eqb c "|") && bar_free s'
  end.

Definition bar_free_item (item : ImportSelection) : Prop :=
  bar_free (clusterName (namespace item)) = true ∧
  bar_free (resourceGroup (namespace item)) = true ∧
  bar_free (subscriptionId (namespace item)) = true.

(** The key a namespace is filed under. *)
Definition key_of (item : ImportSelection) : string :=
  clusterKey (namespace item).

(** The key of a triple. *)
Definition triple_key (t : string * string * string) : string :=
  t.1.1 +:+ "|" +:+ t.1.2 +:+ "|" +:+ t.2.

(** What the three parts of a key read back as. *)
Definition key_triple (key : string) : string * string * string :=
  let parts := split_on "|" key in (part 0 parts, part 1 parts, part 2 parts).

Section Sequential.
Variable World : Type.
Variable registerAKSCluster :
  string → string → string → option string → World → result RegisterResult * World.

(** The calls made one after the other, each in the world the previous
    one left. *)
Fixpoint run_sequentially (cs : list Call) (w : World)
  : list (result RegisterResult) * World :=
  match cs with
  | [] => ([], w)
  | c :: cs' =>
      let answer :=
        registerAKSCluster (call_subscriptionId c) (call_resourceGroup c)
          (call_clusterName c) (call_managedNamespace c) w in
      let rest := run_sequentially cs' answer.2 in
      (answer.1 :: rest.1, rest.2)
  end.
End Sequential.

(** The calls a run of [handleImport] made and the entries it reported;
    none when it returned before the loop. *)
Definition calls_made {World : Type} (out : option (ImportRun World))
  : list (Call * result RegisterResult) :=
  match out with
  | Some run => calls run
  | None => []
  end.

Definition results_reported {World : Type} (out : option (ImportRun World))
  : list ImportResult :=
  match out with
  | Some run => results run
  | None => []
  end.

(** The error message of a registration that raised: the message of
    the error object, or [Unknown error] when what was raised is no
    error object. *)
Definition raised_message (err : exn) : string :=
  match err with
  | TypeError msg => msg
  | SyntaxError msg => msg
  | Error msg => msg
  | NonError => "Unknown error"
  end.

(** The entries of a group that failed with [msg]: one per namespace,
    in order, labelled [namespace (cluster)], not successful, with that
    message. *)
Definition all_failed (cluster msg : string) (group : list ImportSelection)
  (chunk : list ImportResult) : Prop :=
  chunk =
    map (λ item,
           MkResult (ns_name (namespace item) +:+ " (" +:+ cluster +:+ ")")
             false msg) group.

(** The entries of [results] that belong to one group, given the
    registration call made for the group and its answer: one entry per
    namespace of the group, in order; all failed with the message of the
    registration when the registration raised or reported a failure;
    all imported, or all failed, when it reported success. *)
Definition chunk_ok (group : string * list ImportSelection)
  (c : Call * result RegisterResult) (chunk : list ImportResult) : Prop :=
  let cluster := part 0 (split_on "|" group.1) in
  call_triple c.1 = key_triple group.1 ∧
  map r_namespace chunk = map (label_of cluster) group.2 ∧
  match c.2 with
  | Throw err => all_failed cluster (raised_message err) group.2 chunk
  | Ok r =>
      if success r then
        chunk = imported cluster group.2 ∨
        ∃ msg, all_failed cluster msg group.2 chunk
      else
        all_failed cluster ("Failed to merge cluster: " +:+ message r)
          group.2 chunk
  end.

(** *** A batch of three namespaces on two clusters *)

Definition ns1 : ImportSelection :=
  MkSelection (MkNamespace "team-a" "aks-east" "rg1" "sub1") (Some "A") true false.
Definition ns2 : ImportSelection :=
  MkSelection (MkNamespace "team-b" "aks-west" "rg1" "sub1") (Some "B") true false.
Definition ns3 : ImportSelection :=
  MkSelection (MkNamespace "team-c" "aks-west" "rg1" "sub1") (Some "C") true false.

(** A registration that fails for the cluster [aks-west]; the world is
    the number of calls made. *)
Definition register_east_only (subscriptionId resourceGroup clusterName : string)
  (managedNamespace : option string) (w : nat)
  : result RegisterResult * nat :=
  (if String.eqb clusterName "aks-west"
   then Ok (MkRegisterResult false "cluster not found")
   else Ok (MkRegisterResult true "registered"),
   S w).



(** *** Two namespaces whose names contain the separator *)

Definition odd1 : ImportSelection :=
  MkSelection (MkNamespace "n1" "a|b" "c" "s") (Some "P") true false.
Definition odd2 : ImportSelection :=
  MkSelection (MkNamespace "n2" "a" "b|c" "s") (Some "Q") true false.

End ImportSpec.

(** ** Discovery, in the words of the specification *)

Module DiscoverySpec.
Import ImportPage.

(** A namespace carries both required labels: a non-empty project id and
    the marker of AKS desktop. *)
Definition has_both_labels (l : labels) : Prop :=
  (∃ id, js_get "headlamp.dev/project-id" l = Some id ∧ id ≠ "") ∧
  js_get "headlamp.dev/project-managed-by" l = Some "aks-desktop".

(** The selection [discoverNamespaces] builds for a row. *)
Definition selection_for (subscription : Subscription) (row : NamespaceRow)
  (l : labels) : ImportSelection :=
  {| namespace :=
       {| ns_name := row_name row;
          clusterName := row_clusterName row;
          resourceGroup := row_resourceGroup row;
          subscriptionId := sub_id subscription |};
     projectName := js_get "headlamp.dev/project-id" l;
     selected := true;
     clusterMerged := false |}.

Definition details_query (subscription : Subscription) (row : NamespaceRow)
  : DetailsQuery :=
  MkDetailsQuery (row_clusterName row) (row_resourceGroup row) (row_name row)
    (sub_id subscription).

(** A row is listed when its details can be fetched, carry both labels,
    and its cluster is not among the merged ones. *)
Definition eligible (details : DetailsQuery → result (option labels))
  (merged : list string) (subscription : Subscription)
  (row : NamespaceRow) (l : labels) : Prop :=
  (∃ o, details (details_query subscription row) = Ok o ∧ l = default [] o) ∧
  has_both_labels l ∧
  row_clusterName row ∉ merged.

(** *** Samples: one cluster, already in the active configuration, with
    a namespace that lacks the project id and one that has both labels *)

Definition no_id_labels : labels :=
  [(PROJECT_MANAGED_BY_LABEL, PROJECT_MANAGED_BY_AKS_DESKTOP)].

Definition both_labels : labels :=
  [(PROJECT_ID_LABEL, "shop");
   (PROJECT_MANAGED_BY_LABEL, PROJECT_MANAGED_BY_AKS_DESKTOP)].

Definition cluster_id : string :=
  "/subscriptions/sub1/resourceGroups/rg1/providers/Microsoft.ContainerService/managedClusters/aks-east".

Definition resource_no_id : GraphResource :=
  MkResource "Microsoft.ContainerService/managedClusters/managedNamespaces"
    (cluster_id +:+ "/managedNamespaces/team-a") "team-a" "rg1" "sub1"
    no_id_labels.

Definition resource_merged : GraphResource :=
  MkResource "Microsoft.ContainerService/managedClusters/managedNamespaces"
    (cluster_id +:+ "/managedNamespaces/shop") "shop" "rg1" "sub1"
    both_labels.

(** The text of the query [loadNamespaces] sends: the managed
    namespaces that carry the marker label of AKS desktop. *)
Definition marker_query : string :=
  "resources | where type =~ 'microsoft.containerservice/managedclusters/managednamespaces' | where properties['labels']['headlamp.dev/project-managed-by'] == 'aks-desktop'".

(** The arguments [az] is started with; on Windows the query is put
    between double quotes. *)
Definition graph_query_args (platform : string) : list string :=
  ["graph"; "query"; "-q";
   if String.eqb platform "win32"
   then dquote +:+ marker_query +:+ dquote else marker_query;
   "--output"; "json"].

(** The selection made of a row of the answer. *)
Definition selection_of_row (r : GraphResource) : ImportSelection :=
  {| namespace :=
       {| ns_name := g_name r;
          clusterName := getClusterName (g_id r);
          resourceGroup := g_resourceGroup r;
          subscriptionId := g_subscriptionId r |};
     projectName := js_get "headlamp.dev/project-id" (g_labels r);
     selected := true;
     clusterMerged := false |}.

(** The answer of the resource graph to that query, as a process output
    and as the rows read from it; any other command is an error. *)
Definition graph_answer (cmd : string) (args : list string) : cmd_output :=
  if String.eqb cmd "az" &&
     Sample.list_eqb String.eqb args (graph_query_args "linux")
  then CmdOutput "rows" ""
  else CmdOutput "" "ERROR: unrecognized arguments".

Definition graph_rows (text : string) : result (list GraphResource) :=
  if String.eqb text "rows" then Ok [resource_no_id; resource_merged]
  else Throw (SyntaxError "Unexpected token").

(** The same two namespaces as the older discovery sees them. *)
Definition subscription1 : Subscription := MkSubscription "sub1" "Sub 1" "Enabled".

Definition list_rows (subscriptionId : string) : result (list NamespaceRow) :=
  Ok [MkRow "team-a" "aks-east" "rg1"; MkRow "shop" "aks-east" "rg1"].

Definition row_details (q : DetailsQuery) : result (option labels) :=
  if String.eqb (q_namespaceName q) "team-a" then Ok (Some no_id_labels)
  else Ok (Some both_labels).

(** The active configuration holds the cluster. *)
Definition active_conf : option (list (string * string)) :=
  Some [("aks-east", "aks-east")].

End DiscoverySpec.

(** ** Samples for the further properties *)

Module Sample2.

(** The paths of a packaged Linux build. *)
Definition linux_paths : Backend.exec_paths :=
  Backend.getExecutablePaths Sample.path_join "linux" false "/opt/app/resources".

(** [Sample.legacy_users_cfg] after the backend rewrite. *)
Definition rewritten_cfg : KubeConfig :=
  with_users Sample.legacy_users_cfg
    (map (Backend.configure_user "linux" (Some "/usr/bin") linux_paths)
       (default [] (users Sample.legacy_users_cfg))).

Definition table : list (string * yamldoc) :=
  [("legacy-users", DMap Sample.legacy_users_cfg);
   ("rewritten-users", DMap rewritten_cfg)].

Definition parse (text : string) : result yamldoc :=
  match js_get text table with
  | Some d => Ok d
  | None => Throw (SyntaxError "not a YAML document")
  end.

Definition stringify (d : yamldoc) : string :=
  match List.find (λ entry, Sample.doc_eqb d entry.2) table with
  | Some entry => entry.1
  | None => "?"
  end.

End Sample2.

Module Sample3.

(** A home directory in which [.kube] is a regular file, so that no
    kubeconfig can be written below it. *)
Definition blocked_fs : Backend.fs :=
  Backend.Fs {[ "/home/u/.kube" := "not a directory";
                "/home/u/notes.txt" := "keep me" ]}
    {["/tmp"; "/home/u"]} ∅ false.

(** A home directory that already holds a kubeconfig and some other
    file. *)
Definition used_fs : Backend.fs :=
  Backend.Fs {[ "/home/u/.kube/config" := "existing";
                "/home/u/notes.txt" := "keep me" ]}
    {["/tmp"; "/home/u"; "/home/u/.kube"]} ∅ false.

(** The same home directory on a system that refuses to remove the
    temporary file. *)
Definition locked_fs : Backend.fs :=
  Backend.Fs {[ "/home/u/.kube/config" := "existing";
                "/home/u/notes.txt" := "keep me" ]}
    {["/tmp"; "/home/u"; "/home/u/.kube"]}
    {["/tmp/kubeconfig-1700000000000.yaml"]} false.

Definition temp : string :=
  Backend.tempKubeconfigPath Sample.path_join "/tmp" "1700000000000".

Definition config : string :=
  Backend.kubeconfigPath Sample.path_join "/home/u".

Definition az_args : list string :=
  Backend.az_args Sample.path_join "/tmp" "1700000000000" "sub" "rg" "aks"
    None.

Definition register
  (az : string → list string → Backend.io Backend.cmd_result)
  (w : Backend.fs) : Backend.RegisterAKSClusterResult * Backend.fs :=
  Backend.registerAKSCluster Sample.parse Sample.stringify Sample.path_join
    Sample.path_dirname "linux" None "/tmp" "/home/u" "1700000000000" az
    "sub" "rg" "aks" true false "/opt/app/resources" None w.

End Sample3.

(** ** What a registration leaves of the system *)

(** What the steps of a registration never change: what the system
    refuses to remove, the space on the disk, and the directories, but
    for the directory [dir] of the kubeconfig and the directories
    [above] it, which may be created. *)
Definition same_system (dir : string) (above : list string)
  (w w' : Backend.fs) : Prop :=
  Backend.undeletable w' = Backend.undeletable w ∧
  Backend.disk_full w' = Backend.disk_full w ∧
  (Backend.dirs w' = Backend.dirs w ∨
   Backend.dirs w' = {[dir]} ∪ list_to_set above ∪ Backend.dirs w).

(** ** What the bridge lets through *)

Module PreloadSpec.
Import Preload.

(** A call on [ipcRenderer] the bridge may make: a message on a channel
    of the send list; a listener on a channel of the receive list that
    does not look at the event; the removal of a listener; or one of the
    two fixed requests, each with its own payload. *)
Definition permitted {Data Arg Event R : Type}
  (c : ipc_call Data Arg Event R) : Prop :=
  match c with
  | IpcSend channel _ => channel ∈ send_validChannels
  | IpcOn channel listener =>
      channel ∈ receive_validChannels ∧
      ∀ event event' args, listener event args = listener event' args
  | IpcRemoveListener _ _ => True
  | IpcInvoke channel (RegisterPayload _ _ _ _ _) =>
      channel = "register-aks-cluster"
  | IpcInvoke channel (LicensePayload _) => channel = "get-license-file"
  end.

End PreloadSpec.

(** ** What an import does to the stored settings *)

Module StorageSpec.
Import ImportPage ClusterSettingsStore.

(** The names held in the allow-list of a settings object. *)
Definition allowed (s : ClusterSettings) : list string :=
  default [] (allowedNamespaces s).

(** [after] keeps what [before] held: an unreadable item is the same,
    and a settings object has the other settings it had and every
    allowed namespace it had. *)
Definition settings_grow (before after : gmap string stored) : Prop :=
  ∀ key,
    match before !! key with
    | None => True
    | Some (Unreadable msg) => after !! key = Some (Unreadable msg)
    | Some (Stored s) =>
        ∃ s', after !! key = Some (Stored s') ∧
              other_settings s' = other_settings s ∧
              allowed s ⊆ allowed s'
    end.

(** The name under which a group is registered and its settings kept. *)
Definition group_cluster (kg : string * list ImportSelection) : string :=
  part 0 (split_on "|" kg.1).

(** The entries of one group and the stored settings after the import:
    the entries are all failures, or all successes, and then the
    settings of the cluster allow every namespace of the group. *)
Definition group_allowed (storage : gmap string stored)
  (kg : string * list ImportSelection) (chunk : list ImportResult) : Prop :=
  (∃ msg, chunk = failed_with (group_cluster kg) msg kg.2) ∨
  (chunk = imported (group_cluster kg) kg.2 ∧
   ∃ s, storage !! settings_key (group_cluster kg) = Some (Stored s) ∧
        ∀ item, item ∈ kg.2 → ns_name (namespace item) ∈ allowed s).

(** A registration that always succeeds; the world counts the calls. *)
Definition register_always (subscriptionId resourceGroup clusterName : string)
  (managedNamespace : option string) (w : nat)
  : result RegisterResult * nat :=
  (Ok (MkRegisterResult true "ok"), S w).

(** Settings of [aks-east] from an earlier import. *)
Definition east_storage : gmap string stored :=
  {[ "cluster_settings.aks-east" :=
       Stored (MkSettings (Some ["team-a"; "team-z"])
                 [("defaultNamespace", VStr "team-z")]);
     "cluster_settings.broken" := Unreadable "Unexpected token" ]}.

End StorageSpec.

(** ** Samples for the plugin-side helpers *)

Module PluginSample.
Import ImportPage PluginApi.

(** An [az] that prints the description of a cluster without
    [aadProfile]; the world counts the processes started. *)
Definition az_show (cmd : string) (args : list string) (w : nat)
  : result cmd_output * nat :=
  (Ok (CmdOutput "cluster-json" ""), S w).

Definition json_parse (text : string) : result value :=
  if String.eqb text "cluster-json"
  then Ok (VMap [("name", VStr "aks-east"); ("location", VStr "eastus")])
  else Throw (SyntaxError "Unexpected token").

(** The IPC request answered by the backend. *)
Definition ipc_register (subscriptionId resourceGroup clusterName : string)
  (isAzureRBACEnabled : option bool) (managedNamespace : option string)
  (w : nat) : result RegisterResult * nat :=
  (Ok (MkRegisterResult true "registered"), S w).

(** An [az] that prints a kubeconfig. *)
Definition az_credentials (cmd : string) (args : list string) (w : nat)
  : result cmd_output * nat :=
  (Ok (CmdOutput "apiVersion: v1 kind: Config" ""), S w).

End PluginSample.

(** * Properties *)

(** ** [mergeKubeconfig] *)

Section UpsertFacts.
Context {A : Type} (key : A → string).
Implicit Types (x y : A) (arr : list A).

Lemma findIndex_Some x arr i :
  Backend.findIndex key x arr = Some i ↔
  ∃ old, arr !! i = Some old ∧ key old = key x ∧
         ∀ j y, arr !! j = Some y → j < i → key y ≠ key x.
Proof.
  unfold Backend.findIndex. split.
  - destruct (list_find _ arr) as [[i' old]|] eqn:Hf; [|done].
    intros [= <-]. apply list_find_Some in Hf as (? & ? & ?). eauto.
  - intros (old & Hi & Hk & Hmin).
    assert (list_find (λ c, key c = key x) arr = Some (i, old)) as ->; [|done].
    apply list_find_Some. eauto.
Qed.

Lemma findIndex_None x arr :
  Backend.findIndex key x arr = None ↔ ∀ y, y ∈ arr → key y ≠ key x.
Proof.
  unfold Backend.findIndex. rewrite fmap_None, list_find_None, Forall_forall.
  done.
Qed.

Lemma findIndex_names x arr :
  Backend.findIndex key x arr =
  fst <$> list_find (λ k, k = key x) (key <$> arr).
Proof.
  unfold Backend.findIndex. rewrite list_find_fmap.
  by destruct (list_find _ arr) as [[??]|].
Qed.

Lemma findIndex_same_key x y arr :
  key x = key y → Backend.findIndex key x arr = Backend.findIndex key y arr.
Proof. intros Hk. rewrite !findIndex_names. by rewrite Hk. Qed.

Lemma findIndex_lt x arr i :
  Backend.findIndex key x arr = Some i → i < length arr.
Proof.
  intros (old & Hi & _)%findIndex_Some. by eapply lookup_lt_Some.
Qed.

(** The source loop body meets the specification's step. *)
Lemma upsert_sound x arr : upsert_spec key x arr (Backend.upsert key arr x).
Proof.
  unfold Backend.upsert. destruct (Backend.findIndex key x arr) as [i|] eqn:Hf.
  - apply findIndex_Some in Hf as (old & ? & ? & ?). by econstructor.
  - constructor. by apply findIndex_None.
Qed.

Lemma merge_array_sound existing incoming :
  merged_by_name key existing incoming
    (Backend.merge_array key existing incoming).
Proof.
  revert existing. induction incoming as [|x incoming IH]; intros existing.
  - constructor.
  - econstructor; [apply upsert_sound | apply IH].
Qed.

Lemma upsert_names_found x arr i :
  Backend.findIndex key x arr = Some i →
  key <$> Backend.upsert key arr x = key <$> arr.
Proof.
  intros Hf. unfold Backend.upsert. rewrite Hf, list_fmap_insert.
  apply findIndex_Some in Hf as (old & Hi & Hk & _).
  apply list_insert_id. by rewrite list_lookup_fmap, Hi, <- Hk.
Qed.

Lemma upsert_names_missing x arr :
  Backend.findIndex key x arr = None →
  key <$> Backend.upsert key arr x = (key <$> arr) ++ [key x].
Proof. intros Hf. unfold Backend.upsert. by rewrite Hf, fmap_app. Qed.

Lemma upsert_length_ge x arr : length arr ≤ length (Backend.upsert key arr x).
Proof.
  unfold Backend.upsert. destruct (Backend.findIndex key x arr).
  - by rewrite length_insert.
  - rewrite length_app. lia.
Qed.

(** Looking for another name is not disturbed by a turn of the loop. *)
Lemma findIndex_upsert_ne x y arr :
  key x ≠ key y →
  Backend.findIndex key y (Backend.upsert key arr x) =
  Backend.findIndex key y arr.
Proof.
  intros Hne. rewrite !findIndex_names.
  destruct (Backend.findIndex key x arr) as [i|] eqn:Hf.
  - by erewrite upsert_names_found.
  - rewrite upsert_names_missing by done.
    destruct (list_find (λ k, k = key y) (key <$> arr)) as [[j k]|] eqn:Hy.
    + by erewrite list_find_app_l.
    + rewrite list_find_app_r by done. simpl.
      by rewrite decide_False.
Qed.

Lemma findIndex_upsert_eq x arr :
  Backend.findIndex key x (Backend.upsert key arr x) =
  Some (default (length arr) (Backend.findIndex key x arr)).
Proof.
  destruct (Backend.findIndex key x arr) as [i|] eqn:Hf; simpl.
  - rewrite findIndex_names. erewrite upsert_names_found by done.
    by rewrite <- findIndex_names.
  - rewrite findIndex_names, upsert_names_missing by done.
    rewrite findIndex_names in Hf. apply fmap_None in Hf.
    rewrite list_find_app_r by done. simpl.
    rewrite decide_True by done. simpl. by rewrite length_fmap.
Qed.

(** A later record of the same name wins, wherever it lands. *)
Lemma upsert_absorb x y arr :
  key x = key y →
  Backend.upsert key (Backend.upsert key arr y) x = Backend.upsert key arr x.
Proof.
  intros Hk. unfold Backend.upsert at 1.
  rewrite (findIndex_same_key x y), findIndex_upsert_eq by done.
  rewrite <- (findIndex_same_key x y) by done.
  unfold Backend.upsert. rewrite <- (findIndex_same_key x y) by done.
  destruct (Backend.findIndex key x arr) as [i|]; simpl.
  - apply list_insert_insert_eq.
  - replace (length arr) with (length arr + 0) by lia.
    by rewrite insert_app_r.
Qed.

(** Turns for different names commute once the second name is there. *)
Lemma upsert_comm x y arr :
  key x ≠ key y →
  is_Some (Backend.findIndex key y arr) →
  Backend.upsert key (Backend.upsert key arr x) y =
  Backend.upsert key (Backend.upsert key arr y) x.
Proof.
  intros Hne [j Hy].
  unfold Backend.upsert at 1. rewrite findIndex_upsert_ne, Hy by done.
  unfold Backend.upsert at 2.
  rewrite findIndex_upsert_ne by done.
  unfold Backend.upsert. rewrite Hy.
  destruct (Backend.findIndex key x arr) as [i|] eqn:Hx.
  - apply list_insert_insert_ne. intros ->.
    apply findIndex_Some in Hx as (ox & Hix & Hkx & _).
    apply findIndex_Some in Hy as (oy & Hiy & Hky & _).
    congruence.
  - apply insert_app_l. by eapply findIndex_lt.
Qed.

Lemma findIndex_upsert_is_Some x y arr :
  is_Some (Backend.findIndex key y arr) →
  is_Some (Backend.findIndex key y (Backend.upsert key arr x)).
Proof.
  intros Hy. destruct (decide (key x = key y)) as [Hk|Hne].
  - rewrite <- (findIndex_same_key x y) by done.
    rewrite findIndex_upsert_eq. eauto.
  - by rewrite findIndex_upsert_ne.
Qed.

Lemma findIndex_merge_is_Some incoming y arr :
  is_Some (Backend.findIndex key y arr) →
  is_Some (Backend.findIndex key y (Backend.merge_array key arr incoming)).
Proof.
  revert arr. induction incoming as [|x incoming IH]; intros arr Hy; [done|].
  apply IH. by apply findIndex_upsert_is_Some.
Qed.

(** After a merge, every incoming name is in the target. *)
Lemma merge_array_covers incoming arr y :
  y ∈ incoming →
  is_Some (Backend.findIndex key y (Backend.merge_array key arr incoming)).
Proof.
  revert arr. induction incoming as [|x incoming IH]; intros arr Hin.
  - by apply elem_of_nil in Hin.
  - apply elem_of_cons in Hin as [->|Hin]; simpl.
    + apply findIndex_merge_is_Some. rewrite findIndex_upsert_eq. eauto.
    + by apply IH.
Qed.

(** One more turn for [x] before and after a merge whose names are all
    present comes to the same as one turn after it. *)
Lemma upsert_merge_upsert incoming x arr :
  (∀ y, y ∈ incoming → is_Some (Backend.findIndex key y arr)) →
  Backend.upsert key
    (Backend.merge_array key (Backend.upsert key arr x) incoming) x =
  Backend.upsert key (Backend.merge_array key arr incoming) x.
Proof.
  revert arr. induction incoming as [|y incoming IH]; intros arr Hall; simpl.
  - apply upsert_absorb. done.
  - destruct (decide (key y = key x)) as [Hk|Hne].
    + by rewrite upsert_absorb.
    + rewrite upsert_comm; [|congruence|apply Hall; left].
      apply IH. intros z Hz. apply findIndex_upsert_is_Some, Hall. by right.
Qed.

(** Merging the same incoming array a second time changes nothing. *)
Lemma merge_array_idempotent incoming existing :
  Backend.merge_array key (Backend.merge_array key existing incoming) incoming
  = Backend.merge_array key existing incoming.
Proof.
  revert existing. induction incoming as [|x incoming IH] using rev_ind;
    intros existing; [done|].
  unfold Backend.merge_array in *. rewrite !foldl_snoc.
  set (arr := foldl (Backend.upsert key) existing incoming).
  change (Backend.upsert key
            (Backend.merge_array key (Backend.upsert key arr x) incoming) x
          = Backend.upsert key arr x).
  rewrite upsert_merge_upsert.
  - unfold Backend.merge_array, arr. by rewrite IH.
  - intros y Hy. subst arr. by apply (merge_array_covers incoming existing).
Qed.

Lemma upsert_NoDup x arr :
  NoDup (key <$> arr) → NoDup (key <$> Backend.upsert key arr x).
Proof.
  intros Hnd. destruct (Backend.findIndex key x arr) as [i|] eqn:Hf.
  - by erewrite upsert_names_found.
  - rewrite upsert_names_missing by done.
    apply NoDup_app. split_and!; [done| |apply NoDup_singleton].
    intros k Hk ->%list_elem_of_singleton.
    apply list_elem_of_fmap in Hk as (y & Hky & Hy).
    rewrite findIndex_None in Hf. by apply (Hf y Hy).
Qed.

Lemma merge_array_NoDup incoming existing :
  NoDup (key <$> existing) →
  NoDup (key <$> Backend.merge_array key existing incoming).
Proof.
  revert existing. induction incoming as [|x incoming IH]; intros existing ?.
  - done.
  - apply IH. by apply upsert_NoDup.
Qed.

(** Merging an array with unique names into nothing gives it back. *)
Lemma merge_array_fresh incoming pre :
  NoDup (key <$> (pre ++ incoming)) →
  Backend.merge_array key pre incoming = pre ++ incoming.
Proof.
  revert pre. induction incoming as [|x incoming IH]; intros pre Hnd; simpl.
  - by rewrite app_nil_r.
  - assert (Backend.findIndex key x pre = None) as Hf.
    { apply findIndex_None. intros y Hy Hk.
      rewrite fmap_app in Hnd. apply NoDup_app in Hnd as (_ & Hd & _).
      apply (Hd (key y)); [by apply list_elem_of_fmap_2|].
      rewrite Hk. simpl. left. }
    unfold Backend.upsert at 1. rewrite Hf.
    rewrite IH; rewrite <- app_assoc; done.
Qed.

Lemma merge_array_self arr :
  NoDup (key <$> arr) → Backend.merge_array key arr arr = arr.
Proof.
  intros Hnd.
  rewrite <- (merge_array_fresh arr []) at 1 by done.
  rewrite merge_array_idempotent. by apply merge_array_fresh.
Qed.

(** The existing records keep their index and their name: replacement is
    in place and nothing is removed. *)
Lemma merge_array_in_place incoming existing i old :
  existing !! i = Some old →
  ∃ new, Backend.merge_array key existing incoming !! i = Some new ∧
         key new = key old.
Proof.
  revert existing old. induction incoming as [|x incoming IH];
    intros existing old Hi; simpl; [eauto|].
  assert (∃ mid, Backend.upsert key existing x !! i = Some mid ∧
                 key mid = key old) as (mid & Hmid & Hk).
  { unfold Backend.upsert.
    destruct (Backend.findIndex key x existing) as [j|] eqn:Hf.
    - destruct (decide (i = j)) as [->|Hne].
      + exists x. split.
        * apply list_lookup_insert_eq. by eapply lookup_lt_Some.
        * apply findIndex_Some in Hf as (o & Ho & Hko & _). congruence.
      + exists old. by rewrite list_lookup_insert_ne.
    - exists old. split; [|done]. by apply lookup_app_l_Some. }
  destruct (IH _ _ Hmid) as (new & ? & ?). exists new. split; congruence.
Qed.

Lemma upsert_untouched x arr i old :
  arr !! i = Some old → key x ≠ key old →
  Backend.upsert key arr x !! i = Some old.
Proof.
  intros Hi Hne. unfold Backend.upsert.
  destruct (Backend.findIndex key x arr) as [j|] eqn:Hf.
  - rewrite list_lookup_insert_ne; [done|]. intros ->.
    apply findIndex_Some in Hf as (o & Ho & Hko & _). congruence.
  - by apply lookup_app_l_Some.
Qed.

(** A record whose name is not incoming stays where it is. *)
Lemma merge_array_untouched incoming existing i old :
  existing !! i = Some old →
  (∀ x, x ∈ incoming → key x ≠ key old) →
  Backend.merge_array key existing incoming !! i = Some old.
Proof.
  revert existing. induction incoming as [|x incoming IH];
    intros existing Hi Hall; simpl; [done|].
  apply IH.
  - apply upsert_untouched; [done|]. apply Hall. left.
  - intros y Hy. apply Hall. by right.
Qed.

Lemma upsert_lookup_self x arr :
  Backend.upsert key arr x
    !! default (length arr) (Backend.findIndex key x arr) = Some x.
Proof.
  unfold Backend.upsert.
  destruct (Backend.findIndex key x arr) as [j|] eqn:Hf; simpl.
  - apply list_lookup_insert_eq. by eapply findIndex_lt.
  - rewrite lookup_app_r by done. by rewrite Nat.sub_diag.
Qed.

(** Incoming records with unique names all end up in the result. *)
Lemma merge_array_holds_incoming incoming existing x :
  NoDup (key <$> incoming) → x ∈ incoming →
  x ∈ Backend.merge_array key existing incoming.
Proof.
  revert existing. induction incoming as [|x0 incoming IH];
    intros existing Hnd Hin; [by apply elem_of_nil in Hin|].
  rewrite fmap_cons in Hnd. apply NoDup_cons in Hnd as [Hfresh Hnd].
  apply elem_of_cons in Hin as [-> |Hin]; simpl; [|by apply IH].
  eapply list_elem_of_lookup_2, merge_array_untouched.
  - apply upsert_lookup_self.
  - intros y Hy Hk. apply Hfresh. rewrite <- Hk.
    by apply list_elem_of_fmap_2.
Qed.

Lemma upsert_elem_of x arr y :
  y ∈ Backend.upsert key arr x → y ∈ arr ∨ y = x.
Proof.
  unfold Backend.upsert. destruct (Backend.findIndex key x arr) as [j|].
  - intros (i & Hi)%list_elem_of_lookup.
    apply list_lookup_insert_Some in Hi as [(_ & -> & _)|(_ & Hi)].
    + by right.
    + left. by eapply list_elem_of_lookup_2.
  - rewrite elem_of_app, list_elem_of_singleton. tauto.
Qed.

(** The result holds existing and incoming records only. *)
Lemma merge_array_elem_of incoming existing y :
  y ∈ Backend.merge_array key existing incoming →
  y ∈ existing ∨ y ∈ incoming.
Proof.
  revert existing. induction incoming as [|x incoming IH];
    intros existing Hy; simpl in Hy; [by left|].
  apply IH in Hy as [[?| ->]%upsert_elem_of|?].
  - by left.
  - right. left.
  - right. by right.
Qed.

Lemma merge_array_in_place_spec existing incoming :
  merged_in_place key existing incoming
    (Backend.merge_array key existing incoming).
Proof.
  split_and!.
  - apply merge_array_sound.
  - intros. by apply merge_array_in_place.
  - intros. by apply merge_array_untouched.
  - intros. by apply merge_array_holds_incoming.
  - intros. by apply merge_array_elem_of.
Qed.
End UpsertFacts.

Lemma no_keys_merge_into e n :
  Backend.no_keys (Backend.merge_into e n) = false.
Proof. done. Qed.

Lemma read_existing_cases parse existingConfig :
  (existingConfig = "" →
   Backend.read_existing parse existingConfig = DMap empty_config) ∧
  (∀ e, parse existingConfig = Throw e →
        Backend.read_existing parse existingConfig = DMap empty_config) ∧
  (∀ d, existingConfig ≠ "" → parse existingConfig = Ok d →
        Backend.read_existing parse existingConfig = d).
Proof.
  unfold Backend.read_existing. split_and!.
  - by intros ->.
  - intros e He. rewrite He. by destruct (String.eqb _ _).
  - intros d Hne Hd. rewrite Hd.
    destruct (String.eqb_spec existingConfig ""); done.
Qed.

(** C10. When the incoming text does not parse, [mergeKubeconfig]
    returns the existing document as it was read: the parsed existing
    text, or the empty mapping when that text is empty or does not parse.
    It does not raise and does not return the incoming text. *)
Theorem mergeKubeconfig_unparseable_incoming
  (parse : string → result yamldoc) (existingConfig newConfig : string)
  (e : exn) :
  parse newConfig = Throw e →
  Backend.mergeKubeconfig parse existingConfig newConfig
    = Ok (Backend.read_existing parse existingConfig) ∧
  (existingConfig = "" →
   Backend.mergeKubeconfig parse existingConfig newConfig
     = Ok (DMap empty_config)) ∧
  (∀ e', parse existingConfig = Throw e' →
   Backend.mergeKubeconfig parse existingConfig newConfig
     = Ok (DMap empty_config)) ∧
  (∀ d, existingConfig ≠ "" → parse existingConfig = Ok d →
   Backend.mergeKubeconfig parse existingConfig newConfig = Ok d).
Proof.
  intros Hnew.
  assert (Backend.mergeKubeconfig parse existingConfig newConfig
          = Ok (Backend.read_existing parse existingConfig)) as Hm.
  { unfold Backend.mergeKubeconfig. by rewrite Hnew. }
  destruct (read_existing_cases parse existingConfig) as (H1 & H2 & H3).
  split_and!; [done|..].
  - intros H. by rewrite Hm, H1.
  - intros e' H. by rewrite Hm, (H2 e').
  - intros d ? H. by rewrite Hm, (H3 d).
Qed.

Lemma mergeKubeconfig_unparseable_incoming_witness :
  Sample.parse "not: [yaml" = Throw (SyntaxError "not a YAML document") ∧
  Backend.mergeKubeconfig Sample.parse "existing" "not: [yaml"
    = Ok (DMap Sample.existing_cfg).
Proof.
  split; [reflexivity|].
  destruct (mergeKubeconfig_unparseable_incoming Sample.parse
              "existing" "not: [yaml" (SyntaxError "not a YAML document")
              eq_refl) as (_ & _ & _ & H).
  apply H; [discriminate | reflexivity].
Defined.

Lemma merge_current_context_spec existing incoming :
  (∀ s, incoming = Some s → s ≠ "" →
        Backend.merge_current_context existing incoming = Some s) ∧
  (incoming = None ∨ incoming = Some "" →
        Backend.merge_current_context existing incoming = existing).
Proof.
  unfold Backend.merge_current_context. split.
  - intros s -> Hs. by destruct (String.eqb_spec s "").
  - by intros [->| ->].
Qed.

Lemma no_keys_empty e : Backend.no_keys e = true ↔ e = empty_config.
Proof.
  split; [|by intros ->].
  destruct e as [[?|] [?|] [?|] [?|] [|? ?]]; done.
Qed.

(** C1, as amended. Take an incoming text that parses to a mapping.
    When the existing text is empty, does not parse, parses to [null] or
    parses to a mapping without keys, the merge returns the incoming
    document as parsed. When the existing text parses to a mapping with
    at least one key, the merge returns a mapping whose [clusters],
    [contexts] and [users] are the existing arrays (empty when absent)
    with every incoming record merged by name, in place or appended;
    whose [current-context] is the incoming one when that is a non-empty
    string and the existing one otherwise; and whose other keys are the
    existing ones. With cluster A existing and A, B incoming the result
    holds exactly the incoming A and B. *)
Theorem mergeKubeconfig_merges_by_name
  (parse : string → result yamldoc) (existingConfig newConfig : string)
  (n : KubeConfig) :
  parse newConfig = Ok (DMap n) →
  (existingConfig = "" →
   Backend.mergeKubeconfig parse existingConfig newConfig = Ok (DMap n)) ∧
  (∀ err, parse existingConfig = Throw err →
   Backend.mergeKubeconfig parse existingConfig newConfig = Ok (DMap n)) ∧
  (parse existingConfig = Ok DNull →
   Backend.mergeKubeconfig parse existingConfig newConfig = Ok (DMap n)) ∧
  (parse existingConfig = Ok (DMap empty_config) →
   Backend.mergeKubeconfig parse existingConfig newConfig = Ok (DMap n)) ∧
  (∀ e,
     existingConfig ≠ "" →
     parse existingConfig = Ok (DMap e) →
     e ≠ empty_config →
     ∃ m cs xs us,
       Backend.mergeKubeconfig parse existingConfig newConfig = Ok (DMap m) ∧
       clusters m = Some cs ∧ contexts m = Some xs ∧ users m = Some us ∧
       merged_in_place name
         (default [] (clusters e)) (default [] (clusters n)) cs ∧
       merged_in_place name
         (default [] (contexts e)) (default [] (contexts n)) xs ∧
       merged_in_place uname
         (default [] (users e)) (default [] (users n)) us ∧
       (∀ s, current_context n = Some s → s ≠ "" →
          current_context m = Some s) ∧
       (current_context n = None ∨ current_context n = Some "" →
          current_context m = current_context e) ∧
       extra m = extra e ∧
       (∀ a a' b, clusters e = Some [a] → clusters n = Some [a'; b] →
          name a' = name a → name b ≠ name a → cs = [a'; b])).
Proof.
  intros Hn.
  destruct (read_existing_cases parse existingConfig) as (Hempty & Hbad & Hgood).
  assert (∀ d, Backend.read_existing parse existingConfig = d →
               Backend.is_blank d = true →
               Backend.mergeKubeconfig parse existingConfig newConfig
               = Ok (DMap n)) as Hblank.
  { intros d Hd Hb. unfold Backend.mergeKubeconfig. rewrite Hn, Hd.
    unfold Backend.merge_parsed. by rewrite Hb. }
  split_and!.
  - intros H. by apply (Hblank _ (Hempty H)).
  - intros err H. by apply (Hblank _ (Hbad err H)).
  - intros H. destruct (String.eqb_spec existingConfig "") as [Hnil|Hfull].
    + by apply (Hblank _ (Hempty Hnil)).
    + by apply (Hblank _ (Hgood DNull Hfull H)).
  - intros H. destruct (String.eqb_spec existingConfig "") as [Hnil|Hfull].
    + by apply (Hblank _ (Hempty Hnil)).
    + by apply (Hblank _ (Hgood (DMap empty_config) Hfull H)).
  - intros e Hne He Hkeys.
    assert (Backend.no_keys e = false) as Hfalse.
    { destruct (Backend.no_keys e) eqn:Hk; [|done].
      by apply no_keys_empty in Hk. }
    exists (Backend.merge_into e n). eexists _, _, _.
    split_and!; try reflexivity.
    + unfold Backend.mergeKubeconfig.
      rewrite (Hgood (DMap e)) by done.
      rewrite Hn. unfold Backend.merge_parsed. simpl. by rewrite Hfalse.
    + apply merge_array_in_place_spec.
    + apply merge_array_in_place_spec.
    + apply merge_array_in_place_spec.
    + apply merge_current_context_spec.
    + apply merge_current_context_spec.
    + intros a a' b Ha Hb Hk1 Hk2. simpl. rewrite Ha, Hb. simpl.
      unfold Backend.upsert at 2, Backend.findIndex. simpl.
      rewrite decide_True by congruence. simpl.
      unfold Backend.upsert, Backend.findIndex. simpl.
      rewrite decide_False by congruence. done.
Qed.

Lemma mergeKubeconfig_merges_by_name_witness :
  (∃ m,
     Backend.mergeKubeconfig Sample.parse "existing" "incoming"
       = Ok (DMap m) ∧
     clusters m = Some [Sample.cluster "A" "https://new.example";
                        Sample.cluster "B" "https://b.example"] ∧
     current_context m = Some "B") ∧
  Backend.mergeKubeconfig Sample.parse "{}" "incoming"
    = Ok (DMap Sample.incoming_cfg).
Proof.
  destruct (mergeKubeconfig_merges_by_name Sample.parse "existing" "incoming"
              Sample.incoming_cfg eq_refl) as (_ & _ & _ & _ & Hmerge).
  destruct (mergeKubeconfig_merges_by_name Sample.parse "{}" "incoming"
              Sample.incoming_cfg eq_refl) as (_ & _ & _ & Hblank & _).
  split; [|by apply Hblank].
  destruct (Hmerge Sample.existing_cfg)
    as (m & cs & xs & us & Hm & Hcs & _ & _ & _ & _ & _ &
        Hcc & _ & _ & Hscen);
    [discriminate | reflexivity | discriminate |].
  exists m. split_and!; [done| |].
  - rewrite Hcs. f_equal.
    apply (Hscen (Sample.cluster "A" "https://old.example"));
      [reflexivity | reflexivity | reflexivity | discriminate].
  - apply Hcc; [reflexivity | discriminate].
Defined.

(** C1, as stated, fails on an existing document without keys: the text
    [{}] parses, the incoming document has no [contexts] and no [users],
    and the result is the incoming document as it is; the absent arrays
    are not initialised to empty. *)
Lemma mergeKubeconfig_blank_existing_counterexample :
  Sample.parse "{}" = Ok (DMap empty_config) ∧
  Sample.parse "clusters-only" = Ok (DMap Sample.clusters_only_cfg) ∧
  ∃ m,
    Backend.mergeKubeconfig Sample.parse "{}" "clusters-only" = Ok (DMap m) ∧
    contexts m = None ∧ users m = None.
Proof.
  split_and!; [reflexivity..|].
  exists Sample.clusters_only_cfg. split_and!; reflexivity.
Qed.

Lemma unique_names_empty : unique_names empty_config.
Proof. repeat split; constructor. Qed.

Lemma read_existing_unique parse existingConfig :
  when_parsed doc_unique (parse existingConfig) →
  doc_unique (Backend.read_existing parse existingConfig).
Proof.
  unfold Backend.read_existing. intros H.
  destruct (String.eqb _ _); [apply unique_names_empty|].
  destruct (parse existingConfig); [done|apply unique_names_empty].
Qed.

Lemma merge_into_unique e n :
  unique_names e → unique_names (Backend.merge_into e n).
Proof.
  intros (Hc & Hx & Hu). repeat split; simpl; by apply merge_array_NoDup.
Qed.

Lemma merge_parsed_unique existing newCfg :
  doc_unique existing → doc_unique newCfg →
  match Backend.merge_parsed existing newCfg with
  | Ok merged => doc_unique merged
  | Throw _ => newCfg = DNull ∧ Backend.is_blank existing = false
  end.
Proof.
  intros He Hn. unfold Backend.merge_parsed.
  destruct (Backend.is_blank existing) eqn:Hb; [done|].
  destruct existing as [|e]; [done|]. destruct newCfg as [|n]; [done|].
  by apply merge_into_unique.
Qed.

(** C6. If the names in each of the three arrays of the existing and of
    the incoming document are unique, so are they in the merged
    document. The merge returns a document in every case but one: the
    incoming text parses to [null] while the existing document has
    keys. *)
Theorem mergeKubeconfig_preserves_unique_names
  (parse : string → result yamldoc) (existingConfig newConfig : string) :
  when_parsed doc_unique (parse existingConfig) →
  when_parsed doc_unique (parse newConfig) →
  match Backend.mergeKubeconfig parse existingConfig newConfig with
  | Ok merged => doc_unique merged
  | Throw _ =>
      parse newConfig = Ok DNull ∧
      Backend.is_blank (Backend.read_existing parse existingConfig) = false
  end.
Proof.
  intros He Hn. apply read_existing_unique in He.
  unfold Backend.mergeKubeconfig.
  destruct (parse newConfig) as [newCfg|] eqn:Hp; [|done].
  pose proof (merge_parsed_unique _ _ He Hn) as H.
  destruct (Backend.merge_parsed _ newCfg); [done|].
  destruct H as [-> ?]. done.
Qed.

Lemma sample_existing_unique : unique_names Sample.existing_cfg.
Proof. repeat split; apply (bool_decide_unpack _); vm_compute; exact I. Defined.

Lemma sample_incoming_unique : unique_names Sample.incoming_cfg.
Proof. repeat split; apply (bool_decide_unpack _); vm_compute; exact I. Defined.

Lemma mergeKubeconfig_preserves_unique_names_witness :
  unique_names (Backend.merge_into Sample.existing_cfg Sample.incoming_cfg).
Proof.
  exact (mergeKubeconfig_preserves_unique_names Sample.parse
           "existing" "incoming" sample_existing_unique sample_incoming_unique).
Defined.

Lemma merge_current_context_idempotent a b :
  Backend.merge_current_context (Backend.merge_current_context a b) b
  = Backend.merge_current_context a b.
Proof.
  unfold Backend.merge_current_context. destruct b as [s|]; [|done].
  destruct (String.eqb s "") eqn:Hs; simpl; rewrite ?Hs; done.
Qed.

Lemma merge_current_context_self a : Backend.merge_current_context a a = a.
Proof.
  unfold Backend.merge_current_context. destruct a as [s|]; [|done].
  by destruct (String.eqb s "").
Qed.

Lemma merge_into_idempotent e n :
  Backend.merge_into (Backend.merge_into e n) n = Backend.merge_into e n.
Proof.
  unfold Backend.merge_into. simpl.
  by rewrite !merge_array_idempotent, merge_current_context_idempotent.
Qed.

Lemma merge_into_self n :
  is_Some (clusters n) → is_Some (contexts n) → is_Some (users n) →
  unique_names n → Backend.merge_into n n = n.
Proof.
  destruct n as [cs xs us cc ex]. simpl.
  intros [cs' ->] [xs' ->] [us' ->] (Hc & Hx & Hu). simpl in *.
  unfold Backend.merge_into. simpl.
  by rewrite !merge_array_self, merge_current_context_self.
Qed.

Lemma merge_parsed_idempotent existing newCfg merged :
  Backend.merge_parsed existing newCfg = Ok merged →
  Backend.is_blank existing = false ∨ doc_settled newCfg →
  Backend.merge_parsed merged newCfg = Ok merged.
Proof.
  unfold Backend.merge_parsed at 1.
  destruct (Backend.is_blank existing) eqn:Hb.
  - intros [= <-] [?|Hs]; [done|]. unfold Backend.merge_parsed.
    destruct (Backend.is_blank newCfg) eqn:Hbn; [done|].
    destruct newCfg as [|n]; [done|]. simpl in Hbn, Hs.
    destruct Hs as [Hk|(? & ? & ? & ?)]; [congruence|].
    by rewrite merge_into_self.
  - destruct existing as [|e]; [done|]. destruct newCfg as [|n]; [done|].
    intros [= <-] _. unfold Backend.merge_parsed. simpl.
    by rewrite merge_into_idempotent.
Qed.

(** C5, as amended. Let [merged] be the result of a merge, written out
    and read back without loss. Merging the same incoming text into it
    again gives [merged], provided the existing document of the first
    merge had at least one key, or the incoming document is settled: it
    is not a mapping, has no key, or has all three arrays with unique
    names in each. *)
Theorem mergeKubeconfig_idempotent
  (parse : string → result yamldoc) (stringify : yamldoc → string)
  (existingConfig newConfig : string) (merged : yamldoc) :
  Backend.mergeKubeconfig parse existingConfig newConfig = Ok merged →
  stringify merged ≠ "" →
  parse (stringify merged) = Ok merged →
  Backend.is_blank (Backend.read_existing parse existingConfig) = false ∨
    when_parsed doc_settled (parse newConfig) →
  Backend.mergeKubeconfig parse (stringify merged) newConfig = Ok merged.
Proof.
  intros Hm Hne Hrt Hcond. unfold Backend.mergeKubeconfig in *.
  rewrite (proj2 (proj2 (read_existing_cases parse (stringify merged)))
             merged) by done.
  destruct (parse newConfig) as [newCfg|]; [|done].
  by eapply merge_parsed_idempotent.
Qed.

Lemma mergeKubeconfig_idempotent_witness :
  Backend.mergeKubeconfig Sample.parse "merged" "incoming"
  = Ok (DMap (Backend.merge_into Sample.existing_cfg Sample.incoming_cfg)).
Proof.
  refine (mergeKubeconfig_idempotent Sample.parse Sample.stringify
            "existing" "incoming"
            (DMap (Backend.merge_into Sample.existing_cfg Sample.incoming_cfg))
            _ _ _ _).
  - reflexivity.
  - vm_compute. discriminate.
  - reflexivity.
  - left. reflexivity.
Defined.

(** C5, as stated, fails when the first merge starts from nothing: the
    incoming document with only a [clusters] array is returned as it is,
    and merging the same text into that result adds empty [contexts] and
    [users] arrays. *)
Lemma mergeKubeconfig_not_idempotent_counterexample :
  Backend.mergeKubeconfig Sample.parse "" "clusters-only"
    = Ok (DMap Sample.clusters_only_cfg) ∧
  Sample.stringify (DMap Sample.clusters_only_cfg) = "clusters-only" ∧
  ∃ again,
    Backend.mergeKubeconfig Sample.parse "clusters-only" "clusters-only"
      = Ok (DMap again) ∧
    users again = Some [] ∧ contexts again = Some [] ∧
    DMap again ≠ DMap Sample.clusters_only_cfg.
Proof.
  split_and!; [reflexivity..|].
  eexists. split_and!; [reflexivity..|]. discriminate.
Qed.

(** ** The credential rewrite *)

Section ObjectFacts.
Context {V : Type}.
Implicit Types (o : list (string * V)) (k : string).

Lemma js_get_delete_eq k o : js_get k (js_delete k o) = None.
Proof.
  induction o as [|[k' v] o IH]; simpl; [done|].
  destruct (String.eqb k k') eqn:Hk; [done|]. simpl. by rewrite Hk.
Qed.

Lemma js_get_delete_ne k k' o :
  k ≠ k' → js_get k' (js_delete k o) = js_get k' o.
Proof.
  intros Hne. induction o as [|[k'' v] o IH]; simpl; [done|].
  destruct (String.eqb_spec k k'') as [<-|]; simpl.
  - destruct (String.eqb_spec k' k); [congruence|done].
  - by rewrite IH.
Qed.

Lemma js_get_set_eq k v o : js_get k (js_set k v o) = Some v.
Proof.
  induction o as [|[k' v'] o IH]; simpl.
  - by rewrite String.eqb_refl.
  - destruct (String.eqb k k') eqn:Hk; simpl.
    + by rewrite String.eqb_refl.
    + by rewrite Hk.
Qed.

Lemma js_get_set_ne k k' v o :
  k ≠ k' → js_get k' (js_set k v o) = js_get k' o.
Proof.
  intros Hne. induction o as [|[k'' v'] o IH]; simpl.
  - destruct (String.eqb_spec k' k); [congruence|done].
  - destruct (String.eqb_spec k k'') as [<-|]; simpl.
    + destruct (String.eqb_spec k' k); [congruence|done].
    + by rewrite IH.
Qed.

Lemma js_delete_keys k o k' : k' ∈ (js_delete k o).*1 → k' ∈ o.*1.
Proof.
  induction o as [|[k'' v] o IH]; simpl; [done|].
  destruct (String.eqb k k''); simpl.
  - intros ?. right. auto.
  - intros [->|?]%elem_of_cons; [left|right; auto].
Qed.

Lemma js_delete_NoDup k o : NoDup o.*1 → NoDup (js_delete k o).*1.
Proof.
  induction o as [|[k' v] o IH]; simpl; [done|].
  intros [Hnin Hnd]%NoDup_cons. destruct (String.eqb k k'); simpl; [auto|].
  apply NoDup_cons. split; [|auto]. intros ?%js_delete_keys. done.
Qed.

Lemma js_set_keys k v o k' : k' ∈ (js_set k v o).*1 → k' = k ∨ k' ∈ o.*1.
Proof.
  induction o as [|[k'' v'] o IH]; simpl.
  - intros ->%list_elem_of_singleton. by left.
  - destruct (String.eqb_spec k k'') as [<-|]; simpl.
    + intros [->|?]%elem_of_cons; [by left|right; by right].
    + intros [->|?]%elem_of_cons; [right; left|].
      destruct IH as [?|?]; [done|by left|right; by right].
Qed.

Lemma js_set_NoDup k v o : NoDup o.*1 → NoDup (js_set k v o).*1.
Proof.
  induction o as [|[k' v'] o IH]; simpl.
  - intros _. apply NoDup_singleton.
  - intros [Hnin Hnd]%NoDup_cons.
    destruct (String.eqb_spec k k') as [<-|Hne]; simpl.
    + by apply NoDup_cons.
    + apply NoDup_cons. split; [|auto].
      intros [?|?]%js_set_keys; [congruence|done].
Qed.
End ObjectFacts.

(** A tactic for reading a field after the chain of deletions and the
    assignment of the backend's [configure]. *)
Ltac read_field :=
  repeat first
    [ rewrite js_get_set_eq
    | rewrite js_get_delete_eq
    | rewrite js_get_set_ne by discriminate
    | rewrite js_get_delete_ne by discriminate ].

Lemma backend_exec_block path_join platform env_PATH isDev resourcesPath :
  Backend.exec_block platform env_PATH
    (Backend.getExecutablePaths path_join platform isDev resourcesPath)
  = backend_exec path_join platform env_PATH isDev resourcesPath.
Proof.
  unfold Backend.exec_block, backend_exec, exec_descriptor, or_else.
  cbn [map fst snd]. by destruct (String.eqb (default "" env_PATH) "") eqn:H;
    [apply String.eqb_eq in H as ->|].
Qed.

Lemma plugin_exec_block platform env_PATH kubeloginPath pythonPath
  azCliBinPath externalToolsBinPath :
  Plugin.exec_block platform env_PATH kubeloginPath pythonPath azCliBinPath
    externalToolsBinPath
  = plugin_exec platform env_PATH kubeloginPath pythonPath azCliBinPath
      externalToolsBinPath.
Proof.
  unfold Plugin.exec_block, plugin_exec, exec_descriptor, or_else.
  cbn [map fst snd]. by destruct (String.eqb (default "" env_PATH) "") eqn:H;
    [apply String.eqb_eq in H as ->|].
Qed.

(** What the backend's [configure] leaves of a [user] mapping. *)
Lemma backend_configure platform env_PATH p u :
  (∀ f, f ∈ legacy_fields → f ≠ "auth-provider" →
     js_get f (Backend.configure platform env_PATH p u) = None) ∧
  (js_truthy "auth-provider" u = true →
   js_get "auth-provider" (Backend.configure platform env_PATH p u) = None) ∧
  js_truthy "auth-provider" (Backend.configure platform env_PATH p u)
    = false ∧
  js_get "exec" (Backend.configure platform env_PATH p u)
    = Some (Backend.exec_block platform env_PATH p) ∧
  (∀ f, f ∉ legacy_fields → f ≠ "exec" →
     js_get f (Backend.configure platform env_PATH p u) = js_get f u) ∧
  (NoDup u.*1 → NoDup (Backend.configure platform env_PATH p u).*1).
Proof.
  unfold Backend.configure. split_and!.
  - intros f Hf Hne. unfold legacy_fields in Hf.
    repeat (apply elem_of_cons in Hf as [->|Hf]); try done;
      try (by read_field).
    by apply elem_of_nil in Hf.
  - intros ->. by read_field.
  - unfold js_truthy at 1. read_field.
    destruct (js_truthy "auth-provider" u) eqn:Ht.
    + by read_field.
    + apply Ht.
  - by read_field.
  - intros f Hf Hne. unfold legacy_fields in Hf.
    rewrite !not_elem_of_cons in Hf.
    destruct Hf as (? & ? & ? & ? & ? & ? & _).
    rewrite js_get_set_ne by done. rewrite !js_get_delete_ne by done.
    destruct (js_truthy "auth-provider" u); [|done].
    by rewrite js_get_delete_ne.
  - intros Hnd. apply js_set_NoDup. do 5 apply js_delete_NoDup.
    destruct (js_truthy "auth-provider" u); [|done].
    by apply js_delete_NoDup.
Qed.

Lemma backend_configure_user path_join platform env_PATH isDev resourcesPath e :
  backend_rewritten
    (backend_exec path_join platform env_PATH isDev resourcesPath) e
    (Backend.configure_user platform env_PATH
       (Backend.getExecutablePaths path_join platform isDev resourcesPath) e).
Proof.
  unfold Backend.configure_user. destruct e as [n [[| | | | |u]|]];
    try (by split).
  split; [done|]. cbn [user]. eexists. split; [done|].
  rewrite <- backend_exec_block. apply backend_configure.
Qed.

Lemma plugin_configure_user platform env_PATH kubeloginPath pythonPath
  azCliBinPath externalToolsBinPath e :
  plugin_rewritten
    (plugin_exec platform env_PATH kubeloginPath pythonPath azCliBinPath
       externalToolsBinPath) e
    (Plugin.configure_user
       (Plugin.exec_block platform env_PATH kubeloginPath pythonPath
          azCliBinPath externalToolsBinPath) e).
Proof.
  unfold Plugin.configure_user. destruct e as [n [[| | | | |u]|]];
    try (by split).
  split; [done|]. cbn [user]. eexists. split_and!; [done| | |].
  - rewrite <- plugin_exec_block. apply js_get_set_eq.
  - intros f Hne. by rewrite js_get_set_ne.
  - apply js_set_NoDup.
Qed.

Lemma Forall2_map_related {A : Type} (R : A → A → Prop) (f : A → A)
  (l : list A) :
  (∀ x, R x (f x)) → Forall2 R l (map f l).
Proof. intros H. induction l; constructor; auto. Qed.

(** *** The loop over the users *)

(** A turn raises exactly on the records that cannot take [exec]. *)
Lemma backend_configure_turn platform env_PATH p e :
  Backend.configure_turn platform env_PATH p e =
  if takes_exec e then Ok (Backend.configure_user platform env_PATH p e)
  else Throw (cannot_create_exec (default VNull (user e))).
Proof.
  unfold Backend.configure_turn, Backend.configure_user, takes_exec.
  destruct e as [n [[|[]|z|s| |]|]]; cbn [user truthy negb default]; try done.
  - by destruct (Z.eqb z 0).
  - by destruct (String.eqb s "").
Qed.

Lemma plugin_configure_turn exec e :
  Plugin.configure_turn exec e =
  if takes_exec e then Ok (Plugin.configure_user exec e)
  else Throw (cannot_create_exec (default VNull (user e))).
Proof.
  unfold Plugin.configure_turn, Plugin.configure_user, takes_exec.
  destruct e as [n [[|[]|z|s| |]|]]; cbn [user truthy negb default]; try done.
  - by destruct (Z.eqb z 0).
  - by destruct (String.eqb s "").
Qed.

Section Loop.
Variable turn : user_entry → result user_entry.
Variable done_turn : user_entry → user_entry.
Hypothesis turn_spec :
  ∀ e, turn e = if takes_exec e then Ok (done_turn e)
                else Throw (cannot_create_exec (default VNull (user e))).

Lemma loop_runs us :
  Forall (λ e, takes_exec e = true) us →
  mapM turn us = Ok (map done_turn us).
Proof.
  induction 1 as [|e us He _ IH]; [done|].
  cbn [mapM]. rewrite turn_spec, He. cbn. rewrite IH. done.
Qed.

Lemma loop_raises us :
  ¬ Forall (λ e, takes_exec e = true) us →
  ∃ msg, mapM turn us = Throw (TypeError msg).
Proof.
  induction us as [|e us IH]; intros Hno.
  - destruct Hno. constructor.
  - cbn [mapM]. rewrite turn_spec.
    destruct (takes_exec e) eqn:He; [|by eexists].
    destruct IH as [msg Hmsg]; [by intros ?; apply Hno; constructor|].
    cbn. rewrite Hmsg. by eexists.
Qed.

Lemma loop_Ok us us' :
  mapM turn us = Ok us' →
  Forall (λ e, takes_exec e = true) us ∧ us' = map done_turn us.
Proof.
  intros Hok.
  destruct (decide (Forall (λ e, takes_exec e = true) us)) as [Hall|Hno].
  - split; [done|]. rewrite (loop_runs us Hall) in Hok. congruence.
  - destruct (loop_raises us Hno) as [msg Hmsg]. congruence.
Qed.
End Loop.

Lemma plugin_paths_resolved isDev platform dirname process_resourcesPath :
  paths_resolve isDev process_resourcesPath →
  ∃ kubeloginPath pythonPath bins,
    Plugin.getAzKubeloginPath isDev dirname process_resourcesPath
      = Ok kubeloginPath ∧
    Plugin.getBundledPythonPath isDev platform dirname process_resourcesPath
      = Ok pythonPath ∧
    Plugin.bin_paths isDev platform dirname process_resourcesPath = Ok bins.
Proof.
  unfold Plugin.getAzKubeloginPath, Plugin.getBundledPythonPath,
    Plugin.bin_paths, Plugin.require_resourcesPath.
  intros [->|[rp Hrp]].
  - eexists _, _, _. split_and!; reflexivity.
  - rewrite Hrp. destruct isDev; simpl; eexists _, _, _; split_and!; reflexivity.
Qed.

Lemma plugin_paths_unresolved isDev dirname process_resourcesPath :
  ¬ paths_resolve isDev process_resourcesPath →
  ∃ e, Plugin.getAzKubeloginPath isDev dirname process_resourcesPath = Throw e.
Proof.
  unfold paths_resolve, Plugin.getAzKubeloginPath,
    Plugin.require_resourcesPath.
  intros Hno. destruct isDev; [by destruct Hno; left|].
  destruct (Plugin.getResourcesPath process_resourcesPath) eqn:Hrp.
  - destruct Hno. right. eauto.
  - simpl. eauto.
Qed.

Section RewriteClaims.
Variables (parse load : string → result yamldoc).
Variables (stringify dump : yamldoc → string).
Variable path_join : list string → string.
Variables (platform dirname : string) (env_PATH : option string).
Variables (isDev : bool) (resourcesPath : string).
Variable process_resourcesPath : option string.

(** C2, as amended. Take a kubeconfig that parses to a mapping with a
    [users] array. When every [user] is missing, falsy or an object, the
    backend rewrite returns the printed document in which every element
    of [users] is rewritten as [backend_rewritten] says: an element
    whose [user] is not a mapping untouched; in a [user] mapping the five
    token, certificate and key fields deleted, [auth-provider] deleted
    when truthy, every other field kept, and [exec] set once, to the
    descriptor with the resolved interpreter, the login helper, the
    server id, [PATH] and [AZ_CLI_PATH]. The plugin-side copy, when its
    paths resolve, sets [exec] (with [PATH] only) in the same mappings
    and keeps every other field. When some [user] is a truthy primitive the
    backend raises a [TypeError] and the plugin-side copy returns the
    text; the plugin-side copy also returns the text when its paths do
    not resolve. *)
Theorem addAzKubeloginToKubeconfig_rewrites_users
  (text : string) (k : KubeConfig) (us : list user_entry) :
  parse text = Ok (DMap k) →
  load text = Ok (DMap k) →
  users k = Some us →
  (Forall (λ e, takes_exec e = true) us →
   (∃ us',
      Backend.addAzKubeloginToKubeconfig parse stringify path_join platform
        env_PATH text isDev resourcesPath
        = Ok (stringify (DMap (with_users k us'))) ∧
      Forall2
        (backend_rewritten
           (backend_exec path_join platform env_PATH isDev resourcesPath))
        us us') ∧
   (paths_resolve isDev process_resourcesPath →
    ∃ kubeloginPath pythonPath bins us',
      Plugin.getAzKubeloginPath isDev dirname process_resourcesPath
        = Ok kubeloginPath ∧
      Plugin.getBundledPythonPath isDev platform dirname
        process_resourcesPath = Ok pythonPath ∧
      Plugin.bin_paths isDev platform dirname process_resourcesPath
        = Ok bins ∧
      Plugin.addAzKubeloginToKubeconfig load dump isDev platform dirname
        process_resourcesPath env_PATH text
        = dump (DMap (with_users k us')) ∧
      Forall2
        (plugin_rewritten
           (plugin_exec platform env_PATH kubeloginPath pythonPath
              bins.1 bins.2))
        us us')) ∧
  (¬ Forall (λ e, takes_exec e = true) us →
   (∃ msg,
      Backend.addAzKubeloginToKubeconfig parse stringify path_join platform
        env_PATH text isDev resourcesPath = Throw (TypeError msg)) ∧
   Plugin.addAzKubeloginToKubeconfig load dump isDev platform dirname
     process_resourcesPath env_PATH text = text) ∧
  (¬ paths_resolve isDev process_resourcesPath →
   Plugin.addAzKubeloginToKubeconfig load dump isDev platform dirname
     process_resourcesPath env_PATH text = text).
Proof.
  intros Hparse Hload Hus. split_and!.
  - intros Hall. split.
    + unfold Backend.addAzKubeloginToKubeconfig. rewrite Hparse, Hus.
      rewrite (loop_runs _ _ (backend_configure_turn platform env_PATH _)
                 us Hall).
      eexists. split; [done|].
      apply Forall2_map_related. intros e. apply backend_configure_user.
    + intros Hres.
      destruct (plugin_paths_resolved isDev platform dirname
                  process_resourcesPath Hres)
        as (kp & pp & bins & Hkp & Hpp & Hbins).
      exists kp, pp, bins.
      unfold Plugin.addAzKubeloginToKubeconfig, Plugin.try_rewrite.
      rewrite Hload. cbn. rewrite Hus, Hkp. cbn. rewrite Hpp. cbn.
      rewrite Hbins. cbn.
      rewrite (loop_runs _ _ (plugin_configure_turn _) us Hall). cbn.
      eexists. split_and!; [done..|].
      apply Forall2_map_related. intros e. apply plugin_configure_user.
  - intros Hno. split.
    + unfold Backend.addAzKubeloginToKubeconfig. rewrite Hparse, Hus.
      destruct (loop_raises _ _ (backend_configure_turn platform env_PATH
                  (Backend.getExecutablePaths path_join platform isDev
                     resourcesPath)) us Hno) as [msg ->].
      by exists msg.
    + unfold Plugin.addAzKubeloginToKubeconfig, Plugin.try_rewrite.
      rewrite Hload. cbn. rewrite Hus.
      destruct (Plugin.getAzKubeloginPath _ _ _) as [kp|]; [|done]. cbn.
      destruct (Plugin.getBundledPythonPath _ _ _ _) as [pp|]; [|done]. cbn.
      destruct (Plugin.bin_paths _ _ _ _) as [bins|]; [|done]. cbn.
      destruct (loop_raises _ _ (plugin_configure_turn
                  (Plugin.exec_block platform env_PATH kp pp bins.1 bins.2))
                  us Hno) as [msg ->].
      done.
  - intros Hno.
    destruct (plugin_paths_unresolved isDev dirname process_resourcesPath Hno)
      as [e He].
    unfold Plugin.addAzKubeloginToKubeconfig, Plugin.try_rewrite.
    rewrite Hload. cbn. rewrite Hus, He. done.
Qed.

(** C7. A text that does not parse is returned as it is by both copies
    of the rewrite; neither raises. *)
Theorem addAzKubeloginToKubeconfig_unparseable (text : string) (e e' : exn) :
  parse text = Throw e →
  load text = Throw e' →
  Backend.addAzKubeloginToKubeconfig parse stringify path_join platform
    env_PATH text isDev resourcesPath = Ok text ∧
  Plugin.addAzKubeloginToKubeconfig load dump isDev platform dirname
    process_resourcesPath env_PATH text = text.
Proof.
  intros Hparse Hload. split.
  - unfold Backend.addAzKubeloginToKubeconfig. by rewrite Hparse.
  - unfold Plugin.addAzKubeloginToKubeconfig, Plugin.try_rewrite.
    by rewrite Hload.
Qed.
End RewriteClaims.

Lemma addAzKubeloginToKubeconfig_rewrites_users_witness :
  (∃ us',
     Backend.addAzKubeloginToKubeconfig Sample.parse Sample.render
       Sample.path_join "linux" (Some "/usr/bin") "legacy-users" false
       "/opt/app/resources"
       = Ok (Sample.render (DMap (with_users Sample.legacy_users_cfg us'))) ∧
     Forall2
       (backend_rewritten
          (backend_exec Sample.path_join "linux" (Some "/usr/bin") false
             "/opt/app/resources"))
       [Sample.token_user "alice" "secret"; UserEntry "bob" None] us') ∧
  (∃ msg,
     Backend.addAzKubeloginToKubeconfig Sample.parse Sample.render
       Sample.path_join "linux" (Some "/usr/bin") "scalar-user" false
       "/opt/app/resources" = Throw (TypeError msg)) ∧
  Plugin.addAzKubeloginToKubeconfig Sample.parse Sample.render false "linux"
    "/opt/app/dist" (Some "/opt/app/resources") (Some "/usr/bin")
    "scalar-user" = "scalar-user".
Proof.
  split.
  - refine (proj1 (proj1 (addAzKubeloginToKubeconfig_rewrites_users
                     Sample.parse Sample.parse Sample.render Sample.render
                     Sample.path_join "linux" "/opt/app/dist"
                     (Some "/usr/bin") false "/opt/app/resources"
                     (Some "/opt/app/resources")
                     "legacy-users" Sample.legacy_users_cfg
                     [Sample.token_user "alice" "secret"; UserEntry "bob" None]
                     eq_refl eq_refl eq_refl) _)).
    repeat constructor.
  - refine (proj1 (proj2 (addAzKubeloginToKubeconfig_rewrites_users
                     Sample.parse Sample.parse Sample.render Sample.render
                     Sample.path_join "linux" "/opt/app/dist"
                     (Some "/usr/bin") false "/opt/app/resources"
                     (Some "/opt/app/resources")
                     "scalar-user" Sample.scalar_user_cfg
                     [Sample.token_user "alice" "secret";
                      UserEntry "dave" (Some (VStr "certificate"))]
                     eq_refl eq_refl eq_refl)) _).
    intros Hall. apply Forall_cons in Hall as [_ Hall].
    apply Forall_cons in Hall as [Hdave _]. discriminate.
Defined.

(** C2, as stated, fails in four ways. The plugin-side copy, run on a
    user that carries a bearer token, adds [exec] and keeps [token],
    where the backend rewrite of the same text leaves [exec] alone; and
    without a resources path outside development mode it rewrites
    nothing. The backend keeps an [auth-provider] that holds [null].
    And on a record whose [user] is a text the backend raises, the
    record before it notwithstanding, and the plugin-side copy returns
    its input. *)
Lemma addAzKubeloginToKubeconfig_counterexample :
  Plugin.addAzKubeloginToKubeconfig Sample.parse Sample.render true "linux"
    "/opt/app/dist" None (Some "/usr/bin") "legacy-users"
    = "alice:token,exec;bob:-" ∧
  Backend.addAzKubeloginToKubeconfig Sample.parse Sample.render
    Sample.path_join "linux" (Some "/usr/bin") "legacy-users" true
    "/opt/app/resources"
    = Ok "alice:exec;bob:-" ∧
  Plugin.addAzKubeloginToKubeconfig Sample.parse Sample.render false "linux"
    "/opt/app/dist" None (Some "/usr/bin") "legacy-users"
    = "legacy-users" ∧
  Backend.addAzKubeloginToKubeconfig Sample.parse Sample.render
    Sample.path_join "linux" (Some "/usr/bin") "null-provider" true
    "/opt/app/resources"
    = Ok "carol:auth-provider,exec" ∧
  Backend.addAzKubeloginToKubeconfig Sample.parse Sample.render
    Sample.path_join "linux" (Some "/usr/bin") "scalar-user" true
    "/opt/app/resources"
    = Throw (TypeError
               "Cannot create property 'exec' on string 'certificate'") ∧
  Plugin.addAzKubeloginToKubeconfig Sample.parse Sample.render true "linux"
    "/opt/app/dist" None (Some "/usr/bin") "scalar-user"
    = "scalar-user".
Proof. split_and!; reflexivity. Qed.

Lemma addAzKubeloginToKubeconfig_unparseable_witness :
  Backend.addAzKubeloginToKubeconfig Sample.parse Sample.render
    Sample.path_join "linux" None "users: [" true "/opt/app/resources"
    = Ok "users: [" ∧
  Plugin.addAzKubeloginToKubeconfig Sample.parse Sample.render true "linux"
    "/opt/app/dist" None None "users: [" = "users: [".
Proof.
  exact (addAzKubeloginToKubeconfig_unparseable
           Sample.parse Sample.parse Sample.render Sample.render
           Sample.path_join "linux" "/opt/app/dist" None true
           "/opt/app/resources" None "users: ["
           (SyntaxError "not a YAML document")
           (SyntaxError "not a YAML document") eq_refl eq_refl).
Defined.

(** ** [registerAKSCluster] and its temporary file *)

Lemma existsSync_false p w :
  Backend.existsSync p w = false → Backend.files w !! p = None.
Proof.
  unfold Backend.existsSync. intros [H _]%orb_false_elim.
  apply bool_decide_eq_false in H. by apply eq_None_not_Some.
Qed.

Section RegisterClaims.
Variable parse : string → result yamldoc.
Variable stringify : yamldoc → string.
Variable path_join : list string → string.
Variable path_dirname : string → string.
Variables (platform : string) (env_PATH : option string).
Variables (tmpdir homedir now : string).
Variable az : string → list string → Backend.io Backend.cmd_result.
Variables (subscriptionId resourceGroup clusterName : string).
Variables (isAzureRBACEnabled isDev : bool) (resourcesPath : string).
Variable managedNamespace : option string.

Let temp := Backend.tempKubeconfigPath path_join tmpdir now.
Let args :=
  Backend.az_args path_join tmpdir now subscriptionId resourceGroup
    clusterName managedNamespace.
Let register :=
  Backend.registerAKSCluster parse stringify path_join path_dirname platform
    env_PATH tmpdir homedir now az subscriptionId resourceGroup clusterName
    isAzureRBACEnabled isDev resourcesPath managedNamespace.

(** When [az] exits with another code the call returns at once: the
    file system is as [az] left it. *)
Lemma registerAKSCluster_returns_early_on_exit_code w r w1 :
  az "az" args w = (Ok r, w1) →
  Backend.code r ≠ 0%Z →
  register w =
    (Backend.RegisterResult false
       ("Failed to get credentials: " +:+
        or_else (Backend.stderr r) "Unknown error"), w1).
Proof.
  intros Haz Hcode. unfold register, Backend.registerAKSCluster,
    Backend.try_register. fold args. rewrite Haz.
  apply Z.eqb_neq in Hcode. by rewrite Hcode.
Qed.

(** The same when running [az] raises. *)
Lemma registerAKSCluster_returns_early_on_exception w e w1 :
  az "az" args w = (Throw e, w1) →
  register w =
    (Backend.RegisterResult false
       ("Failed to get credentials: " +:+
        or_else (exn_message e) "Unknown error"), w1).
Proof.
  intros Haz. unfold register, Backend.registerAKSCluster,
    Backend.try_register. fold args. by rewrite Haz.
Qed.
End RegisterClaims.

(** A registration that succeeds: the kubeconfig is written and the
    temporary file is gone. *)
Example registerAKSCluster_success_run :
  let out :=
    Backend.registerAKSCluster Sample.parse Sample.stringify Sample.path_join
      Sample.path_dirname "linux" None "/tmp" "/home/u" "1700000000000"
      Sample.az_succeeds "sub" "rg" "aks" true false "/opt/app/resources"
      None Sample.home_fs in
  Backend.success out.1 = true ∧
  Backend.files out.2 !! "/home/u/.kube/config" = Some "incoming" ∧
  Backend.files out.2 !! "/tmp/kubeconfig-1700000000000.yaml" = None.
Proof. vm_compute. done. Qed.

(** C8 fails on the code. [az] creates the file it was given with
    [--file] and exits with code 1; [registerAKSCluster] returns from
    inside its [try] block, the handler that removes the file does not
    run, and the temporary file is still there after the call. *)
Theorem registerAKSCluster_leaves_temp_file_on_az_failure :
  let out :=
    Backend.registerAKSCluster Sample.parse Sample.stringify Sample.path_join
      Sample.path_dirname "linux" None "/tmp" "/home/u" "1700000000000"
      Sample.az_fails_after_writing "sub" "rg" "aks" true false
      "/opt/app/resources" None Sample.home_fs in
  out.1 = Backend.RegisterResult false
            "Failed to get credentials: ERROR: boom" ∧
  Backend.files out.2 !! "/tmp/kubeconfig-1700000000000.yaml"
    = Some "apiVersion: v1".
Proof. vm_compute. done. Qed.

(** ** [handleImport] *)

Module ImportFacts.
Import ImportPage ImportSpec.

(** *** Distinct elements *)

Section Nub.
Context {A : Type} `{EqDecision A}.
Implicit Types (l acc : list A).

Local Abbreviation step :=
  (λ (acc : list A) (x : A), if decide (x ∈ acc) then acc else acc ++ [x]).

Lemma nub_fold_elem_of l acc x : x ∈ foldl step acc l ↔ x ∈ acc ∨ x ∈ l.
Proof.
  revert acc. induction l as [|y l IH]; intros acc; simpl.
  - rewrite elem_of_nil. tauto.
  - rewrite IH, elem_of_cons. destruct (decide (y ∈ acc)).
    + split; [tauto|]. intros [?|[->|?]]; tauto.
    + rewrite elem_of_app, list_elem_of_singleton. tauto.
Qed.

Lemma nub_fold_NoDup l acc : NoDup acc → NoDup (foldl step acc l).
Proof.
  revert acc. induction l as [|y l IH]; intros acc Hnd; simpl; [done|].
  apply IH. destruct (decide (y ∈ acc)); [done|].
  apply NoDup_app. split_and!; [done| |apply NoDup_singleton].
  intros z Hz ->%list_elem_of_singleton. done.
Qed.

Lemma nub_first_elem_of l x : x ∈ nub_first l ↔ x ∈ l.
Proof.
  unfold nub_first. rewrite nub_fold_elem_of, elem_of_nil. tauto.
Qed.

Lemma nub_first_NoDup l : NoDup (nub_first l).
Proof. apply nub_fold_NoDup. constructor. Qed.

Lemma nub_first_snoc l x :
  nub_first (l ++ [x]) =
  if decide (x ∈ l) then nub_first l else nub_first l ++ [x].
Proof.
  unfold nub_first. rewrite foldl_snoc.
  fold (nub_first l). destruct (decide (x ∈ l)) as [Hin|Hin].
  - rewrite decide_True; [done|]. by apply nub_first_elem_of.
  - rewrite decide_False; [done|]. by rewrite nub_first_elem_of.
Qed.

Lemma nub_first_length l : length (nub_first l) ≤ length l.
Proof.
  induction l as [|x l IH] using rev_ind; [done|].
  rewrite nub_first_snoc, length_app. simpl.
  destruct (decide (x ∈ l)); [lia|]. rewrite length_app. simpl. lia.
Qed.
End Nub.

(** Distinct elements pass through a map that can be undone. *)
Lemma nub_first_map {A B : Type} `{EqDecision A} `{EqDecision B}
  (f : A → B) (g : B → A) (l : list A) :
  (∀ x, x ∈ l → g (f x) = x) →
  map g (nub_first (map f l)) = nub_first l.
Proof.
  induction l as [|x l IH] using rev_ind; intros Hg; [done|].
  rewrite map_app. simpl. rewrite !nub_first_snoc.
  assert (∀ y, y ∈ l → g (f y) = y) as Hl.
  { intros y Hy. apply Hg. apply elem_of_app. by left. }
  assert (g (f x) = x) as Hx.
  { apply Hg. apply elem_of_app. right. by left. }
  destruct (decide (x ∈ l)) as [Hin|Hin].
  - rewrite decide_True; [by apply IH|]. by apply list_elem_of_fmap_2.
  - rewrite decide_False.
    + rewrite map_app. simpl. by rewrite IH, Hx.
    + intros (y & Hfy & Hy)%list_elem_of_fmap. apply Hin.
      rewrite <- Hx, Hfy, Hl; done.
Qed.

(** *** Keys *)

Lemma split_on_bar_free s :
  bar_free s = true → split_on "|" s = [s].
Proof.
  induction s as [|c s IH]; simpl; [done|].
  intros [Hc Hs]%andb_prop. apply negb_true_iff in Hc.
  rewrite Hc, IH; done.
Qed.

Lemma split_on_prefix s rest :
  bar_free s = true →
  split_on "|" (s +:+ "|" +:+ rest) = s :: split_on "|" rest.
Proof.
  induction s as [|c s IH]; simpl; [done|].
  intros [Hc Hs]%andb_prop. apply negb_true_iff in Hc.
  rewrite Hc. by rewrite (IH Hs).
Qed.

Lemma key_triple_clusterKey item :
  bar_free_item item →
  key_triple (clusterKey (namespace item)) = triple_of item.
Proof.
  intros (Hc & Hr & Hs). unfold key_triple, clusterKey, triple_of.
  rewrite split_on_prefix, split_on_prefix, split_on_bar_free by done.
  done.
Qed.

(** A key always has three parts to read. *)
Lemma split_on_length_prefix s rest :
  length (split_on "|" rest) ≤ length (split_on "|" (s +:+ rest)).
Proof.
  induction s as [|c s IH]; simpl; [done|].
  destruct (Ascii.eqb c "|"); simpl; [lia|].
  destruct (split_on "|" (s +:+ rest)); simpl in *; lia.
Qed.

Lemma split_on_nonempty s : 1 ≤ length (split_on "|" s).
Proof.
  induction s as [|c s IH]; simpl; [done|].
  destruct (Ascii.eqb c "|"); simpl; [lia|].
  destruct (split_on "|" s); simpl in *; lia.
Qed.

Lemma clusterKey_three_parts n : 3 ≤ length (split_on "|" (clusterKey n)).
Proof.
  unfold clusterKey.
  pose proof (split_on_length_prefix (clusterName n)
                ("|" +:+ resourceGroup n +:+ "|" +:+ subscriptionId n)) as H1.
  pose proof (split_on_length_prefix (resourceGroup n)
                ("|" +:+ subscriptionId n)) as H2.
  pose proof (split_on_nonempty (subscriptionId n)) as H3.
  change (split_on "|" ("|" +:+ ?x)) with (EmptyString :: split_on "|" x)
    in H1, H2.
  simpl in H1, H2. lia.
Qed.
(** *** Grouping *)

Lemma map_push_keys {V : Type} k (x : V) m :
  (map_push k x m).*1 = if decide (k ∈ m.*1) then m.*1 else m.*1 ++ [k].
Proof.
  induction m as [|[k' g] m IH]; [done|].
  cbn [map_push]. destruct (String.eqb_spec k k') as [->|Hne].
  - rewrite !fmap_cons. cbn [fst].
    rewrite decide_True by (apply elem_of_cons; by left). done.
  - rewrite !fmap_cons, IH. cbn [fst]. destruct (decide (k ∈ m.*1)).
    + rewrite decide_True by (apply elem_of_cons; by right). done.
    + rewrite decide_False; [done|]. rewrite elem_of_cons. intros [?|?]; done.
Qed.

Lemma group_keys_fold sel m :
  (foldl (λ m item, map_push (key_of item) item m) m sel).*1 =
  foldl (λ acc x, if decide (x ∈ acc) then acc else acc ++ [x])
    m.*1 (map key_of sel).
Proof.
  revert m. induction sel as [|x sel IH]; intros m; simpl; [done|].
  by rewrite IH, map_push_keys.
Qed.

(** The groups are keyed by the distinct keys, in the order in which
    the keys first occur among the selected namespaces. *)
Lemma group_keys sel :
  (group_by_cluster sel).*1 = nub_first (map key_of sel).
Proof. apply (group_keys_fold sel []). Qed.

Lemma map_push_nonempty {V : Type} k (x : V) m :
  Forall (λ kg, kg.2 ≠ []) m → Forall (λ kg, kg.2 ≠ []) (map_push k x m).
Proof.
  induction 1 as [|[k' g] m Hg Hm IH]; simpl.
  - by repeat constructor.
  - destruct (String.eqb k k'); constructor; simpl; auto.
    by destruct g.
Qed.

Lemma group_nonempty sel :
  Forall (λ kg, kg.2 ≠ []) (group_by_cluster sel).
Proof.
  unfold group_by_cluster.
  assert (∀ m : list (string * list ImportSelection),
            Forall (λ kg, kg.2 ≠ []) m →
            Forall (λ kg, kg.2 ≠ [])
              (foldl (λ m item, map_push (clusterKey (namespace item)) item m)
                 m sel)) as H.
  { induction sel as [|x sel IH]; intros m Hm; simpl; [done|].
    apply IH. by apply map_push_nonempty. }
  apply H. constructor.
Qed.

Lemma map_push_members {V : Type} k (x : V) m :
  concat (map_push k x m).*2 ≡ₚ x :: concat m.*2.
Proof.
  induction m as [|[k' g] m IH]; simpl; [done|].
  destruct (String.eqb k k'); simpl.
  - rewrite <- app_assoc. simpl.
    rewrite <- Permutation_middle. done.
  - rewrite IH. by rewrite Permutation_middle.
Qed.

(** Every selected namespace is in exactly one group. *)
Lemma group_members sel : concat (group_by_cluster sel).*2 ≡ₚ sel.
Proof.
  unfold group_by_cluster.
  assert (∀ m : list (string * list ImportSelection),
            concat (foldl (λ m item,
                             map_push (clusterKey (namespace item)) item m)
                      m sel).*2 ≡ₚ concat m.*2 ++ sel) as H.
  { induction sel as [|x sel IH]; intros m; simpl.
    - by rewrite app_nil_r.
    - rewrite IH, map_push_members. simpl. apply Permutation_middle. }
  apply (H []).
Qed.

Lemma map_push_same_key k x (m : list (string * list ImportSelection)) :
  key_of x = k →
  Forall (λ kg, Forall (λ item, key_of item = kg.1) kg.2) m →
  Forall (λ kg, Forall (λ item, key_of item = kg.1) kg.2) (map_push k x m).
Proof.
  intros Hk. induction 1 as [|[k' g] m Hg Hm IH]; simpl.
  - by repeat constructor.
  - destruct (String.eqb_spec k k') as [->|]; constructor; simpl; auto.
    apply Forall_app. split; [done|]. by constructor.
Qed.

(** The namespaces of a group all have the key of the group. *)
Lemma group_same_key sel :
  Forall (λ kg, Forall (λ item, key_of item = kg.1) kg.2)
    (group_by_cluster sel).
Proof.
  unfold group_by_cluster.
  assert (∀ m : list (string * list ImportSelection),
            Forall (λ kg, Forall (λ item, key_of item = kg.1) kg.2) m →
            Forall (λ kg, Forall (λ item, key_of item = kg.1) kg.2)
              (foldl (λ m item, map_push (clusterKey (namespace item)) item m)
                 m sel)) as H.
  { induction sel as [|x sel IH]; intros m Hm; simpl; [done|].
    apply IH. by apply map_push_same_key. }
  apply H. constructor.
Qed.

(** *** The loop over the groups *)

Lemma failed_with_labels cluster msg g :
  map r_namespace (failed_with cluster msg g) = map (label_of cluster) g.
Proof. unfold failed_with. rewrite map_map. done. Qed.

Lemma failed_with_all_failed cluster msg g :
  all_failed cluster msg g (failed_with cluster msg g).
Proof. reflexivity. Qed.

Lemma handler_message_raised err : handler_message err = raised_message err.
Proof. by destruct err. Qed.

Lemma imported_labels cluster g :
  map r_namespace (imported cluster g) = map (label_of cluster) g.
Proof. unfold imported. rewrite map_map. done. Qed.

Section Loop.
Variable World : Type.
Variable register :
  string → string → string → option string → World → result RegisterResult * World.
Variable scoped : bool.

Local Abbreviation answer_of c w :=
  (register (call_subscriptionId c) (call_resourceGroup c)
     (call_clusterName c) (call_managedNamespace c) w).

(** One turn: one call, in the world as it stands, and one entry per
    namespace of the group. *)
Lemma process_group_spec (st : ImportRun World) k g :
  g ≠ [] →
  ∃ c chunk,
    calls (process_group World register scoped st (k, g)) = calls st ++ [c] ∧
    results (process_group World register scoped st (k, g))
      = results st ++ chunk ∧
    chunk_ok (k, g) c chunk ∧
    c.2 = (answer_of c.1 (world st)).1 ∧
    world (process_group World register scoped st (k, g))
      = (answer_of c.1 (world st)).2.
Proof.
  intros Hg. unfold process_group. cbn [fst snd].
  assert (∃ ms, scope_of scoped g = Ok ms) as [ms ->].
  { unfold scope_of. destruct scoped, g; eauto. done. }
  set (parts := split_on "|" k).
  set (c := MkCall (part 2 parts) (part 1 parts) (part 0 parts) ms).
  set (answer := register (part 2 parts) (part 1 parts) (part 0 parts) ms
                   (world st)).
  destruct (answer.1) as [r|err] eqn:Ha.
  - destruct (success r) eqn:Hs; cbn [negb].
    + cbn [localStorage calls results world].
      destruct (load_settings _ (localStorage st)) as [settings|err] eqn:Hl.
      * exists (c, Ok r), (imported (part 0 parts) g).
        cbn [calls results world fst snd]. split_and!; try done.
        split_and!; [done|apply imported_labels|]. cbn [snd].
        rewrite Hs. by left.
      * exists (c, Ok r), (failed_with (part 0 parts) (handler_message err) g).
        cbn [calls results world fst snd]. split_and!; try done.
        split_and!; [done|apply failed_with_labels|]. cbn [snd].
        rewrite Hs. right. eexists. apply failed_with_all_failed.
    + exists (c, Ok r),
        (failed_with (part 0 parts)
           ("Failed to merge cluster: " +:+ message r) g).
      cbn [calls results world fst snd]. split_and!; try done.
      split_and!; [done|apply failed_with_labels|]. cbn [snd].
      rewrite Hs. apply failed_with_all_failed.
  - exists (c, Throw err), (failed_with (part 0 parts) (handler_message err) g).
    cbn [calls results world fst snd]. split_and!; try done.
    split_and!; [done|apply failed_with_labels|]. cbn [snd].
    rewrite handler_message_raised. apply failed_with_all_failed.
Qed.

(** The whole loop: a call and a run of entries for every group, the
    calls made one after the other. *)
Lemma process_groups_spec gs (st : ImportRun World) :
  Forall (λ kg, kg.2 ≠ []) gs →
  ∃ cs chunks,
    calls (foldl (process_group World register scoped) st gs)
      = calls st ++ cs ∧
    results (foldl (process_group World register scoped) st gs)
      = results st ++ concat chunks ∧
    Forall3 chunk_ok gs cs chunks ∧
    cs.*2 = (run_sequentially World register cs.*1 (world st)).1 ∧
    world (foldl (process_group World register scoped) st gs)
      = (run_sequentially World register cs.*1 (world st)).2.
Proof.
  intros Hgs. revert st. induction Hgs as [|[k g] gs Hg Hgs IH]; intros st.
  - exists [], []. simpl. rewrite !app_nil_r. split_and!; try done. constructor.
  - simpl in Hg. cbn [foldl].
    destruct (process_group_spec st k g Hg)
      as (c & chunk & Hc & Hr & Hok & Hans & Hw).
    destruct (IH (process_group World register scoped st (k, g)))
      as (cs & chunks & Hcs & Hrs & Hall & Hseq & Hws).
    exists (c :: cs), (chunk :: chunks).
    rewrite Hcs, Hrs, Hc, Hr, <- !app_assoc. cbn [concat fmap list_fmap].
    split_and!; [done|done|by constructor| |].
    + cbn [run_sequentially fst snd]. rewrite <- Hw, <- Hseq, <- Hans. done.
    + cbn [run_sequentially fst snd]. rewrite <- Hw. done.
Qed.
End Loop.

Lemma chunks_calls gs cs chunks :
  Forall3 chunk_ok gs cs chunks →
  map call_triple cs.*1 = map key_triple gs.*1.
Proof.
  induction 1 as [|[k g] c chunk gs cs chunks (Ht & _) _ IH]; [done|].
  cbn [fmap list_fmap map fst]. simpl in Ht. by rewrite Ht, <- IH.
Qed.

Lemma chunks_length gs cs chunks :
  Forall3 chunk_ok gs cs chunks →
  length (concat chunks) = length (concat gs.*2).
Proof.
  induction 1 as [|[k g] c chunk gs cs chunks (_ & Hl & _) _ IH]; [done|].
  cbn [fmap list_fmap concat snd]. rewrite !length_app, IH. f_equal.
  apply (f_equal length) in Hl. by rewrite !length_map in Hl.
Qed.

Lemma handleImport_runs World register scoped namespaces storage w :
  List.filter selected namespaces ≠ [] →
  handleImport World register scoped namespaces storage w =
  Some (foldl (process_group World register scoped) (MkRun World [] [] storage w 0)
          (group_by_cluster (List.filter selected namespaces))).
Proof.
  intros Hne. unfold handleImport.
  destruct (List.filter selected namespaces); done.
Qed.

Lemma handleImport_nothing_selected World register scoped namespaces storage w :
  List.filter selected namespaces = [] →
  handleImport World register scoped namespaces storage w = None.
Proof. intros Hnil. unfold handleImport. by rewrite Hnil. Qed.

Lemma key_triple_triple_key chosen t :
  Forall bar_free_item chosen →
  t ∈ map triple_of chosen → key_triple (triple_key t) = t.
Proof.
  intros Hall (item & -> & Hin)%list_elem_of_fmap.
  rewrite Forall_forall in Hall.
  apply (key_triple_clusterKey item). by apply Hall.
Qed.

(** What the loop does, whatever was selected. *)
Lemma handleImport_spec World register scoped namespaces storage w :
  ∃ chunks,
    results_reported (handleImport World register scoped namespaces storage w)
      = concat chunks ∧
    Forall3 chunk_ok
      (group_by_cluster (List.filter selected namespaces))
      (calls_made (handleImport World register scoped namespaces storage w))
      chunks ∧
    (calls_made (handleImport World register scoped namespaces storage w)).*2
      = (run_sequentially World register
           (calls_made
              (handleImport World register scoped namespaces storage w)).*1
           w).1.
Proof.
  destruct (List.filter selected namespaces) as [|item chosen] eqn:Hsel.
  - rewrite handleImport_nothing_selected by done.
    exists []. split_and!; [done|constructor|done].
  - rewrite handleImport_runs by (by rewrite Hsel). rewrite Hsel.
    destruct (process_groups_spec World register scoped
                (group_by_cluster (item :: chosen))
                (MkRun World [] [] storage w 0)
                (group_nonempty (item :: chosen)))
      as (cs & chunks & Hcs & Hrs & Hall & Hseq & _).
    cbn [calls results world app] in Hcs, Hrs, Hseq.
    exists chunks. cbn [results_reported calls_made]. rewrite Hcs, Hrs. done.
Qed.

(** C3, as amended. When no cluster name, resource group or
    subscription id of a selected namespace contains the character '|',
    [handleImport] calls [registerAKSCluster] once for every distinct
    triple (cluster, resource group, subscription) among the selected
    namespaces and for nothing else, in the order in which the triples
    first occur, each call in the world the previous call left. The
    number of calls is the number of distinct triples, however many
    namespaces share one. *)
Theorem handleImport_registers_each_triple_once
  (World : Type)
  (register : string → string → string → option string → World →
              result RegisterResult * World)
  (scoped : bool) (namespaces : list ImportSelection)
  (storage : gmap string stored) (w : World) :
  Forall bar_free_item (List.filter selected namespaces) →
  map call_triple
    (calls_made (handleImport World register scoped namespaces storage w)).*1
    = nub_first (map triple_of (List.filter selected namespaces)) ∧
  NoDup (map call_triple
    (calls_made (handleImport World register scoped namespaces storage w)).*1) ∧
  (∀ t, t ∈ map call_triple
      (calls_made (handleImport World register scoped namespaces storage w)).*1
    ↔ t ∈ map triple_of (List.filter selected namespaces)) ∧
  length (calls_made (handleImport World register scoped namespaces storage w))
    = length (nub_first (map triple_of (List.filter selected namespaces))) ∧
  (calls_made (handleImport World register scoped namespaces storage w)).*2
    = (run_sequentially World register
         (calls_made
            (handleImport World register scoped namespaces storage w)).*1
         w).1.
Proof.
  intros Hbar.
  destruct (handleImport_spec World register scoped namespaces storage w)
    as (chunks & _ & Hall & Hseq).
  set (made := calls_made _) in *.
  set (chosen := List.filter selected namespaces) in *.
  assert (map call_triple made.*1 = nub_first (map triple_of chosen))
    as Hcalls.
  { rewrite (chunks_calls _ _ _ Hall), group_keys.
    replace (map key_of chosen) with (map triple_key (map triple_of chosen))
      by (by rewrite map_map).
    apply nub_first_map. intros t. by apply key_triple_triple_key. }
  split_and!; [done| | | |done].
  - rewrite Hcalls. apply nub_first_NoDup.
  - intros t. rewrite Hcalls. apply nub_first_elem_of.
  - rewrite <- Hcalls, length_map, length_fmap. done.
Qed.

Lemma handleImport_registers_each_triple_once_witness :
  map call_triple
    (calls_made (handleImport nat register_east_only true [ns1; ns2; ns3] ∅ 0)).*1
    = [("aks-east", "rg1", "sub1"); ("aks-west", "rg1", "sub1")] ∧
  length (calls_made
            (handleImport nat register_east_only true [ns1; ns2; ns3] ∅ 0)) = 2.
Proof.
  destruct (handleImport_registers_each_triple_once nat register_east_only
              true [ns1; ns2; ns3] ∅ 0)
    as (Hcalls & _ & _ & Hlen & _).
  - repeat constructor.
  - split; [exact Hcalls|exact Hlen].
Defined.

(** C3, as stated, fails when names contain the separator: the two
    namespaces below have different triples and the same key, and one
    call is made, for a triple that is neither of theirs. *)
Lemma handleImport_separator_counterexample :
  triple_of odd1 ≠ triple_of odd2 ∧
  map call_triple
    (calls_made (handleImport nat register_east_only true [odd1; odd2] ∅ 0)).*1
    = [("a", "b", "c")].
Proof. split; [discriminate|reflexivity]. Qed.



End ImportFacts.

(** ** Discovery *)

Module DiscoveryFacts.
Import ImportPage DiscoverySpec.

Lemma hasProjectId_spec l :
  hasProjectId l = true ↔ ∃ id, js_get PROJECT_ID_LABEL l = Some id ∧ id ≠ "".
Proof.
  unfold hasProjectId. destruct (js_get PROJECT_ID_LABEL l) as [id|].
  - destruct (String.eqb_spec id ""); simpl; split.
    + done.
    + intros (? & [= <-] & ?). done.
    + eauto.
    + done.
  - split; [done|]. by intros (? & ? & _).
Qed.

Lemma both_labels_spec l :
  hasProjectId l && isManagedByAKSDesktop l = true ↔ has_both_labels l.
Proof.
  unfold has_both_labels, isManagedByAKSDesktop.
  rewrite andb_true_iff, hasProjectId_spec, bool_decide_eq_true. done.
Qed.

Section Discover.
Variable list_namespaces : string → result (list NamespaceRow).
Variable details : DetailsQuery → result (option labels).
Variable merged : list string.
Variable subscription : Subscription.

Local Abbreviation eligible := (eligible details merged subscription).

Lemma check_namespace_spec acc row sel :
  sel ∈ check_namespace details merged subscription acc row ↔
  sel ∈ acc ∨ ∃ l, eligible row l ∧ sel = selection_for subscription row l.
Proof.
  unfold check_namespace, eligible. fold (details_query subscription row).
  destruct (details (details_query subscription row)) as [o|e] eqn:Hd.
  - destruct (hasProjectId (default [] o) && isManagedByAKSDesktop (default [] o))
      eqn:Hl.
    + apply both_labels_spec in Hl.
      destruct (bool_decide (row_clusterName row ∈ merged)) eqn:Hm; simpl.
      * apply bool_decide_eq_true in Hm. split; [by left|].
        intros [?|(l & (_ & _ & Hn) & _)]; done.
      * apply bool_decide_eq_false in Hm.
        rewrite elem_of_app, list_elem_of_singleton. split.
        -- intros [?| ->]; [by left|]. right. exists (default [] o).
           split; [|done]. split_and!; eauto.
        -- intros [?|(l & ((o' & [= <-] & ->) & _) & ->)]; [by left|by right].
    + split; [by left|].
      intros [?|(l & ((o' & [= <-] & ->) & Hb & _) & _)]; [done|].
      apply both_labels_spec in Hb. congruence.
  - split; [by left|]. intros [?|(l & ((o' & ? & _) & _) & _)]; done.
Qed.

Lemma check_namespaces_spec rows acc sel :
  sel ∈ foldl (check_namespace details merged subscription) acc rows ↔
  sel ∈ acc ∨
  ∃ row l, row ∈ rows ∧ eligible row l ∧ sel = selection_for subscription row l.
Proof.
  revert acc. induction rows as [|row rows IH]; intros acc; simpl.
  - split; [by left|]. intros [?|(? & ? & ?%elem_of_nil & _)]; done.
  - rewrite IH, check_namespace_spec. split.
    + intros [[?|(l & ? & ?)]|(row' & l & ? & ? & ?)].
      * by left.
      * right. exists row, l. split_and!; [left|done|done].
      * right. exists row', l. split_and!; [by right|done|done].
    + intros [?|(row' & l & [-> |?]%elem_of_cons & ? & ?)].
      * left. by left.
      * left. right. eauto.
      * right. eauto.
Qed.
End Discover.

(** C9, as amended. The older discovery ([discoverNamespaces]) lists
    exactly the namespaces of the subscription whose details could be
    fetched, carry both required labels, and whose cluster is not in the
    active configuration. The discovery through the resource graph
    ([loadNamespaces]) runs [az graph query] with the query text that
    asks for the managed namespaces carrying the marker label (between
    double quotes on Windows) and lists every row of the answer, one
    selected entry per row: the project id is not checked, a missing one
    gives an undefined project name, and no cluster is excluded. *)
Theorem discovery_lists_namespaces :
  (∀ (list_namespaces : string → result (list NamespaceRow))
     (details : DetailsQuery → result (option labels))
     (clustersConf : option (list (string * string)))
     (subscription : Subscription) (d : Discovery),
     discoverNamespaces list_namespaces details clustersConf
       (Some subscription) = Some d →
     ∀ sel, sel ∈ found d ↔
       ∃ rows row l,
         list_namespaces (sub_id subscription) = Ok rows ∧
         row ∈ rows ∧
         eligible details (map snd (default [] clustersConf)) subscription
           row l ∧
         sel = selection_for subscription row l) ∧
  (∀ (runCommandAsync : string → list string → cmd_output)
     (parse_data : string → result (list GraphResource))
     (platform : string) (out : cmd_output) (rows : list GraphResource),
     runCommandAsync "az" (graph_query_args platform) = out →
     stderr out = "" →
     parse_data (stdout out) = Ok rows →
     loadNamespaces runCommandAsync parse_data platform
       = Ok (map selection_of_row rows)).
Proof.
  split.
  - intros list_namespaces details clustersConf subscription d Hd sel.
    unfold discoverNamespaces in Hd.
    destruct (list_namespaces (sub_id subscription)) as [rows|e] eqn:Hrows.
    + destruct rows as [|row0 rows]; simpl in Hd.
      * injection Hd as <-. simpl. split; [by intros ?%elem_of_nil|].
        intros (rows & row & l & [= <-] & ?%elem_of_nil & _). done.
      * injection Hd as <-. cbn [found].
        change (foldl ?f (?f [] row0) rows) with (foldl f [] (row0 :: rows)).
        rewrite check_namespaces_spec. split.
        -- intros [?%elem_of_nil|(row & l & ? & ? & ?)]; [done|].
           exists (row0 :: rows), row, l. done.
        -- intros (rows' & row & l & [= <-] & ? & ? & ?). right. eauto.
    + injection Hd as <-. simpl. split; [by intros ?%elem_of_nil|].
      intros (rows & row & l & ? & _). done.
  - intros run parse platform out rows Hout Herr Hrows.
    unfold loadNamespaces.
    change (run "az" _) with (run "az" (graph_query_args platform)).
    rewrite Hout, Herr. simpl. by rewrite Hrows.
Qed.

Lemma discovery_lists_namespaces_witness :
  (∃ d,
     discoverNamespaces list_rows row_details None (Some subscription1)
       = Some d ∧
     selection_for subscription1 (MkRow "shop" "aks-east" "rg1") both_labels
       ∈ found d) ∧
  loadNamespaces graph_answer graph_rows "linux"
    = Ok (map selection_of_row [resource_no_id; resource_merged]).
Proof.
  split.
  - eexists. split; [reflexivity|].
    apply (proj1 discovery_lists_namespaces list_rows row_details None
             subscription1 _ eq_refl).
    exists [MkRow "team-a" "aks-east" "rg1"; MkRow "shop" "aks-east" "rg1"],
      (MkRow "shop" "aks-east" "rg1"), both_labels.
    split_and!; [reflexivity| |split_and!|reflexivity].
    + right. left.
    + exists (Some both_labels). split; reflexivity.
    + split; [|reflexivity]. exists "shop". split; [reflexivity|discriminate].
    + apply not_elem_of_nil.
  - apply (proj2 discovery_lists_namespaces graph_answer graph_rows "linux"
             (CmdOutput "rows" "") [resource_no_id; resource_merged]);
      reflexivity.
Defined.

(** C9, as stated, fails on the discovery through the resource graph:
    of the two rows the query returns, one has no project-id label and
    both belong to a cluster that is in the active configuration, and
    both are listed; the older discovery lists neither. *)
Lemma loadNamespaces_counterexample :
  js_get "headlamp.dev/project-id" (g_labels resource_no_id) = None ∧
  loadNamespaces graph_answer graph_rows "linux"
    = Ok [MkSelection (MkNamespace "team-a" "aks-east" "rg1" "sub1")
            None true false;
          MkSelection (MkNamespace "shop" "aks-east" "rg1" "sub1")
            (Some "shop") true false] ∧
  "aks-east" ∈ map snd (default [] active_conf) ∧
  found <$> discoverNamespaces list_rows row_details active_conf
              (Some subscription1) = Some [].
Proof.
  split_and!; [reflexivity|reflexivity| |reflexivity].
  simpl. left.
Qed.

End DiscoveryFacts.

(** * Further properties *)

(** ** The merge loops: order of the names, and which record wins *)

Section MergeOrder.
Context {A : Type} (key : A → string).
Implicit Types (x y : A) (arr : list A).

Lemma findIndex_is_Some_names x arr :
  is_Some (Backend.findIndex key x arr) ↔ key x ∈ key <$> arr.
Proof.
  split.
  - intros [i (old & Hi & Hk & _)%findIndex_Some]. rewrite <- Hk.
    apply list_elem_of_fmap_2. by eapply list_elem_of_lookup_2.
  - intros (y & Hk & Hy)%list_elem_of_fmap.
    destruct (Backend.findIndex key x arr) eqn:Hf; [eauto|].
    rewrite findIndex_None in Hf. by destruct (Hf y Hy).
Qed.

Lemma upsert_names x arr :
  key <$> Backend.upsert key arr x =
  if decide (key x ∈ key <$> arr) then key <$> arr
  else (key <$> arr) ++ [key x].
Proof.
  destruct (Backend.findIndex key x arr) as [i|] eqn:Hf.
  - rewrite decide_True by (apply findIndex_is_Some_names; eauto).
    by eapply upsert_names_found.
  - rewrite decide_False.
    + by apply upsert_names_missing.
    + intros [i Hi]%findIndex_is_Some_names. congruence.
Qed.

Lemma merge_array_names_fold incoming existing :
  key <$> Backend.merge_array key existing incoming =
  foldl (λ acc k, if decide (k ∈ acc) then acc else acc ++ [k])
    (key <$> existing) (key <$> incoming).
Proof.
  revert existing. induction incoming as [|x incoming IH]; intros existing;
    [done|].
  simpl. by rewrite IH, upsert_names.
Qed.

Lemma nub_fold_from (acc l : list string) :
  foldl (λ acc k, if decide (k ∈ acc) then acc else acc ++ [k]) acc l =
  acc ++ ImportSpec.nub_first (filter (λ k, k ∉ acc) l).
Proof.
  induction l as [|k l IH] using rev_ind.
  - by rewrite app_nil_r.
  - rewrite foldl_snoc, IH, filter_app.
    destruct (decide (k ∈ acc)) as [Hin|Hin].
    + rewrite decide_True by (apply elem_of_app; by left).
      rewrite filter_cons_False, filter_nil, app_nil_r by (by intros ?). done.
    + rewrite filter_cons_True, filter_nil by done.
      rewrite ImportFacts.nub_first_snoc.
      destruct (decide (k ∈ filter (λ k, k ∉ acc) l)) as [Hl|Hl].
      * rewrite decide_True; [done|]. apply elem_of_app. right.
        by apply ImportFacts.nub_first_elem_of.
      * rewrite decide_False; [by rewrite app_assoc|].
        intros [?|Hk]%elem_of_app; [done|].
        by rewrite ImportFacts.nub_first_elem_of in Hk.
Qed.

(** X1. The names of a merged array are the names of the existing
    array, in place, followed by the incoming names that were not there,
    each once, in the order in which they first come in. *)
Theorem merge_array_names existing incoming :
  key <$> Backend.merge_array key existing incoming =
  (key <$> existing) ++
  ImportSpec.nub_first
    (filter (λ k, k ∉ key <$> existing) (key <$> incoming)).
Proof. rewrite merge_array_names_fold. apply nub_fold_from. Qed.

Lemma findIndex_merge_ne incoming x arr :
  (∀ y, y ∈ incoming → key y ≠ key x) →
  Backend.findIndex key x (Backend.merge_array key arr incoming) =
  Backend.findIndex key x arr.
Proof.
  revert arr. induction incoming as [|y incoming IH]; intros arr Hall; [done|].
  simpl. rewrite IH by (intros z Hz; apply Hall; by right).
  apply findIndex_upsert_ne. apply Hall. left.
Qed.

(** X2. Among incoming records of one name the last wins: after the
    merge, the first record of that name in the result is the last
    incoming one. *)
Theorem merge_array_last_wins existing l1 x l2 :
  (∀ y, y ∈ l2 → key y ≠ key x) →
  ∃ i,
    Backend.findIndex key x
      (Backend.merge_array key existing (l1 ++ x :: l2)) = Some i ∧
    Backend.merge_array key existing (l1 ++ x :: l2) !! i = Some x.
Proof.
  intros Hlast. unfold Backend.merge_array. rewrite foldl_app. simpl.
  set (mid := foldl (Backend.upsert key) existing l1).
  exists (default (length mid) (Backend.findIndex key x mid)). split.
  - fold (Backend.merge_array key (Backend.upsert key mid x) l2).
    rewrite findIndex_merge_ne by done. apply findIndex_upsert_eq.
  - apply (merge_array_untouched key l2).
    + apply upsert_lookup_self.
    + done.
Qed.
End MergeOrder.

Lemma merge_array_last_wins_witness :
  ∃ i,
    Backend.findIndex name (Sample.cluster "A" "https://newest.example")
      (Backend.merge_array name [Sample.cluster "A" "https://old.example"]
         ([Sample.cluster "A" "https://new.example"] ++
          Sample.cluster "A" "https://newest.example" ::
          [Sample.cluster "B" "https://b.example"])) = Some i ∧
    Backend.merge_array name [Sample.cluster "A" "https://old.example"]
      ([Sample.cluster "A" "https://new.example"] ++
       Sample.cluster "A" "https://newest.example" ::
       [Sample.cluster "B" "https://b.example"]) !! i
    = Some (Sample.cluster "A" "https://newest.example").
Proof.
  apply (merge_array_last_wins name).
  intros y ->%list_elem_of_singleton. discriminate.
Defined.

(** ** The backend rewrite applied twice *)

Lemma js_delete_absent {V : Type} k (o : list (string * V)) :
  js_get k o = None → js_delete k o = o.
Proof.
  induction o as [|[k' v] o IH]; simpl; [done|].
  destruct (String.eqb k k'); [done|]. intros H. by rewrite IH.
Qed.

Lemma js_set_same {V : Type} k (v : V) (o : list (string * V)) :
  js_get k o = Some v → js_set k v o = o.
Proof.
  induction o as [|[k' v'] o IH]; simpl; [done|].
  destruct (String.eqb_spec k k') as [->|].
  - by intros [= ->].
  - intros H. by rewrite IH.
Qed.

Lemma backend_configure_idempotent platform env_PATH p u :
  Backend.configure platform env_PATH p
    (Backend.configure platform env_PATH p u)
  = Backend.configure platform env_PATH p u.
Proof.
  destruct (backend_configure platform env_PATH p u)
    as (Hgone & _ & Hap & Hexec & _ & _).
  set (u' := Backend.configure platform env_PATH p u) in *.
  assert (∀ f, f ∈ legacy_fields → f ≠ "auth-provider" →
            js_delete f u' = u') as Hdel
    by (intros f Hf Hne; apply js_delete_absent; by apply Hgone).
  unfold Backend.configure at 1. fold u'. rewrite Hap.
  rewrite !Hdel by (unfold legacy_fields; set_solver).
  by apply js_set_same.
Qed.

Lemma backend_configure_user_idempotent platform env_PATH p e :
  Backend.configure_user platform env_PATH p
    (Backend.configure_user platform env_PATH p e)
  = Backend.configure_user platform env_PATH p e.
Proof.
  destruct e as [n [[| | | | |u]|]]; unfold Backend.configure_user; simpl;
    try done.
  by rewrite backend_configure_idempotent.
Qed.

Lemma backend_configure_user_takes_exec platform env_PATH p e :
  takes_exec e = true →
  takes_exec (Backend.configure_user platform env_PATH p e) = true.
Proof. by destruct e as [n [[| | | | |u]|]]. Qed.

(** X3. The backend rewrite is idempotent: run on its own output, read
    back without loss, it returns that output unchanged. *)
Theorem addAzKubeloginToKubeconfig_idempotent
  (parse : string → result yamldoc) (stringify : yamldoc → string)
  (path_join : list string → string) (platform : string)
  (env_PATH : option string) (isDev : bool) (resourcesPath : string)
  (text rewritten : string) (k : KubeConfig) (us : list user_entry) :
  parse text = Ok (DMap k) →
  users k = Some us →
  Backend.addAzKubeloginToKubeconfig parse stringify path_join platform
    env_PATH text isDev resourcesPath = Ok rewritten →
  parse rewritten
    = Ok (DMap (with_users k
                  (map (Backend.configure_user platform env_PATH
                          (Backend.getExecutablePaths path_join platform
                             isDev resourcesPath)) us))) →
  Backend.addAzKubeloginToKubeconfig parse stringify path_join platform
    env_PATH rewritten isDev resourcesPath = Ok rewritten.
Proof.
  intros Hparse Hus Hfirst Hback.
  unfold Backend.addAzKubeloginToKubeconfig in *.
  rewrite Hparse, Hus in Hfirst.
  destruct (mapM _ us) as [us'|] eqn:Hloop; [|done].
  injection Hfirst as <-.
  apply (loop_Ok _ _ (backend_configure_turn platform env_PATH _)) in Hloop
    as [Hall ->].
  rewrite Hback. cbn [users with_users].
  rewrite (loop_runs _ _ (backend_configure_turn platform env_PATH _)).
  - cbn. do 3 f_equal. unfold with_users. cbn. f_equal.
    rewrite map_map. f_equal. apply map_ext. intros e.
    apply backend_configure_user_idempotent.
  - apply Forall_map. eapply Forall_impl; [exact Hall|].
    intros e. apply backend_configure_user_takes_exec.
Qed.

Lemma addAzKubeloginToKubeconfig_idempotent_witness :
  Backend.addAzKubeloginToKubeconfig Sample2.parse Sample2.stringify
    Sample.path_join "linux" (Some "/usr/bin") "rewritten-users" false
    "/opt/app/resources" = Ok "rewritten-users".
Proof.
  apply (addAzKubeloginToKubeconfig_idempotent Sample2.parse Sample2.stringify
           Sample.path_join "linux" (Some "/usr/bin") false
           "/opt/app/resources" "legacy-users" "rewritten-users"
           Sample.legacy_users_cfg
           [Sample.token_user "alice" "secret"; UserEntry "bob" None]);
    reflexivity.
Defined.

(** ** [registerAKSCluster]: what it writes and what it leaves alone *)

Section RegisterFiles.
Variable parse : string → result yamldoc.
Variable stringify : yamldoc → string.
Variable path_join : list string → string.
Variable path_dirname : string → string.
Variables (platform : string) (env_PATH : option string).
Variables (tmpdir homedir now : string).
Variable az : string → list string → Backend.io Backend.cmd_result.
Variables (subscriptionId resourceGroup clusterName : string).
Variables (isAzureRBACEnabled isDev : bool) (resourcesPath : string).
Variable managedNamespace : option string.

Let temp := Backend.tempKubeconfigPath path_join tmpdir now.
Let config := Backend.kubeconfigPath path_join homedir.
Let args :=
  Backend.az_args path_join tmpdir now subscriptionId resourceGroup
    clusterName managedNamespace.
Let register :=
  Backend.registerAKSCluster parse stringify path_join path_dirname platform
    env_PATH tmpdir homedir now az subscriptionId resourceGroup clusterName
    isAzureRBACEnabled isDev resourcesPath managedNamespace.
Let rewrite_if_kubelogin (text : string) : result string :=
  if includes "command: kubelogin" text
  then Backend.addAzKubeloginToKubeconfig parse stringify path_join platform
         env_PATH text isDev resourcesPath
  else Ok text.

Let same_system :=
  same_system (path_dirname config)
    (Backend.parents path_dirname (path_dirname config)).

(** The steps after the [existsSync] test. Either all of them ran, and
    the files are the ones before with the merged kubeconfig written and
    the temporary file removed; or one raised: before any file was
    changed, or in writing the kubeconfig on a full disk, which leaves
    it empty, or in removing the temporary file, with the kubeconfig
    written. *)
Lemma write_merged_cases w :
  match Backend.write_merged parse stringify path_join path_dirname platform
          env_PATH tmpdir homedir now clusterName isDev resourcesPath w with
  | (Ok r, w') =>
      Backend.success r = true ∧
      same_system w w' ∧
      (temp ∉ Backend.undeletable w) ∧
      ∃ tempText modified merged,
        Backend.files w !! temp = Some tempText ∧
        rewrite_if_kubelogin tempText = Ok modified ∧
        Backend.mergeKubeconfig parse
          (default "" (Backend.files w !! config)) modified = Ok merged ∧
        Backend.files w' =
          delete temp (<[config := stringify merged]> (Backend.files w))
  | (Throw _, w') =>
      same_system w w' ∧
      (Backend.files w' = Backend.files w ∨
       (Backend.disk_full w = true ∧
        Backend.files w' = <[config := ""]> (Backend.files w)) ∨
       (temp ∈ Backend.undeletable w ∧
        ∃ merged,
          Backend.files w' = <[config := stringify merged]> (Backend.files w)))
  end.
Proof.
  assert (same_system w w) as Hsame by (split_and!; [done|done|by left]).
  unfold Backend.write_merged. fold temp config.
  unfold Backend.io_bind at 1. unfold Backend.readFileSync at 1.
  destruct (Backend.files w !! temp) as [tempText|] eqn:Htemp;
    [|destruct (bool_decide _); split; [done|by left|done|by left]].
  unfold Backend.io_bind at 1.
  assert (∃ m, (if includes "command: kubelogin" tempText
                then Backend.io_lift
                       (Backend.addAzKubeloginToKubeconfig parse stringify
                          path_join platform env_PATH tempText isDev
                          resourcesPath)
                else Backend.io_ret tempText) w = (m, w) ∧
               rewrite_if_kubelogin tempText = m) as (m & -> & Hm).
  { unfold rewrite_if_kubelogin.
    destruct (includes "command: kubelogin" tempText); by eexists. }
  destruct m as [modified|e]; [|split; [done|by left]].
  unfold Backend.io_bind at 1.
  set (dir := path_dirname config).
  assert (∃ r w2, (if Backend.existsSync dir w then Backend.io_ret () w
                   else Backend.mkdirSync path_dirname dir w) = (r, w2) ∧
                  Backend.files w2 = Backend.files w ∧ same_system w w2)
    as (r & w2 & -> & Hw2 & Hsys).
  { destruct (Backend.existsSync dir w); [by eexists _, _|].
    unfold Backend.mkdirSync. destruct (Backend.files w !! dir);
      [by eexists _, _|].
    destruct (existsb _ _); [by eexists _, _|].
    eexists _, _. split_and!; [done|done|]. split_and!; [done|done|by right]. }
  destruct Hsys as (Hund & Hfull & Hdirs).
  destruct r as [[]|e]; [|split; [by split_and!|by left]].
  unfold Backend.io_bind at 1.
  assert (∃ r, (if Backend.existsSync config w2
                then Backend.readFileSync config w2
                else Backend.io_ret "" w2) = (r, w2) ∧
               ∀ text, r = Ok text →
                 text = default "" (Backend.files w !! config))
    as (r & -> & Hr).
  { rewrite <- Hw2. destruct (Backend.existsSync config w2) eqn:Hex.
    - unfold Backend.readFileSync.
      destruct (Backend.files w2 !! config) eqn:Hc.
      + eexists. split; [done|]. by intros ? [= <-].
      + destruct (bool_decide _); by eexists.
    - apply existsSync_false in Hex. rewrite Hex. eexists. split; [done|].
      by intros ? [= <-]. }
  destruct r as [existing|e]; [|split; [by split_and!|by left]].
  rewrite (Hr existing eq_refl).
  unfold Backend.io_bind at 1. unfold Backend.io_lift at 1.
  destruct (Backend.mergeKubeconfig parse _ modified) as [merged|e] eqn:Hmerge;
    [|split; [by split_and!|by left]].
  unfold Backend.io_bind at 1. unfold Backend.writeFileSync at 1.
  destruct (bool_decide (config ∈ Backend.dirs w2));
    [split; [by split_and!|by left]|].
  destruct (bool_decide (dir ∈ Backend.dirs w2));
    [|destruct (bool_decide _); split; [by split_and!|by left
                                        |by split_and!|by left]].
  destruct (Backend.disk_full w2) eqn:Hdisk.
  { cbn [Backend.files Backend.dirs Backend.undeletable Backend.disk_full].
    split; [by split_and!|]. right. left. rewrite <- Hfull, Hw2. done. }
  unfold Backend.io_bind at 1. unfold Backend.unlinkSync at 1.
  cbn [Backend.files Backend.dirs Backend.undeletable Backend.disk_full].
  destruct (<[config:=stringify merged]> (Backend.files w2) !! temp)
    as [?|] eqn:Hstill.
  - rewrite Hund. case_bool_decide as Hlocked.
    + cbn [Backend.files Backend.dirs Backend.undeletable Backend.disk_full].
      split; [by split_and!|]. right. right. split; [done|].
      exists merged. by rewrite Hw2.
    + cbn [Backend.io_ret Backend.files Backend.dirs Backend.undeletable
           Backend.disk_full Backend.success].
      split_and!; [done|by split_and!|done|].
      exists tempText, modified, merged. by rewrite Hw2.
  - rewrite Hw2 in Hstill. apply lookup_insert_None in Hstill as [? _].
    congruence.
Qed.

(** The handler of the outer [try]: it changes no other file, and
    removes the temporary file when the system lets it. *)
Lemma cleanup_cases w :
  Backend.dirs (Backend.cleanup path_join tmpdir now w) = Backend.dirs w ∧
  (∀ p, p ≠ temp →
     Backend.files (Backend.cleanup path_join tmpdir now w) !! p
     = Backend.files w !! p) ∧
  (temp ∉ Backend.undeletable w →
   Backend.files (Backend.cleanup path_join tmpdir now w) !! temp = None) ∧
  (temp ∈ Backend.undeletable w →
   Backend.files (Backend.cleanup path_join tmpdir now w) !! temp
   = Backend.files w !! temp).
Proof.
  unfold Backend.cleanup. fold temp.
  destruct (Backend.existsSync temp w) eqn:Hex.
  - unfold Backend.unlinkSync.
    destruct (Backend.files w !! temp) eqn:Hf; [|done].
    case_bool_decide; cbn [snd Backend.files Backend.dirs]; [done|].
    split_and!; [done| |by rewrite lookup_delete_eq|done].
    intros p Hp. by rewrite lookup_delete_ne.
  - by apply existsSync_false in Hex.
Qed.

(** X4. Once [az] has exited with code 0, no temporary file is left
    when the call returns, whether it reports success or failure,
    provided the system lets the file be removed. When the system
    refuses, a temporary file that [az] wrote is still there and the
    call reports failure. *)
Theorem registerAKSCluster_cleans_up_after_az_success w r :
  (az "az" args w).1 = Ok r →
  Backend.code r = 0%Z →
  (temp ∉ Backend.undeletable (az "az" args w).2 →
   Backend.files (register w).2 !! temp = None) ∧
  (temp ∈ Backend.undeletable (az "az" args w).2 →
   is_Some (Backend.files (az "az" args w).2 !! temp) →
   Backend.success (register w).1 = false ∧
   is_Some (Backend.files (register w).2 !! temp)).
Proof.
  unfold register, Backend.registerAKSCluster, Backend.try_register.
  fold args temp.
  destruct (az "az" args w) as [res w1]. cbn [fst snd].
  intros -> Hcode. rewrite Hcode. cbn [Z.eqb negb].
  pose proof (write_merged_cases w1) as Hcases.
  destruct (Backend.existsSync temp w1) eqn:Hex; cbn [negb].
  - destruct (Backend.write_merged _ _ _ _ _ _ _ _ _ _ _ _ w1)
      as [[res|e] w2]; cbn [fst snd].
    + destruct Hcases as (_ & _ & Hfree & ? & ? & ? & _ & _ & _ & ->).
      split; [intros _; apply lookup_delete_eq|done].
    + destruct Hcases as ((Hund & _ & _) & Hfiles).
      destruct (cleanup_cases w2) as (_ & _ & Hgone & Hkept).
      rewrite Hund in Hgone, Hkept. split; [done|].
      intros Hlocked Hthere. split; [done|]. rewrite Hkept by done.
      destruct Hfiles as [->|[[_ ->]|[_ [merged ->]]]]; [done|..];
        (destruct (decide (temp = config)) as [->|Hne];
         [rewrite lookup_insert_eq; eauto
         |by rewrite lookup_insert_ne]).
  - apply existsSync_false in Hex. split; [done|].
    intros _ [? ?]. congruence.
Qed.

(** X5. A call that reports success has run [az] to exit code 0, and
    has left the files as [az] left them with two changes: the kubeconfig
    holds the merge of what was there (nothing, when there was no file)
    with the credentials [az] wrote, rewritten when they name kubelogin,
    and the temporary file is removed. *)
Theorem registerAKSCluster_success_writes_merged w :
  Backend.success (register w).1 = true →
  ∃ r tempText modified merged,
    (az "az" args w).1 = Ok r ∧ Backend.code r = 0%Z ∧
    Backend.files (az "az" args w).2 !! temp = Some tempText ∧
    rewrite_if_kubelogin tempText = Ok modified ∧
    Backend.mergeKubeconfig parse
      (default "" (Backend.files (az "az" args w).2 !! config)) modified
      = Ok merged ∧
    Backend.files (register w).2 =
      delete temp
        (<[config := stringify merged]> (Backend.files (az "az" args w).2)).
Proof.
  unfold register, Backend.registerAKSCluster, Backend.try_register.
  fold args temp.
  destruct (az "az" args w) as [[r|e] w1]; [|done]. simpl.
  destruct (Z.eqb_spec (Backend.code r) 0) as [Hcode|]; [|done]. simpl.
  destruct (Backend.existsSync temp w1); [|done]. simpl.
  pose proof (write_merged_cases w1) as Hcases.
  destruct (Backend.write_merged _ _ _ _ _ _ _ _ _ _ _ _ w1) as [[res|e] w2];
    [|done].
  simpl. intros _.
  destruct Hcases
    as (_ & _ & _ & tempText & modified & merged & ? & ? & ? & ?).
  by exists r, tempText, modified, merged.
Qed.

(** X6. On a disk that is not full and a system that lets the temporary
    file be removed, a call that reports failure has changed no file
    but, at most, the temporary one: every other path holds what it held
    when [az] was done. *)
Theorem registerAKSCluster_failure_keeps_files w p :
  Backend.success (register w).1 = false →
  Backend.disk_full (az "az" args w).2 = false →
  temp ∉ Backend.undeletable (az "az" args w).2 →
  p ≠ temp →
  Backend.files (register w).2 !! p = Backend.files (az "az" args w).2 !! p.
Proof.
  unfold register, Backend.registerAKSCluster, Backend.try_register.
  fold args temp. intros Hfail Hdisk Hfree Hp.
  destruct (az "az" args w) as [[r|e] w1]; [|done]. simpl in *.
  destruct (negb (Backend.code r =? 0)%Z); [done|].
  destruct (negb (Backend.existsSync temp w1)); [done|].
  pose proof (write_merged_cases w1) as Hcases.
  destruct (Backend.write_merged _ _ _ _ _ _ _ _ _ _ _ _ w1) as [[res|e] w2].
  - simpl in *. destruct Hcases as [? _]. congruence.
  - simpl. destruct Hcases as (_ & [Hfiles|[[? _]|[? _]]]); [|congruence|done].
    destruct (cleanup_cases w2) as (_ & Hother & _).
    rewrite Hother by done. by rewrite Hfiles.
Qed.

(** X7. Whatever the call reports, it changes no regular file other
    than the temporary file and the kubeconfig, removes no directory,
    and creates no directory other than the one of the kubeconfig and
    the directories above it. *)
Theorem registerAKSCluster_touches_two_files w :
  (∀ p, p ≠ temp → p ≠ config →
     Backend.files (register w).2 !! p
     = Backend.files (az "az" args w).2 !! p) ∧
  Backend.dirs (az "az" args w).2 ⊆ Backend.dirs (register w).2 ∧
  Backend.dirs (register w).2
    ⊆ {[path_dirname config]}
      ∪ list_to_set (Backend.parents path_dirname (path_dirname config))
      ∪ Backend.dirs (az "az" args w).2.
Proof.
  unfold register, Backend.registerAKSCluster, Backend.try_register.
  fold args temp.
  destruct (az "az" args w) as [[r|e] w1];
    [|split_and!; [done|done|apply union_subseteq_r]].
  cbn [fst snd].
  destruct (negb (Backend.code r =? 0)%Z);
    [split_and!; [done|done|apply union_subseteq_r]|].
  destruct (negb (Backend.existsSync temp w1));
    [split_and!; [done|done|apply union_subseteq_r]|].
  pose proof (write_merged_cases w1) as Hcases.
  destruct (Backend.write_merged _ _ _ _ _ _ _ _ _ _ _ _ w1) as [[res|e] w2];
    cbn [fst snd].
  - destruct Hcases as (_ & (_ & _ & Hdirs) & _ & ? & ? & ? & _ & _ & _ & ->).
    split_and!.
    + intros p Hp Hc. by rewrite lookup_delete_ne, lookup_insert_ne.
    + destruct Hdirs as [Hd|Hd]; rewrite Hd; [done|apply union_subseteq_r].
    + destruct Hdirs as [Hd|Hd]; rewrite Hd; [apply union_subseteq_r|done].
  - destruct Hcases as ((_ & _ & Hdirs) & Hfiles).
    destruct (cleanup_cases w2) as (Hcd & Hother & _).
    rewrite Hcd. split_and!.
    + intros p Hp Hc. rewrite Hother by done.
      destruct Hfiles as [->|[[_ ->]|[_ [merged ->]]]];
        [done|by rewrite lookup_insert_ne..].
    + destruct Hdirs as [Hd|Hd]; rewrite Hd; [done|apply union_subseteq_r].
    + destruct Hdirs as [Hd|Hd]; rewrite Hd; [apply union_subseteq_r|done].
Qed.
End RegisterFiles.

Lemma registerAKSCluster_success_writes_merged_witness :
  ∃ r tempText modified merged,
    (Sample.az_succeeds "az" Sample3.az_args Sample3.used_fs).1 = Ok r ∧
    Backend.code r = 0%Z ∧
    Backend.files (Sample.az_succeeds "az" Sample3.az_args Sample3.used_fs).2
      !! Sample3.temp = Some tempText ∧
    (if includes "command: kubelogin" tempText
     then Backend.addAzKubeloginToKubeconfig Sample.parse Sample.stringify
            Sample.path_join "linux" None tempText false "/opt/app/resources"
     else Ok tempText) = Ok modified ∧
    Backend.mergeKubeconfig Sample.parse
      (default ""
         (Backend.files
            (Sample.az_succeeds "az" Sample3.az_args Sample3.used_fs).2
          !! Sample3.config)) modified = Ok merged ∧
    Backend.files (Sample3.register Sample.az_succeeds Sample3.used_fs).2 =
      delete Sample3.temp
        (<[Sample3.config := Sample.stringify merged]>
           (Backend.files
              (Sample.az_succeeds "az" Sample3.az_args Sample3.used_fs).2)).
Proof.
  apply (registerAKSCluster_success_writes_merged Sample.parse
           Sample.stringify Sample.path_join Sample.path_dirname "linux" None
           "/tmp" "/home/u" "1700000000000" Sample.az_succeeds "sub" "rg"
           "aks" true false "/opt/app/resources" None Sample3.used_fs).
  vm_compute. reflexivity.
Defined.

Lemma registerAKSCluster_failure_keeps_files_witness :
  Backend.files (Sample3.register Sample.az_succeeds Sample3.blocked_fs).2
    !! "/home/u/.kube"
  = Backend.files
      (Sample.az_succeeds "az" Sample3.az_args Sample3.blocked_fs).2
      !! "/home/u/.kube".
Proof.
  apply (registerAKSCluster_failure_keeps_files Sample.parse
           Sample.stringify Sample.path_join Sample.path_dirname "linux" None
           "/tmp" "/home/u" "1700000000000" Sample.az_succeeds
           "sub" "rg" "aks" true false "/opt/app/resources" None
           Sample3.blocked_fs "/home/u/.kube").
  - vm_compute. reflexivity.
  - reflexivity.
  - apply not_elem_of_empty.
  - vm_compute. discriminate.
Defined.

Lemma registerAKSCluster_cleans_up_after_az_success_witness :
  Backend.files (Sample3.register Sample.az_succeeds Sample3.blocked_fs).2
    !! Sample3.temp = None ∧
  Backend.success (Sample3.register Sample.az_succeeds Sample3.locked_fs).1
    = false ∧
  is_Some
    (Backend.files (Sample3.register Sample.az_succeeds Sample3.locked_fs).2
     !! Sample3.temp).
Proof.
  split.
  - apply (registerAKSCluster_cleans_up_after_az_success Sample.parse
             Sample.stringify Sample.path_join Sample.path_dirname "linux"
             None "/tmp" "/home/u" "1700000000000" Sample.az_succeeds
             "sub" "rg" "aks" true false "/opt/app/resources" None
             Sample3.blocked_fs (Backend.CmdResult 0 "" ""));
      [reflexivity|reflexivity|].
    apply not_elem_of_empty.
  - apply (registerAKSCluster_cleans_up_after_az_success Sample.parse
             Sample.stringify Sample.path_join Sample.path_dirname "linux"
             None "/tmp" "/home/u" "1700000000000" Sample.az_succeeds
             "sub" "rg" "aks" true false "/opt/app/resources" None
             Sample3.locked_fs (Backend.CmdResult 0 "" ""));
      [reflexivity|reflexivity| |].
    + change (Sample3.temp ∈ ({[Sample3.temp]} : gset string)).
      by apply elem_of_singleton.
    + eexists. reflexivity.
Defined.

Lemma registerAKSCluster_touches_two_files_witness :
  (∀ p, p ≠ Sample3.temp → p ≠ Sample3.config →
     Backend.files (Sample3.register Sample.az_succeeds Sample.home_fs).2 !! p
     = Backend.files
         (Sample.az_succeeds "az" Sample3.az_args Sample.home_fs).2 !! p) ∧
  Backend.dirs (Sample.az_succeeds "az" Sample3.az_args Sample.home_fs).2
    ⊆ Backend.dirs (Sample3.register Sample.az_succeeds Sample.home_fs).2 ∧
  Backend.dirs (Sample3.register Sample.az_succeeds Sample.home_fs).2
    ⊆ {[Sample.path_dirname Sample3.config]}
      ∪ list_to_set
          (Backend.parents Sample.path_dirname
             (Sample.path_dirname Sample3.config))
      ∪ Backend.dirs
          (Sample.az_succeeds "az" Sample3.az_args Sample.home_fs).2.
Proof.
  exact (registerAKSCluster_touches_two_files Sample.parse
           Sample.stringify Sample.path_join Sample.path_dirname "linux" None
           "/tmp" "/home/u" "1700000000000" Sample.az_succeeds
           "sub" "rg" "aks" true false "/opt/app/resources" None
           Sample.home_fs).
Defined.

(** ** The bridge of preload.ts *)

Module PreloadFacts.
Import Preload PreloadSpec.

Section Facts.
Context {Data Arg Event R : Type}.

Lemma perform_permitted (c : api_call Data Arg R) :
  Forall permitted (perform Data Arg Event R c).
Proof.
  destruct c; simpl.
  - unfold send. case_bool_decide; [|constructor].
    apply Forall_singleton. done.
  - unfold receive. case_bool_decide; [|constructor].
    apply Forall_singleton. by split.
  - by repeat constructor.
  - by repeat constructor.
  - by repeat constructor.
Qed.

(** X8. Whatever the renderer does with [desktopApi], and in whatever
    order, [ipcRenderer] only sends on the channels of the send list,
    only listens on the channels of the receive list with listeners
    that never see the event, and only invokes the two fixed
    requests. *)
Theorem desktopApi_only_permitted_calls (uses : list (api_call Data Arg R)) :
  Forall permitted (trace Data Arg Event R uses).
Proof.
  unfold trace. induction uses as [|c uses IH]; [constructor|].
  rewrite bind_cons. apply Forall_app. split; [apply perform_permitted|done].
Qed.
End Facts.
End PreloadFacts.

(** ** Cluster settings in [localStorage] *)

Module SettingsFacts.
Import ImportPage ClusterSettingsStore.

Lemma settings_key_inj c c' : settings_key c = settings_key c' → c = c'.
Proof. unfold settings_key. apply (inj (String.app _)). Qed.

(** X9. Settings stored under a cluster name are the ones loaded under
    that name, their allow-list (empty when there is none) is what
    [getAllowedNamespaces] returns for the cluster, and storing them
    changes what is loaded under no other name. *)
Theorem storeClusterSettings_loadClusterSettings
  (clusterName : string) (settings : ClusterSettings)
  (storage : gmap string stored) :
  clusterName ≠ "" →
  loadClusterSettings clusterName
    (storeClusterSettings clusterName settings storage) = Ok settings ∧
  getAllowedNamespaces (Some clusterName)
    (storeClusterSettings clusterName settings storage)
    = Ok (default [] (allowedNamespaces settings)) ∧
  ∀ other, other ≠ clusterName →
    loadClusterSettings other
      (storeClusterSettings clusterName settings storage)
    = loadClusterSettings other storage.
Proof.
  intros Hne%String.eqb_neq.
  unfold getAllowedNamespaces, loadClusterSettings, storeClusterSettings.
  rewrite Hne. split_and!.
  - unfold load_settings. by rewrite lookup_insert_eq.
  - unfold load_settings. by rewrite lookup_insert_eq.
  - intros other Hother. destruct (String.eqb other ""); [done|].
    unfold load_settings. rewrite lookup_insert_ne; [done|].
    by intros ?%settings_key_inj.
Qed.

Lemma storeClusterSettings_loadClusterSettings_witness :
  loadClusterSettings "aks-east"
    (storeClusterSettings "aks-east" (MkSettings (Some ["team-a"]) []) ∅)
    = Ok (MkSettings (Some ["team-a"]) []) ∧
  getAllowedNamespaces (Some "aks-east")
    (storeClusterSettings "aks-east" (MkSettings (Some ["team-a"]) []) ∅)
    = Ok ["team-a"] ∧
  ∀ other, other ≠ "aks-east" →
    loadClusterSettings other
      (storeClusterSettings "aks-east" (MkSettings (Some ["team-a"]) []) ∅)
    = loadClusterSettings other ∅.
Proof. by apply storeClusterSettings_loadClusterSettings. Defined.
End SettingsFacts.

(** ** [handleImport]: the stored settings, the counters, the selection *)

Module ImportMore.
Import ImportPage ImportSpec ImportFacts ClusterSettingsStore StorageSpec.

Lemma dedupe_nub_first l : dedupe l = nub_first l.
Proof.
  unfold dedupe, nub_first.
  assert (∀ acc : list string,
            foldl (λ acc x, if bool_decide (x ∈ acc) then acc else acc ++ [x])
              acc l =
            foldl (λ acc x, if decide (x ∈ acc) then acc else acc ++ [x])
              acc l) as H; [|apply H].
  induction l as [|x l IH]; intros acc; simpl; [done|].
  rewrite IH. f_equal. case_bool_decide; by case_decide.
Qed.

Lemma dedupe_elem_of l x : x ∈ dedupe l ↔ x ∈ l.
Proof. rewrite dedupe_nub_first. apply nub_first_elem_of. Qed.

Lemma dedupe_NoDup l : NoDup (dedupe l).
Proof. rewrite dedupe_nub_first. apply nub_first_NoDup. Qed.

Lemma allowed_allow scoped s g x :
  x ∈ allowed (allow scoped s g) ↔
  x ∈ allowed s ∨ x ∈ map (λ it, ns_name (namespace it)) g.
Proof.
  unfold allowed, allow. simpl.
  destruct scoped; rewrite ?dedupe_elem_of, elem_of_app; done.
Qed.

Lemma settings_grow_refl st : settings_grow st st.
Proof.
  intros key. destruct (st !! key) as [[msg|s]|]; [done| |done].
  exists s. split_and!; done.
Qed.

Lemma settings_grow_trans st1 st2 st3 :
  settings_grow st1 st2 → settings_grow st2 st3 → settings_grow st1 st3.
Proof.
  intros H12 H23 key. specialize (H12 key). specialize (H23 key).
  destruct (st1 !! key) as [[msg|s]|]; [| |done].
  - by rewrite H12 in H23.
  - destruct H12 as (s2 & H2 & Ho2 & Ha2). rewrite H2 in H23.
    destruct H23 as (s3 & H3 & Ho3 & Ha3).
    exists s3. split_and!; [done|congruence|set_solver].
Qed.

Lemma settings_grow_allow scoped st key settings g :
  load_settings key st = Ok settings →
  settings_grow st (<[key := Stored (allow scoped settings g)]> st).
Proof.
  intros Hload key'. destruct (decide (key' = key)) as [->|Hne].
  - unfold load_settings in Hload. rewrite lookup_insert_eq.
    destruct (st !! key) as [[msg|s]|]; [done| |done].
    injection Hload as ->. eexists. split_and!; [done|done|].
    intros x Hx. apply allowed_allow. by left.
  - rewrite lookup_insert_ne by done.
    destruct (st !! key') as [[msg|s]|]; [done| |done].
    exists s. split_and!; done.
Qed.

Section Loop.
Variable World : Type.
Variable register :
  string → string → string → option string → World → result RegisterResult * World.
Variable scoped : bool.

(** One turn of the loop, seen from the results and the storage: the
    group failed and nothing was stored, or it was imported and the
    settings of its cluster were read and written back. *)
Lemma process_group_storage (st : ImportRun World) kg :
  (∃ msg,
     results (process_group World register scoped st kg)
       = results st ++ failed_with (group_cluster kg) msg kg.2 ∧
     localStorage (process_group World register scoped st kg)
       = localStorage st ∧
     processedCount (process_group World register scoped st kg)
       = processedCount st) ∨
  (∃ settings,
     load_settings (settings_key (group_cluster kg)) (localStorage st)
       = Ok settings ∧
     results (process_group World register scoped st kg)
       = results st ++ imported (group_cluster kg) kg.2 ∧
     localStorage (process_group World register scoped st kg)
       = <[settings_key (group_cluster kg) :=
             Stored (allow scoped settings kg.2)]> (localStorage st) ∧
     processedCount (process_group World register scoped st kg)
       = processedCount st + length kg.2).
Proof.
  destruct kg as [k g]. unfold process_group, group_cluster. cbn [fst snd].
  destruct (scope_of scoped g) as [ms|err]; [|left; by eexists].
  set (answer := register _ _ _ ms (world st)).
  destruct (answer.1) as [r|err]; [|left; by eexists].
  destruct (success r); cbn [negb]; [|left; by eexists].
  cbn [localStorage].
  destruct (load_settings _ (localStorage st)) as [settings|err] eqn:Hl;
    [|left; by eexists].
  right. exists settings. done.
Qed.

Lemma successCount_app l1 l2 :
  successCount (l1 ++ l2) = successCount l1 + successCount l2.
Proof. unfold successCount. by rewrite List.filter_app, length_app. Qed.

Lemma successCount_failed cluster msg g :
  successCount (failed_with cluster msg g) = 0.
Proof. unfold successCount, failed_with. by induction g. Qed.

Lemma successCount_imported cluster g :
  successCount (imported cluster g) = length g.
Proof.
  unfold successCount, imported. induction g; simpl; [done|]. by f_equal.
Qed.

(** What the loop keeps true from any state on. *)
Lemma process_groups_storage gs (st : ImportRun World) :
  let final := foldl (process_group World register scoped) st gs in
  settings_grow (localStorage st) (localStorage final) ∧
  (∀ key, key ∉ map (λ kg, settings_key (group_cluster kg)) gs →
     localStorage final !! key = localStorage st !! key) ∧
  processedCount final + successCount (results st)
    = processedCount st + successCount (results final) ∧
  ∃ chunks,
    results final = results st ++ concat chunks ∧
    Forall2 (group_allowed (localStorage final)) gs chunks.
Proof.
  revert st. induction gs as [|kg gs IH]; intros st; cbn [foldl].
  - split_and!; [apply settings_grow_refl|done|done|].
    exists []. split; [by rewrite app_nil_r|constructor].
  - destruct (IH (process_group World register scoped st kg))
      as (Hgrow & Hkeys & Hcount & chunks & Hres & Hall).
    set (st1 := process_group World register scoped st kg) in *.
    set (final := foldl _ st1 gs) in *. cbn zeta.
    destruct (process_group_storage st kg)
      as [(msg & Hr & Hs & Hp)|(settings & Hload & Hr & Hs & Hp)];
      fold st1 in Hr, Hs, Hp.
    + rewrite Hs in Hgrow, Hkeys. split_and!.
      * done.
      * intros key Hkey. apply Hkeys. cbn [map] in Hkey.
        by apply not_elem_of_cons in Hkey as [_ ?].
      * rewrite Hp, Hr, successCount_app, successCount_failed in Hcount. lia.
      * exists (failed_with (group_cluster kg) msg kg.2 :: chunks).
        rewrite Hres, Hr, <- app_assoc. split; [done|].
        constructor; [|done]. left. eauto.
    + split_and!.
      * eapply settings_grow_trans; [|exact Hgrow]. rewrite Hs.
        by apply settings_grow_allow.
      * intros key Hkey. cbn [map] in Hkey.
        apply not_elem_of_cons in Hkey as [Hne Hkey].
        rewrite Hkeys, Hs by done. by rewrite lookup_insert_ne.
      * rewrite Hp, Hr, successCount_app, successCount_imported in Hcount.
        lia.
      * exists (imported (group_cluster kg) kg.2 :: chunks).
        rewrite Hres, Hr, <- app_assoc. split; [done|].
        constructor; [|done]. right. split; [done|].
        specialize (Hgrow (settings_key (group_cluster kg))).
        rewrite Hs, lookup_insert_eq in Hgrow.
        destruct Hgrow as (s' & Hs' & _ & Hsub).
        exists s'. split; [done|]. intros item Hitem. apply Hsub.
        apply allowed_allow. right.
        apply (list_elem_of_fmap_2 (λ it, ns_name (namespace it)) _ _ Hitem).
Qed.

(** With the later copy, every settings object the loop has written
    holds each allowed namespace once. *)
Lemma process_groups_NoDup gs (st : ImportRun World) key s :
  scoped = true →
  localStorage (foldl (process_group World register scoped) st gs) !! key
    = Some (Stored s) →
  localStorage st !! key = Some (Stored s) ∨
  ∃ l, allowedNamespaces s = Some l ∧ NoDup l.
Proof.
  intros Hscoped. revert st.
  induction gs as [|kg gs IH]; intros st; cbn [foldl]; [by left|].
  intros Hfinal. destruct (IH _ Hfinal) as [Hst1|Hdone]; [|by right].
  destruct (process_group_storage st kg)
    as [(msg & _ & Hs & _)|(settings & _ & _ & Hs & _)].
  - left. by rewrite <- Hs.
  - rewrite Hs in Hst1.
    destruct (decide (key = settings_key (group_cluster kg))) as [->|Hne].
    + rewrite lookup_insert_eq in Hst1. injection Hst1 as <-.
      right. unfold allow. rewrite Hscoped. eexists. split; [done|].
      apply dedupe_NoDup.
    + rewrite lookup_insert_ne in Hst1 by done. by left.
Qed.
End Loop.

(** X10. An import only adds to the stored settings: an item that
    [JSON.parse] rejects is left as it is, a settings object keeps its
    other settings and every namespace it allowed, and an item under
    another key than the settings of a processed cluster is not
    touched. *)
Theorem handleImport_settings_grow
  (World : Type)
  (register : string → string → string → option string → World →
              result RegisterResult * World)
  (scoped : bool) (namespaces : list ImportSelection)
  (storage : gmap string stored) (w : World) (run : ImportRun World) :
  handleImport World register scoped namespaces storage w = Some run →
  settings_grow storage (localStorage run) ∧
  ∀ key,
    key ∉ map (λ kg, settings_key (group_cluster kg))
            (group_by_cluster (List.filter selected namespaces)) →
    localStorage run !! key = storage !! key.
Proof.
  unfold handleImport. destruct (_ =? 0); [done|]. intros [= <-].
  destruct (process_groups_storage World register scoped
              (group_by_cluster (List.filter selected namespaces))
              (MkRun World [] [] storage w 0)) as (Hgrow & Hkeys & _).
  split; [exact Hgrow|exact Hkeys].
Qed.

Lemma handleImport_settings_grow_witness :
  ∃ run,
    handleImport nat register_always true [ns1; ns2; ns3] east_storage 0
      = Some run ∧
    settings_grow east_storage (localStorage run) ∧
    ∀ key,
      key ∉ map (λ kg, settings_key (group_cluster kg))
              (group_by_cluster (List.filter selected [ns1; ns2; ns3])) →
      localStorage run !! key = east_storage !! key.
Proof.
  eexists. split; [reflexivity|].
  apply (handleImport_settings_grow nat register_always true [ns1; ns2; ns3]
           east_storage 0).
  reflexivity.
Defined.

(** X11. After an import the entries of [results] come group by group;
    a group is all failures or all successes, and the namespaces of a
    group of successes are all in the allow-list stored for the cluster
    of the group. *)
Theorem handleImport_allows_imported
  (World : Type)
  (register : string → string → string → option string → World →
              result RegisterResult * World)
  (scoped : bool) (namespaces : list ImportSelection)
  (storage : gmap string stored) (w : World) (run : ImportRun World) :
  handleImport World register scoped namespaces storage w = Some run →
  ∃ chunks,
    results run = concat chunks ∧
    Forall2 (group_allowed (localStorage run))
      (group_by_cluster (List.filter selected namespaces)) chunks.
Proof.
  unfold handleImport. destruct (_ =? 0); [done|]. intros [= <-].
  destruct (process_groups_storage World register scoped
              (group_by_cluster (List.filter selected namespaces))
              (MkRun World [] [] storage w 0))
    as (_ & _ & _ & chunks & Hres & Hall).
  exists chunks. split; [exact Hres|exact Hall].
Qed.

Lemma handleImport_allows_imported_witness :
  ∃ run chunks,
    handleImport nat register_east_only true [ns1; ns2; ns3] east_storage 0
      = Some run ∧
    results run = concat chunks ∧
    Forall2 (group_allowed (localStorage run))
      (group_by_cluster (List.filter selected [ns1; ns2; ns3])) chunks.
Proof.
  eexists.
  destruct (handleImport_allows_imported nat register_east_only true
              [ns1; ns2; ns3] east_storage 0 _ eq_refl) as (chunks & H1 & H2).
  exists chunks. split; [reflexivity|]. split; [exact H1|exact H2].
Defined.

(** X12. In the later copy of the page every settings object an import
    has written lists each allowed namespace once. *)
Theorem handleImport_allowed_without_duplicates
  (World : Type)
  (register : string → string → string → option string → World →
              result RegisterResult * World)
  (namespaces : list ImportSelection)
  (storage : gmap string stored) (w : World) (run : ImportRun World)
  (key : string) (s : ClusterSettings) :
  handleImport World register true namespaces storage w = Some run →
  localStorage run !! key = Some (Stored s) →
  storage !! key = Some (Stored s) ∨
  ∃ l, allowedNamespaces s = Some l ∧ NoDup l.
Proof.
  unfold handleImport. destruct (_ =? 0); [done|]. intros [= <-] Hkey.
  by apply (process_groups_NoDup World register true _ _ key s eq_refl)
    in Hkey.
Qed.

Lemma handleImport_allowed_without_duplicates_witness :
  east_storage !! "cluster_settings.aks-west"
    = Some (Stored (MkSettings (Some ["team-b"; "team-c"]) [])) ∨
  ∃ l, Some ["team-b"; "team-c"] = Some l ∧ NoDup l.
Proof.
  eapply (handleImport_allowed_without_duplicates nat register_always
            [ns1; ns2; ns3] east_storage 0 _ "cluster_settings.aks-west"
            (MkSettings (Some ["team-b"; "team-c"]) [])).
  - reflexivity.
  - vm_compute. reflexivity.
Defined.

(** X13. The progress counter of an import ends at the number of
    successful entries, and successes and failures together are as many
    as the namespaces selected. *)
Theorem handleImport_counters
  (World : Type)
  (register : string → string → string → option string → World →
              result RegisterResult * World)
  (scoped : bool) (namespaces : list ImportSelection)
  (storage : gmap string stored) (w : World) (run : ImportRun World) :
  handleImport World register scoped namespaces storage w = Some run →
  processedCount run = successCount (results run) ∧
  successCount (results run) + failureCount (results run)
    = length (List.filter selected namespaces).
Proof.
  intros Hrun.
  destruct (handleImport_spec World register scoped namespaces storage w)
    as (chunks & Hres & Hall & _).
  rewrite Hrun in Hres, Hall. cbn [results_reported calls_made] in Hres, Hall.
  revert Hrun. unfold handleImport. destruct (_ =? 0); [done|].
  intros [= Hrun].
  destruct (process_groups_storage World register scoped
              (group_by_cluster (List.filter selected namespaces))
              (MkRun World [] [] storage w 0)) as (_ & _ & Hcount & _).
  cbn zeta in Hcount. rewrite Hrun in Hcount. cbn in Hcount.
  split; [lia|].
  unfold successCount, failureCount.
  rewrite <- (Permutation_length (group_members _)).
  rewrite <- (chunks_length _ _ _ Hall), <- Hres.
  clear. induction (results run) as [|r rs IH]; simpl; [done|].
  destruct (r_success r); simpl; lia.
Qed.

Lemma handleImport_counters_witness :
  ∃ run,
    handleImport nat register_east_only true [ns1; ns2; ns3] ∅ 0 = Some run ∧
    processedCount run = successCount (results run) ∧
    successCount (results run) + failureCount (results run)
      = length (List.filter selected [ns1; ns2; ns3]).
Proof.
  eexists. split; [reflexivity|].
  apply (handleImport_counters nat register_east_only true [ns1; ns2; ns3]
           ∅ 0).
  reflexivity.
Defined.

(** X14. Every key under which the namespaces are grouped splits at
    ['|'] into at least three parts, so the cluster name, the resource
    group and the subscription id the loop reads from a key are never
    missing. *)
Theorem group_keys_three_parts (chosen : list ImportSelection) :
  Forall (λ kg, 3 ≤ length (split_on "|" kg.1)) (group_by_cluster chosen).
Proof.
  pose proof (group_same_key chosen) as Hsame.
  pose proof (group_nonempty chosen) as Hne.
  rewrite Forall_forall in Hsame, Hne. apply Forall_forall.
  intros [k g] Hin. specialize (Hsame _ Hin). specialize (Hne _ Hin).
  simpl in *. destruct g as [|item g]; [done|].
  apply Forall_cons in Hsame as [<- _]. apply clusterKey_three_parts.
Qed.
End ImportMore.

(** ** The Azure helpers of the plugin *)

Module PluginFacts.
Import ImportPage PluginApi.

Section Facts.
Variable World : Type.
Variable runCommandAsync :
  string → list string → World → result cmd_output * World.
Variable json_parse : string → result value.

Lemma read_cluster_Ok v c :
  read_cluster v = Ok c →
  v ≠ VNull ∧ isAzureRBACEnabled c = not_null (prop "aadProfile" v).
Proof. destruct v; [done|..]; by intros [= <-]. Qed.

Lemma not_null_false x : not_null x = false ↔ x = Some VNull.
Proof. destruct x as [[]|]; simpl; split; congruence. Qed.

(** X15. [getAKSClusterDetails] starts one [az] process, reports
    success exactly when it returns a cluster, and returns one only when
    [az] printed, without an error on its error stream, a text that
    [JSON.parse] reads as something other than [null]; the cluster then
    counts as using Azure RBAC unless its [aadProfile] is there and is
    [null]. *)
Theorem getAKSClusterDetails_outcome
  (subscriptionId resourceGroup clusterName : string) (w : World) :
  (getAKSClusterDetails World runCommandAsync json_parse subscriptionId
     resourceGroup clusterName w).2
  = (runCommandAsync "az"
       ["aks"; "show"; "--subscription"; subscriptionId; "--resource-group";
        resourceGroup; "--name"; clusterName; "--output"; "json"] w).2 ∧
  (d_success
     (getAKSClusterDetails World runCommandAsync json_parse subscriptionId
        resourceGroup clusterName w).1 = true ↔
   is_Some
     (d_cluster
        (getAKSClusterDetails World runCommandAsync json_parse subscriptionId
           resourceGroup clusterName w).1)) ∧
  ∀ c,
    d_cluster
      (getAKSClusterDetails World runCommandAsync json_parse subscriptionId
         resourceGroup clusterName w).1 = Some c →
    ∃ out v,
      (runCommandAsync "az"
         ["aks"; "show"; "--subscription"; subscriptionId; "--resource-group";
          resourceGroup; "--name"; clusterName; "--output"; "json"] w).1
        = Ok out ∧
      has_error (stderr out) = false ∧
      stdout out ≠ "" ∧
      json_parse (stdout out) = Ok v ∧
      v ≠ VNull ∧
      read_cluster v = Ok c ∧
      (isAzureRBACEnabled c = false ↔ prop "aadProfile" v = Some VNull).
Proof.
  unfold getAKSClusterDetails.
  destruct (runCommandAsync "az" _ w) as [[out|err] w'] eqn:Hrun; simpl.
  2: { split_and!; [done| |done]. split; [done|by intros [? ?]]. }
  destruct (has_error (stderr out)) eqn:Herr; simpl.
  { split_and!; [done| |done]. split; [done|by intros [? ?]]. }
  destruct (String.eqb_spec (stdout out) "") as [Hempty|Hfull]; simpl.
  { split_and!; [done| |done]. split; [done|by intros [? ?]]. }
  destruct (json_parse (stdout out)) as [v|e] eqn:Hparse; simpl.
  2: { split_and!; [done| |done]. split; [done|by intros [? ?]]. }
  destruct (read_cluster v) as [c|e] eqn:Hread; simpl.
  2: { split_and!; [done| |done]. split; [done|by intros [? ?]]. }
  split_and!; [done|split; eauto|].
  intros ? [= <-]. destruct (read_cluster_Ok v c Hread) as [Hv Hrbac].
  exists out, v. split_and!; try done.
  rewrite Hrbac. apply not_null_false.
Qed.

Variable desktop_register :
  option (string → string → string → option bool → option string →
          World → result RegisterResult * World).

(** X16. The registration the import page calls never raises. When it
    reports success, the bridge was there, the cluster details were
    fetched, and the answer is the one the backend gave to a request
    that carries the Azure RBAC flag of those details. *)
Theorem registerAKSCluster_success_from_backend
  (subscriptionId resourceGroup clusterName : string)
  (managedNamespace : option string) (w : World) :
  ∃ r,
    (registerAKSCluster World runCommandAsync json_parse desktop_register
       subscriptionId resourceGroup clusterName managedNamespace w).1 = Ok r ∧
    (success r = true →
     ∃ register c,
       desktop_register = Some register ∧
       getAKSClusterDetails World runCommandAsync json_parse subscriptionId
         resourceGroup clusterName w
       = (MkDetails true "Cluster details retrieved successfully" (Some c),
          (runCommandAsync "az"
             ["aks"; "show"; "--subscription"; subscriptionId;
              "--resource-group"; resourceGroup; "--name"; clusterName;
              "--output"; "json"] w).2) ∧
       register subscriptionId resourceGroup clusterName
         (Some (isAzureRBACEnabled c)) managedNamespace
         (runCommandAsync "az"
            ["aks"; "show"; "--subscription"; subscriptionId;
             "--resource-group"; resourceGroup; "--name"; clusterName;
             "--output"; "json"] w).2
       = (Ok r,
          (registerAKSCluster World runCommandAsync json_parse
             desktop_register subscriptionId resourceGroup clusterName
             managedNamespace w).2)).
Proof.
  unfold registerAKSCluster.
  destruct desktop_register as [register|]; [|by eexists].
  unfold getAKSClusterDetails.
  destruct (runCommandAsync "az" _ w) as [[out|err] w'] eqn:Hrun;
    cbn [fst snd d_success d_cluster negb]; [|by eexists].
  destruct (has_error (stderr out)); cbn [fst snd d_success negb];
    [by eexists|].
  destruct (String.eqb (stdout out) ""); cbn [fst snd d_success negb]; [by eexists|].
  destruct (_ ≫= _) as [c|e]; cbn [fst snd d_success d_cluster negb];
    [|by eexists].
  cbn [fmap option_fmap option_map].
  destruct (register _ _ _ _ _ w') as [[r|e] w''] eqn:Hreg;
    cbn [fst snd]; [|by eexists].
  exists r. split; [done|]. intros _. exists register, c. done.
Qed.

Variable base64 : string → string.
Variable yaml_load : string → result yamldoc.
Variable yaml_dump : yamldoc → string.
Variables (isDev : bool) (platform dirname : string).
Variables (process_resourcesPath env_PATH : option string).

(** X17. [getAKSKubeconfig] starts one [az] process, reports success
    exactly when it returns a kubeconfig, and returns one only when [az]
    printed, without an error on its error stream, a text holding
    [apiVersion] and [kind: Config]; what it returns is the encoding of
    that text after the plugin-side rewrite. *)
Theorem getAKSKubeconfig_outcome
  (subscriptionId resourceGroup clusterName : string) (w : World) :
  (getAKSKubeconfig World runCommandAsync base64 yaml_load yaml_dump isDev
     platform dirname process_resourcesPath env_PATH subscriptionId
     resourceGroup clusterName w).2
  = (runCommandAsync "az"
       ["aks"; "get-credentials"; "--subscription"; subscriptionId;
        "--resource-group"; resourceGroup; "--name"; clusterName; "--format";
        "--overwrite-existing"; "azure"; "--file"; "-"] w).2 ∧
  (k_success
     (getAKSKubeconfig World runCommandAsync base64 yaml_load yaml_dump isDev
        platform dirname process_resourcesPath env_PATH subscriptionId
        resourceGroup clusterName w).1 = true ↔
   is_Some
     (k_kubeconfig
        (getAKSKubeconfig World runCommandAsync base64 yaml_load yaml_dump
           isDev platform dirname process_resourcesPath env_PATH
           subscriptionId resourceGroup clusterName w).1)) ∧
  ∀ encoded,
    k_kubeconfig
      (getAKSKubeconfig World runCommandAsync base64 yaml_load yaml_dump
         isDev platform dirname process_resourcesPath env_PATH subscriptionId
         resourceGroup clusterName w).1 = Some encoded →
    ∃ out,
      (runCommandAsync "az"
         ["aks"; "get-credentials"; "--subscription"; subscriptionId;
          "--resource-group"; resourceGroup; "--name"; clusterName;
          "--format"; "--overwrite-existing"; "azure"; "--file"; "-"] w).1
        = Ok out ∧
      has_error (stderr out) = false ∧
      includes "apiVersion" (stdout out) = true ∧
      includes "kind: Config" (stdout out) = true ∧
      encoded =
        base64
          (Plugin.addAzKubeloginToKubeconfig yaml_load yaml_dump isDev
             platform dirname process_resourcesPath env_PATH (stdout out)).
Proof.
  unfold getAKSKubeconfig.
  destruct (runCommandAsync "az" _ w) as [[out|err] w'] eqn:Hrun; simpl.
  2: { split_and!; [done| |done]. split; [done|by intros [? ?]]. }
  destruct (has_error (stderr out)) eqn:Herr; simpl.
  { split_and!; [done| |done]. split; [done|by intros [? ?]]. }
  destruct (String.eqb (stdout out) ""); simpl.
  { split_and!; [done| |done]. split; [done|by intros [? ?]]. }
  destruct (includes "apiVersion" (stdout out)) eqn:Hapi; simpl.
  2: { split_and!; [done| |done]. split; [done|by intros [? ?]]. }
  destruct (includes "kind: Config" (stdout out)) eqn:Hkind; simpl.
  2: { split_and!; [done| |done]. split; [done|by intros [? ?]]. }
  split_and!; [done|split; eauto|].
  intros ? [= <-]. by exists out.
Qed.
End Facts.

(** *** An import without the bridge *)

Section NoBridge.
Variable World : Type.
Variable register :
  string → string → string → option string → World → result RegisterResult * World.
Variable scoped : bool.
Variable msg : string.
Hypothesis register_fails :
  ∀ subscriptionId resourceGroup clusterName managedNamespace w,
    register subscriptionId resourceGroup clusterName managedNamespace w
    = (Ok (MkRegisterResult false msg), w).

Lemma process_groups_all_fail gs (st : ImportRun World) :
  world (foldl (process_group World register scoped) st gs) = world st ∧
  localStorage (foldl (process_group World register scoped) st gs)
    = localStorage st ∧
  ∃ entries,
    results (foldl (process_group World register scoped) st gs)
      = results st ++ entries ∧
    Forall (λ r, r_success r = false) entries.
Proof.
  revert st. induction gs as [|[k g] gs IH]; intros st; cbn [foldl].
  - split_and!; [done|done|]. exists []. by rewrite app_nil_r.
  - destruct (IH (process_group World register scoped st (k, g)))
      as (Hw & Hs & entries & Hr & Hall).
    rewrite Hw, Hs, Hr. clear Hw Hs Hr IH.
    unfold process_group. cbn [fst snd].
    destruct (scope_of scoped g) as [ms|err].
    + rewrite register_fails. cbn [fst snd success negb world localStorage
        results]. split_and!; [done|done|].
      eexists. rewrite <- app_assoc. split; [done|].
      apply Forall_app. split; [|done].
      unfold failed_with. by apply Forall_map, Forall_true.
    + cbn [world localStorage results]. split_and!; [done|done|].
      eexists. rewrite <- app_assoc. split; [done|].
      apply Forall_app. split; [|done].
      unfold failed_with. by apply Forall_map, Forall_true.
Qed.
End NoBridge.

(** X18. When the bridge to the backend is missing, an import starts
    no [az] process, stores nothing, and reports a failure for every
    selected namespace. *)
Theorem handleImport_without_desktopApi
  (World : Type)
  (runCommandAsync : string → list string → World → result cmd_output * World)
  (json_parse : string → result value)
  (scoped : bool) (namespaces : list ImportSelection)
  (storage : gmap string stored) (w : World) (run : ImportRun World) :
  handleImport World
    (registerAKSCluster World runCommandAsync json_parse None)
    scoped namespaces storage w = Some run →
  world run = w ∧
  localStorage run = storage ∧
  length (results run) = length (List.filter selected namespaces) ∧
  Forall (λ r, r_success r = false) (results run).
Proof.
  intros Hrun.
  destruct (ImportFacts.handleImport_spec World
              (registerAKSCluster World runCommandAsync json_parse None)
              scoped namespaces storage w) as (chunks & Hres & Hall & _).
  rewrite Hrun in Hres, Hall.
  cbn [ImportSpec.results_reported ImportSpec.calls_made] in Hres, Hall.
  assert (length (results run) = length (List.filter selected namespaces))
    as Hlen.
  { rewrite Hres, (ImportFacts.chunks_length _ _ _ Hall).
    apply Permutation_length, ImportFacts.group_members. }
  revert Hrun. unfold handleImport. destruct (_ =? 0); [done|].
  intros [= <-].
  edestruct (process_groups_all_fail World
               (registerAKSCluster World runCommandAsync json_parse None)
               scoped _ (λ _ _ _ _ _, eq_refl)
               (group_by_cluster (List.filter selected namespaces))
               (MkRun World [] [] storage w 0))
    as (Hw & Hs & entries & Hr & Hfail).
  split_and!; [exact Hw|exact Hs|exact Hlen|].
  rewrite Hr. exact Hfail.
Qed.

Lemma handleImport_without_desktopApi_witness :
  ∃ run,
    handleImport nat
      (registerAKSCluster nat PluginSample.az_show PluginSample.json_parse None)
      true [ImportSpec.ns1; ImportSpec.ns2; ImportSpec.ns3] ∅ 0 = Some run ∧
    world run = 0 ∧
    localStorage run = ∅ ∧
    length (results run)
      = length (List.filter selected
                  [ImportSpec.ns1; ImportSpec.ns2; ImportSpec.ns3]) ∧
    Forall (λ r, r_success r = false) (results run).
Proof.
  eexists. split; [reflexivity|].
  apply (handleImport_without_desktopApi nat PluginSample.az_show
           PluginSample.json_parse true
           [ImportSpec.ns1; ImportSpec.ns2; ImportSpec.ns3] ∅ 0).
  reflexivity.
Defined.
End PluginFacts.

(** ** Selecting namespaces, and the banner after an import *)

Module UiFacts.
Import ImportPage ImportUi.

(** X19. Toggling an entry of the list twice gives the list back; one
    toggle negates [selected] of that entry and changes nothing else. *)
Theorem toggleNamespaceSelection_twice (index : nat)
  (prev : list ImportSelection) :
  index < length prev →
  ∃ updated,
    toggleNamespaceSelection index prev = Ok updated ∧
    toggleNamespaceSelection index updated = Ok prev ∧
    (∀ j, j ≠ index → updated !! j = prev !! j) ∧
    selected <$> updated !! index = negb ∘ selected <$> prev !! index ∧
    map namespace updated = map namespace prev ∧
    map projectName updated = map projectName prev.
Proof.
  intros [item Hitem]%lookup_lt_is_Some. unfold toggleNamespaceSelection.
  rewrite Hitem. eexists. split; [done|].
  assert (index < length prev) as Hlt by (by eapply lookup_lt_Some).
  rewrite list_lookup_insert_eq by done. split_and!.
  - rewrite list_insert_insert_eq. f_equal. apply list_insert_id.
    rewrite Hitem. f_equal. destruct item as [n p s m]. simpl.
    by rewrite negb_involutive.
  - intros j Hj. by rewrite list_lookup_insert_ne.
  - done.
  - change (namespace <$> <[index:=with_selected item (negb (selected item))]>
                            prev = namespace <$> prev).
    rewrite list_fmap_insert. apply list_insert_id.
    by rewrite list_lookup_fmap, Hitem.
  - change (projectName <$>
              <[index:=with_selected item (negb (selected item))]> prev
            = projectName <$> prev).
    rewrite list_fmap_insert. apply list_insert_id.
    by rewrite list_lookup_fmap, Hitem.
Qed.

Lemma toggleNamespaceSelection_twice_witness :
  ∃ updated,
    toggleNamespaceSelection 1 [ImportSpec.ns1; ImportSpec.ns2] = Ok updated ∧
    toggleNamespaceSelection 1 updated = Ok [ImportSpec.ns1; ImportSpec.ns2] ∧
    (∀ j, j ≠ 1 → updated !! j = [ImportSpec.ns1; ImportSpec.ns2] !! j) ∧
    selected <$> updated !! 1
      = negb ∘ selected <$> [ImportSpec.ns1; ImportSpec.ns2] !! 1 ∧
    map namespace updated = map namespace [ImportSpec.ns1; ImportSpec.ns2] ∧
    map projectName updated
      = map projectName [ImportSpec.ns1; ImportSpec.ns2].
Proof. apply toggleNamespaceSelection_twice. simpl. lia. Defined.

Lemma filter_selected_deselectAll prev :
  List.filter selected (deselectAll prev) = [].
Proof. unfold deselectAll. by induction prev. Qed.

Lemma filter_selected_selectAll prev :
  List.filter selected (selectAll prev) = selectAll prev.
Proof. unfold selectAll. induction prev; simpl; [done|]. by f_equal. Qed.

(** X20. After [deselectAll] an import returns before it calls
    anything; after [selectAll] on a list that is not empty it reports
    one entry for every namespace of the list. *)
Theorem handleImport_after_bulk_selection
  (World : Type)
  (register : string → string → string → option string → World →
              result RegisterResult * World)
  (scoped : bool) (namespaces : list ImportSelection)
  (storage : gmap string stored) (w : World) :
  namespaces ≠ [] →
  handleImport World register scoped (deselectAll namespaces) storage w
    = None ∧
  ∃ run,
    handleImport World register scoped (selectAll namespaces) storage w
      = Some run ∧
    length (results run) = length namespaces.
Proof.
  intros Hne. split.
  - apply ImportFacts.handleImport_nothing_selected,
      filter_selected_deselectAll.
  - destruct (ImportFacts.handleImport_spec World register scoped
                (selectAll namespaces) storage w)
      as (chunks & Hres & Hall & _).
    rewrite ImportFacts.handleImport_runs in *
      by (rewrite filter_selected_selectAll; unfold selectAll;
          by destruct namespaces).
    eexists. split; [done|].
    cbn [ImportSpec.results_reported ImportSpec.calls_made] in Hres, Hall.
    rewrite Hres, (ImportFacts.chunks_length _ _ _ Hall).
    rewrite (Permutation_length (ImportFacts.group_members _)).
    rewrite filter_selected_selectAll. unfold selectAll. apply length_map.
Qed.

Lemma handleImport_after_bulk_selection_witness :
  handleImport nat ImportSpec.register_east_only true
    (deselectAll [ImportSpec.ns1; ImportSpec.ns2; ImportSpec.ns3]) ∅ 0
    = None ∧
  ∃ run,
    handleImport nat ImportSpec.register_east_only true
      (selectAll [ImportSpec.ns1; ImportSpec.ns2; ImportSpec.ns3]) ∅ 0
      = Some run ∧
    length (results run)
      = length [ImportSpec.ns1; ImportSpec.ns2; ImportSpec.ns3].
Proof. apply handleImport_after_bulk_selection. discriminate. Defined.

Lemma remove_dups_length_le {A : Type} `{EqDecision A} (l : list A) :
  length (remove_dups l) ≤ length l.
Proof.
  induction l as [|x l IH]; simpl; [done|].
  destruct (decide_rel _ x l); simpl; lia.
Qed.

(** X21. The banner after an import: successes and failures add up to
    the entries, the error is shown exactly when nothing succeeded, and
    the number of clusters announced is at most the number of successes
    and is zero only when that number is. *)
Theorem import_banner_counts (trim : string → string)
  (results : list ImportResult) :
  successCount results + failureCount results = length results ∧
  (import_banner trim results
     = SetError "Failed to import any projects. See details below." ↔
   successCount results = 0) ∧
  successfulClusters trim results ≤ successCount results ∧
  (successfulClusters trim results = 0 ↔ successCount results = 0).
Proof.
  split_and!.
  - unfold successCount, failureCount.
    induction results as [|r rs IH]; simpl; [done|].
    destruct (r_success r); simpl; lia.
  - unfold import_banner. destruct (successCount results); simpl; [done|].
    split; [discriminate|lia].
  - unfold successfulClusters, successCount.
    etrans; [apply remove_dups_length_le|]. by rewrite length_map.
  - unfold successfulClusters, successCount.
    destruct (List.filter r_success results) as [|r rs]; [done|].
    split; [|done]. intros Hnil%length_zero_iff_nil.
    assert (cluster_of_label trim r
              ∈ remove_dups (map (cluster_of_label trim) (r :: rs))) as Hin
      by (apply elem_of_remove_dups; left).
    rewrite Hnil in Hin. by apply elem_of_nil in Hin.
Qed.

(** *** The cluster name in a resource id *)

Lemma app_cons a s t : String a s +:+ t = String a (s +:+ t).
Proof. reflexivity. Qed.

Lemma prefix_cons a p b s :
  String.prefix (String a p) (String b s)
  = if Ascii.eqb a b then String.prefix p s else false.
Proof.
  simpl. destruct (ascii_dec a b), (Ascii.eqb_spec a b); congruence.
Qed.

Lemma includes_cons needle a hay :
  includes needle (String a hay)
  = String.prefix needle (String a hay) || includes needle hay.
Proof. reflexivity. Qed.

Lemma prefix_app_long p s x :
  String.length p ≤ String.length s →
  String.prefix p (s +:+ x) = String.prefix p s.
Proof.
  revert s. induction p as [|a p IH]; intros s Hlen.
  - by destruct s, x.
  - destruct s as [|b s]; simpl in Hlen; [lia|].
    rewrite app_cons, !prefix_cons. rewrite IH by lia. done.
Qed.

Lemma length_app_ge pre m : String.length m ≤ String.length (pre +:+ m).
Proof.
  induction pre as [|a pre IH]; [done|]. rewrite app_cons. simpl. lia.
Qed.

Lemma prefix_app_inner p pre m x :
  String.length p ≤ String.length (pre +:+ m) →
  String.prefix p (pre +:+ m +:+ x) = String.prefix p (pre +:+ m).
Proof.
  revert p. induction pre as [|a pre IH]; intros p Hlen.
  - change (EmptyString +:+ ?y) with y in *. by apply prefix_app_long.
  - destruct p as [|b p]; [done|].
    rewrite !app_cons, !prefix_cons. rewrite app_cons in Hlen. simpl in Hlen.
    rewrite IH by lia. done.
Qed.

Lemma substring_full s : String.substring 0 (String.length s) s = s.
Proof. induction s as [|a s IH]; simpl; [done|]. by rewrite IH. Qed.

Lemma strip_prefix_app p x : strip_prefix p (p +:+ x) = Some x.
Proof.
  unfold strip_prefix.
  assert (String.prefix p (p +:+ x) = true) as ->.
  { induction p as [|a p IH]; [by destruct x|].
    by rewrite app_cons, prefix_cons, Ascii.eqb_refl. }
  f_equal. induction p as [|a p IH].
  - change (EmptyString +:+ x) with x. simpl.
    rewrite Nat.sub_0_r. apply substring_full.
  - rewrite app_cons. simpl. exact IH.
Qed.

Lemma prefix_split p s :
  String.prefix p s = true → ∃ x, s = p +:+ x.
Proof.
  revert s. induction p as [|a p IH]; intros s; [by exists s|].
  destruct s as [|b s]; [done|]. rewrite prefix_cons.
  destruct (Ascii.eqb_spec a b) as [->|]; [|done].
  intros [x ->]%IH. by exists x.
Qed.

Lemma strip_prefix_Some p s rest :
  strip_prefix p s = Some rest → s = p +:+ rest.
Proof.
  intros Hstrip. assert (String.prefix p s = true) as [x ->]%prefix_split.
  { unfold strip_prefix in Hstrip. by destruct (String.prefix p s). }
  rewrite strip_prefix_app in Hstrip. congruence.
Qed.

Lemma segment_no_slash s : includes "/" (segment s) = false.
Proof.
  induction s as [|a s IH]; simpl; [done|].
  destruct (Ascii.eqb_spec a "/") as [->|Hne]; [done|].
  rewrite includes_cons, prefix_cons, IH.
  destruct (Ascii.eqb_spec "/" a); [congruence|done].
Qed.

Lemma segment_split s :
  ∃ rest, s = segment s +:+ rest ∧ (rest = "" ∨ ∃ r, rest = String "/" r).
Proof.
  induction s as [|a s (rest & IH & Hrest)]; simpl.
  - exists "". by split; [|left].
  - destruct (Ascii.eqb_spec a "/") as [->|Hne].
    + exists (String "/" s). split; [done|]. right. by exists s.
    + exists rest. split; [|done]. by rewrite app_cons, <- IH.
Qed.

Lemma segment_app c rest :
  includes "/" c = false →
  rest = "" ∨ (∃ r, rest = String "/" r) →
  segment (c +:+ rest) = c.
Proof.
  intros Hc Hrest. induction c as [|a c IH].
  - change (EmptyString +:+ rest) with rest.
    by destruct Hrest as [->|[r ->]].
  - rewrite includes_cons, prefix_cons in Hc.
    apply orb_false_elim in Hc as [Ha Hc].
    rewrite app_cons. simpl. rewrite Ascii.eqb_sym.
    destruct (Ascii.eqb "/" a); [by destruct c|].
    by rewrite IH.
Qed.

Lemma getClusterName_eq str :
  getClusterName str =
  if negb (String.eqb
             (match strip_prefix "managedClusters/" str with
              | Some rest => segment rest
              | None => EmptyString
              end) "")
  then match strip_prefix "managedClusters/" str with
       | Some rest => segment rest
       | None => EmptyString
       end
  else match str with
       | EmptyString => EmptyString
       | String _ str' => getClusterName str'
       end.
Proof. by destruct str. Qed.

Lemma getClusterName_no_slash str : includes "/" (getClusterName str) = false.
Proof.
  induction str as [|a str IH]; [done|].
  rewrite getClusterName_eq.
  destruct (strip_prefix "managedClusters/" (String a str)) as [rest0|];
    [|done].
  destruct (String.eqb (segment rest0) ""); cbn [negb]; [done|].
  apply segment_no_slash.
Qed.

(** X22. What [getClusterName] returns never holds a ['/']; it is
    empty, or it is the text that follows an occurrence of
    [managedClusters/] in the id, up to the next ['/'] or the end. *)
Theorem getClusterName_sound (str : string) :
  includes "/" (getClusterName str) = false ∧
  (getClusterName str = "" ∨
   ∃ pre rest,
     str = pre +:+ "managedClusters/" +:+ getClusterName str +:+ rest ∧
     (rest = "" ∨ ∃ r, rest = String "/" r)).
Proof.
  induction str as [|a str [IHslash IHocc]].
  - split; [done|by left].
  - rewrite getClusterName_eq.
    destruct (strip_prefix "managedClusters/" (String a str))
      as [rest0|] eqn:Hstrip.
    + destruct (String.eqb_spec (segment rest0) "") as [Hempty|Hfull];
        cbn [negb].
      * split; [done|]. destruct IHocc as [?|(pre & rest & Hstr & Hrest)];
          [by left|].
        right. exists (String a pre), rest. split; [|done].
        by rewrite app_cons, <- Hstr.
      * split; [apply segment_no_slash|]. right.
        destruct (segment_split rest0) as (rest & Hsplit & Hrest).
        exists "", rest. split; [|done].
        apply strip_prefix_Some in Hstrip. rewrite Hstrip.
        change (EmptyString +:+ ?x) with x. by rewrite <- Hsplit.
    + cbn [String.eqb negb]. split; [done|].
      destruct IHocc as [?|(pre & rest & Hstr & Hrest)]; [by left|].
      right. exists (String a pre), rest. split; [|done].
      by rewrite app_cons, <- Hstr.
Qed.

(** X23. On an id in which [managedClusters/] is followed by a name
    without ['/'] that ends at a ['/'] or at the end of the id, and in
    which no occurrence of [managedClusters/] starts earlier,
    [getClusterName] returns that name. *)
Theorem getClusterName_of_id (pre c rest : string) :
  includes "managedClusters/" (pre +:+ "managedClusters") = false →
  c ≠ "" →
  includes "/" c = false →
  rest = "" ∨ (∃ r, rest = String "/" r) →
  getClusterName (pre +:+ "managedClusters/" +:+ c +:+ rest) = c.
Proof.
  intros Hpre Hc Hslash Hrest. induction pre as [|a pre IH].
  - change (EmptyString +:+ ?x) with x.
    rewrite getClusterName_eq, strip_prefix_app, segment_app by done.
    by apply String.eqb_neq in Hc as ->.
  - rewrite app_cons, includes_cons in Hpre.
    apply orb_false_elim in Hpre as [Hhere Hlater].
    rewrite app_cons, getClusterName_eq.
    assert (strip_prefix "managedClusters/"
              (String a (pre +:+ "managedClusters/" +:+ c +:+ rest)) = None)
      as ->.
    { unfold strip_prefix.
      change (String a (pre +:+ "managedClusters/" +:+ c +:+ rest))
        with (String a pre +:+ "managedClusters" +:+ ("/" +:+ c +:+ rest)).
      rewrite prefix_app_inner.
      - rewrite app_cons. by rewrite Hhere.
      - pose proof (length_app_ge pre "managedClusters") as Hge.
        rewrite app_cons. simpl in *. lia. }
    cbn [String.eqb negb]. by apply IH.
Qed.

Lemma getClusterName_of_id_witness :
  getClusterName
    ("/subscriptions/s1/resourceGroups/rg1/providers/Microsoft.ContainerService/"
     +:+ "managedClusters/" +:+ "aks-east" +:+ "/namespaces/team-a")
  = "aks-east".
Proof.
  apply getClusterName_of_id.
  - reflexivity.
  - discriminate.
  - reflexivity.
  - right. by eexists.
Defined.

(** X24. Whatever the resource graph answers, the namespaces
    [loadNamespaces] hands to the page are all selected and carry
    cluster names without ['/']; an import started on them as they are
    reports one entry for each. *)
Theorem loadNamespaces_then_handleImport
  (runCommandAsync : string → list string → cmd_output)
  (parse_data : string → result (list GraphResource))
  (platform : string)
  (World : Type)
  (register : string → string → string → option string → World →
              result RegisterResult * World)
  (scoped : bool) (storage : gmap string stored) (w : World)
  (loaded : list ImportSelection) :
  loadNamespaces runCommandAsync parse_data platform = Ok loaded →
  loaded ≠ [] →
  Forall (λ item, selected item = true ∧
                  includes "/" (clusterName (namespace item)) = false)
    loaded ∧
  ∃ run,
    handleImport World register scoped loaded storage w = Some run ∧
    length (results run) = length loaded.
Proof.
  unfold loadNamespaces. intros Hload Hne.
  destruct (negb _); [done|].
  destruct (parse_data _) as [rows|e]; [|done].
  injection Hload as <-.
  assert (List.filter selected (map selection_of rows) = map selection_of rows)
    as Hall by (clear; induction rows; simpl; [done|by f_equal]).
  split.
  - apply Forall_map, Forall_true. intros r. split; [done|].
    apply getClusterName_no_slash.
  - destruct (ImportFacts.handleImport_spec World register scoped
                (map selection_of rows) storage w)
      as (chunks & Hres & Hchunks & _).
    rewrite ImportFacts.handleImport_runs in * by (by rewrite Hall).
    eexists. split; [done|].
    cbn [ImportSpec.results_reported ImportSpec.calls_made] in Hres, Hchunks.
    rewrite Hres, (ImportFacts.chunks_length _ _ _ Hchunks).
    rewrite (Permutation_length (ImportFacts.group_members _)).
    by rewrite Hall.
Qed.

Lemma loadNamespaces_then_handleImport_witness :
  Forall (λ item, selected item = true ∧
                  includes "/" (clusterName (namespace item)) = false)
    (map selection_of
       [DiscoverySpec.resource_no_id; DiscoverySpec.resource_merged]) ∧
  ∃ run,
    handleImport nat ImportSpec.register_east_only true
      (map selection_of
         [DiscoverySpec.resource_no_id; DiscoverySpec.resource_merged]) ∅ 0
      = Some run ∧
    length (results run)
      = length (map selection_of
                  [DiscoverySpec.resource_no_id;
                   DiscoverySpec.resource_merged]).
Proof.
  apply (loadNamespaces_then_handleImport DiscoverySpec.graph_answer
           DiscoverySpec.graph_rows "linux").
  - reflexivity.
  - discriminate.
Defined.
End UiFacts.
